(** * Faceted Artifact Explorer: filter state, URL synchronisation, query
      compilation, search execution and pagination

    A shallow embedding of the search core of the repository:

    - [client/src/pages/home-page.tsx]: the filter state of [HomePage], its
      hydration from the address bar and [buildQueryString];
    - [wouter]: [useSearch], through which [HomePage] and the search bar
      read the address bar, and the platform functions under it
      ([decodeURI], [URLSearchParams], the UTF-8 decoder);
    - [client/src/components/filter-sidebar.tsx]: the facet toggles and the
      date slider;
    - [client/src/lib/api.ts]: [buildSearchQueryString], [parseSearchParams],
      [formatDate], [formatDateRange];
    - [client/src/components/pagination.tsx]: [generatePages] and the
      buttons;
    - [client/src/components/search-bar.tsx]: [handleSubmit];
    - [client/src/components/image-gallery.tsx]: the order of the images
      and the two arrows;
    - [shared/schema.ts]: [artifactSearchParamsSchema];
    - [server/routes.ts]: the [/api/search] handler,
      [buildElasticsearchQuery], [getSortFieldFromSearchParams],
      [getSortDirectionFromSearchParams], and [GET /api/artifacts/:id];
    - [server/storage.ts]: [listArtifacts], [getArtifactImages],
      [getArtifact], [deleteArtifact], [setPrimaryImage],
      [getTagsByArtifactId].

    Strings are byte strings (the UTF-8 form of the text), integers are [Z],
    and a JavaScript number that may be [NaN] is a [number].  The store is
    PostgreSQL behind the query builder: a method that is handed a number
    of the request and whose query the database refuses (an id outside the
    [integer] range, a negative [OFFSET]) has its promise rejected, which
    is [None] here. *)

From Stdlib Require Import ZArith List String Ascii Bool Lia Sorted Permutation.
Import ListNotations.

Local Open Scope string_scope.
Local Open Scope Z_scope.

(* ===================================================================== *)
(** * The JavaScript values the code relies on *)
(* ===================================================================== *)

Module JS.

(** A number as [parseInt] produces it: an integer or [NaN].  [Num z] is
    the double of value [z], which exists and prints as the digits of [z]
    for [|z| < 2^53]; the statements below whose content depends on the
    digits of a number carry that bound ([Conditions.exact]).  Above it
    doubles round, and from 10^21 they print in exponent form; neither is
    modelled. *)
Inductive number : Type :=
| NaN
| Num (z : Z).

Definition number_eqb (a b : number) : bool :=
  match a, b with
  | Num x, Num y => x =? y
  | _, _ => false        (* NaN === anything is false *)
  end.

(** [a !== b] on numbers. *)
Definition number_neq (a b : number) : bool := negb (number_eqb a b).

(** ** Characters *)

Definition char_code (c : ascii) : Z := Z.of_N (N_of_ascii c).
Definition char_of_code (z : Z) : ascii := ascii_of_N (Z.to_N z).

Definition is_digit (c : ascii) : bool :=
  (48 <=? char_code c) && (char_code c <=? 57).

Definition digit_value (c : ascii) : Z := char_code c - 48.

Definition digit_char (d : Z) : ascii := char_of_code (48 + d).

(** Value of a hexadecimal digit, either case. *)
Definition hex_value (c : ascii) : option Z :=
  let n := char_code c in
  if (48 <=? n) && (n <=? 57) then Some (n - 48)
  else if (65 <=? n) && (n <=? 70) then Some (n - 55)
  else if (97 <=? n) && (n <=? 102) then Some (n - 87)
  else None.

(** Upper-case hexadecimal digit of a value below 16. *)
Definition hex_char (d : Z) : ascii :=
  if d <? 10 then char_of_code (48 + d) else char_of_code (55 + d).

(** [StrWhiteSpaceChar], what [parseInt] and [trim] skip: the one-byte
    code points TAB, LF, VT, FF, CR and SPACE, ... *)
Definition space1 (n0 : Z) : bool :=
  ((9 <=? n0) && (n0 <=? 13)) || (n0 =? 32).

(** ... U+00A0, whose UTF-8 form is [C2 A0], ... *)
Definition space2 (n0 n1 : Z) : bool :=
  (n0 =? 194) && (n1 =? 160).

(** ... and the three-byte ones: U+1680 ([E1 9A 80]), U+2000 to U+200A
    ([E2 80 80] to [E2 80 8A]), U+2028, U+2029, U+202F ([E2 80 A8], [A9],
    [AF]), U+205F ([E2 81 9F]), U+3000 ([E3 80 80]) and U+FEFF
    ([EF BB BF]). *)
Definition space3 (n0 n1 n2 : Z) : bool :=
  ((n0 =? 225) && (n1 =? 154) && (n2 =? 128))
  || ((n0 =? 226) && (n1 =? 128)
      && (((128 <=? n2) && (n2 <=? 138))
          || (n2 =? 168) || (n2 =? 169) || (n2 =? 175)))
  || ((n0 =? 226) && (n1 =? 129) && (n2 =? 159))
  || ((n0 =? 227) && (n1 =? 128) && (n2 =? 128))
  || ((n0 =? 239) && (n1 =? 187) && (n2 =? 191)).

(** ** [Number.prototype.toString] on integers and [parseInt] *)

Fixpoint digits_fuel (fuel : nat) (n : Z) (acc : string) : string :=
  match fuel with
  | O => acc
  | S f =>
      let acc' := String (digit_char (n mod 10)) acc in
      if n <? 10 then acc' else digits_fuel f (n / 10) acc'
  end.

(** Decimal digits of a natural number, most significant first; a number
    has no more decimal digits than binary ones. *)
Definition nat_digits (n : Z) : string :=
  digits_fuel (S (Z.to_nat (Z.log2 n))) n "".

Definition int_toString (z : Z) : string :=
  if z <? 0 then String "-" (nat_digits (- z)) else nat_digits z.

Definition toString (n : number) : string :=
  match n with
  | NaN => "NaN"
  | Num z => int_toString z
  end.

(** The string without its leading white space. *)
Fixpoint skip_spaces (s : string) : string :=
  match s with
  | String c0 r0 =>
      let n0 := char_code c0 in
      if space1 n0 then skip_spaces r0
      else if n0 =? 194 then
        match r0 with
        | String c1 r1 =>
            if space2 n0 (char_code c1) then skip_spaces r1 else s
        | EmptyString => s
        end
      else if (n0 =? 225) || (n0 =? 226) || (n0 =? 227) || (n0 =? 239) then
        match r0 with
        | String c1 (String c2 r2) =>
            if space3 n0 (char_code c1) (char_code c2) then skip_spaces r2
            else s
        | _ => s
        end
      else s
  | EmptyString => s
  end.

(** [!s.trim()]: nothing but white space. *)
Definition blank (s : string) : bool :=
  match skip_spaces s with
  | EmptyString => true
  | String _ _ => false
  end.

(** Longest prefix of decimal digits, folded from the left. *)
Fixpoint fold_digits (s : string) (acc : Z) : Z :=
  match s with
  | String c s' =>
      if is_digit c then fold_digits s' (10 * acc + digit_value c) else acc
  | EmptyString => acc
  end.

Fixpoint fold_hex (s : string) (acc : Z) : Z :=
  match s with
  | String c s' =>
      match hex_value c with
      | Some d => fold_hex s' (16 * acc + d)
      | None => acc
      end
  | EmptyString => acc
  end.

(** The unsigned part of [parseInt] with radix 0: a [0x]/[0X] prefix selects
    base 16, and a string with no leading digit gives [NaN]. *)
Definition parse_unsigned (s : string) : option Z :=
  match s with
  | String "0" (String x (String h s')) =>
      if ((x =? "x")%char || (x =? "X")%char) then
        match hex_value h with
        | Some _ => Some (fold_hex (String h s') 0)
        | None => None
        end
      else Some (fold_digits s 0)
  | String "0" (String x EmptyString) =>
      if ((x =? "x")%char || (x =? "X")%char) then None
      else Some (fold_digits s 0)
  | String c _ => if is_digit c then Some (fold_digits s 0) else None
  | EmptyString => None
  end.

Definition parseInt (s : string) : number :=
  let s1 := skip_spaces s in
  let '(neg, s2) :=
    match s1 with
    | String "-" r => (true, r)
    | String "+" r => (false, r)
    | _ => (false, s1)
    end in
  match parse_unsigned s2 with
  | Some v => Num (if neg then - v else v)
  | None => NaN
  end.

(** ** [String.prototype.split] on a one-character separator, [Array.join] *)

(** [split_on sep s]: the pieces of [s] between occurrences of [sep]; the
    empty string gives one empty piece, as in JavaScript. *)
Fixpoint split_on (sep : ascii) (s : string) : list string :=
  match s with
  | EmptyString => [EmptyString]
  | String c s' =>
      if (c =? sep)%char then EmptyString :: split_on sep s'
      else
        match split_on sep s' with
        | p :: ps => String c p :: ps
        | [] => [String c EmptyString]
        end
  end.

Fixpoint join (sep : string) (l : list string) : string :=
  match l with
  | [] => ""
  | [x] => x
  | x :: xs => x ++ sep ++ join sep xs
  end.

(** Truthiness of a string: [Boolean(s)]. *)
Definition truthy (s : string) : bool :=
  match s with
  | EmptyString => false
  | _ => true
  end.

Fixpoint contains_char (c : ascii) (s : string) : bool :=
  match s with
  | EmptyString => false
  | String d s' => (d =? c)%char || contains_char c s'
  end.

(** [x || d] on strings that may be [null]. *)
Definition or_default (x : option string) (d : string) : string :=
  match x with
  | Some s => if truthy s then s else d
  | None => d
  end.

(** [l.includes(v)] and [l.filter(c => c !== v)]. *)
Definition includes (v : string) (l : list string) : bool :=
  existsb (String.eqb v) l.

Definition without (v : string) (l : list string) : list string :=
  filter (fun c => negb (String.eqb c v)) l.

End JS.

(* ===================================================================== *)
(** * UTF-8 *)
(* ===================================================================== *)

(** Strings are byte strings holding text in UTF-8.  The platform hands
    out no other text: where bytes that decode to no text come in (from a
    percent-escape of the address bar), its UTF-8 decoder replaces them by
    U+FFFD. *)
Module UTF8.
Import JS.

Definition between (lo hi : Z) (b : ascii) : bool :=
  (lo <=? char_code b) && (char_code b <=? hi).

(** What a byte opens when no sequence is open: nothing more to come for
    an ASCII byte, the bounds of each continuation byte to come for a lead
    byte, [None] for a byte that starts no sequence.  The second byte is
    bounded more tightly after [E0], [ED], [F0] and [F4]: no overlong
    form, no surrogate, nothing above U+10FFFF. *)
Definition lead (b : ascii) : option (list (Z * Z)) :=
  let n := char_code b in
  if n <=? 127 then Some []
  else if (194 <=? n) && (n <=? 223) then Some [(128, 191)]
  else if (224 <=? n) && (n <=? 239) then
    Some [(if n =? 224 then 160 else 128, if n =? 237 then 159 else 191);
          (128, 191)]
  else if (240 <=? n) && (n <=? 244) then
    Some [(if n =? 240 then 144 else 128, if n =? 244 then 143 else 191);
          (128, 191); (128, 191)]
  else None.

(** Well-formed UTF-8, read with the continuation bytes [expect] still to
    come. *)
Fixpoint valid_from (expect : list (Z * Z)) (s : string) : bool :=
  match s with
  | EmptyString =>
      match expect with
      | [] => true
      | _ :: _ => false
      end
  | String b r =>
      match expect with
      | (lo, hi) :: es => between lo hi b && valid_from es r
      | [] =>
          match lead b with
          | Some es => valid_from es r
          | None => false
          end
      end
  end.

Definition valid (s : string) : bool := valid_from [] s.

(** U+FFFD in UTF-8. *)
Definition replacement : string :=
  String (char_of_code 239)
    (String (char_of_code 191) (String (char_of_code 189) "")).

(** The decoder of the Encoding standard ("UTF-8 decode without BOM"),
    its output written in UTF-8 again: [pending] holds the bytes of the
    sequence that is open, [expect] the bounds of those still needed.  A
    byte out of its bounds closes the sequence with one U+FFFD and is read
    again with no sequence open; so does the end of the input. *)
Fixpoint decode_from (pending : string) (expect : list (Z * Z))
    (s : string) : string :=
  match s with
  | EmptyString =>
      match expect with
      | [] => ""
      | _ :: _ => replacement
      end
  | String b r =>
      let start :=
        match lead b with
        | Some [] => String b (decode_from "" [] r)
        | Some (e :: es) => decode_from (String b "") (e :: es) r
        | None => replacement ++ decode_from "" [] r
        end in
      match expect with
      | [] => start
      | (lo, hi) :: es =>
          if between lo hi b then
            match es with
            | [] => pending ++ String b (decode_from "" [] r)
            | _ :: _ => decode_from (pending ++ String b "") es r
            end
          else replacement ++ start
      end
  end.

Definition decode (s : string) : string := decode_from "" [] s.

End UTF8.

(* ===================================================================== *)
(** * [URLSearchParams] *)
(* ===================================================================== *)

Module URLSearchParams.
Import JS.

(** The list of name-value pairs an instance holds. *)
Definition t : Type := list (string * string).

Definition append (name value : string) (p : t) : t :=
  (p ++ [(name, value)])%list.

Fixpoint get (name : string) (p : t) : option string :=
  match p with
  | [] => None
  | (k, v) :: rest => if String.eqb k name then Some v else get name rest
  end.

Definition has (name : string) (p : t) : bool :=
  match get name p with
  | Some _ => true
  | None => false
  end.

(** Bytes the [application/x-www-form-urlencoded] serializer leaves as they
    are: ASCII alphanumerics and [*], [-], [.], [_]. *)
Definition unreserved (c : ascii) : bool :=
  let n := char_code c in
  ((48 <=? n) && (n <=? 57)) || ((65 <=? n) && (n <=? 90))
  || ((97 <=? n) && (n <=? 122))
  || (n =? 42) || (n =? 45) || (n =? 46) || (n =? 95).

Definition encode_byte (c : ascii) : string :=
  if unreserved c then String c ""
  else if (c =? " ")%char then "+"
  else
    let n := char_code c in
    String "%" (String (hex_char (n / 16)) (String (hex_char (n mod 16)) "")).

Fixpoint encode (s : string) : string :=
  match s with
  | EmptyString => ""
  | String c s' => encode_byte c ++ encode s'
  end.

(** The bytes of a name or value: [+] is a space and [%XY] with two
    hexadecimal digits is the byte [XY]; any other [%] stands for itself. *)
Fixpoint percent_decode (s : string) : string :=
  match s with
  | EmptyString => ""
  | String c s' =>
      if (c =? "+")%char then String " " (percent_decode s')
      else if (c =? "%")%char then
        match s' with
        | String h (String l s'') =>
            match hex_value h, hex_value l with
            | Some a, Some b =>
                String (char_of_code (16 * a + b)) (percent_decode s'')
            | _, _ => String c (percent_decode s')
            end
        | _ => String c (percent_decode s')
        end
      else String c (percent_decode s')
  end.

(** Decoding of a name or value: its bytes, read as UTF-8. *)
Definition decode (s : string) : string := UTF8.decode (percent_decode s).

(** Splits a sequence at its first [=]. *)
Fixpoint split_pair (s : string) : string * string :=
  match s with
  | EmptyString => ("", "")
  | String c s' =>
      if (c =? "=")%char then ("", s')
      else let '(k, v) := split_pair s' in (String c k, v)
  end.

(** The text of one pair: [name=value], both encoded. *)
Definition pair_text (kv : string * string) : string :=
  encode (fst kv) ++ "=" ++ encode (snd kv).

(** [URLSearchParams.prototype.toString]. *)
Definition to_string (p : t) : string :=
  join "&" (map pair_text p).

(** [new URLSearchParams(search)]: a leading [?] is dropped, empty sequences
    between [&] are skipped. *)
Definition parse (search : string) : t :=
  let body :=
    match search with
    | String "?" r => r
    | _ => search
    end in
  map (fun seq => let '(k, v) := split_pair seq in (decode k, decode v))
      (filter truthy (split_on "&" body)).

End URLSearchParams.

(* ===================================================================== *)
(** * [wouter]: [useSearch] *)
(* ===================================================================== *)

Module Wouter.
Import JS.

(** [str[0] === "?" ? str.slice(1) : str] *)
Definition stripQm (str : string) : string :=
  match str with
  | String c r => if (c =? "?")%char then r else str
  | EmptyString => str
  end.

(** The characters [decodeURI] leaves escaped: [; / ? : @ & = + $ ,] and
    [#]. *)
Definition uri_reserved (c : ascii) : bool :=
  existsb (Ascii.eqb c)
    [";"; "/"; "?"; ":"; "@"; "&"; "="; "+"; "$"; ","; "#"]%char.

(** The number of escapes that must follow a first escape whose byte is
    [n >= 128]: one less than its leading one bits, which must be two to
    four. *)
Definition more_octets (n : Z) : option nat :=
  if (192 <=? n) && (n <=? 223) then Some 1%nat
  else if (224 <=? n) && (n <=? 239) then Some 2%nat
  else if (240 <=? n) && (n <=? 247) then Some 3%nat
  else None.

(** [Decode] of ECMAScript, as [decodeURI] calls it; [None] is the
    [URIError].  An escape of a byte below 128 gives its character, or is
    kept as it is written when the character is reserved.  An escape of a
    byte from 128 opens a sequence of [need] further escapes, whose bytes
    [pending] must be the UTF-8 form of one code point once complete.  A
    [%] not followed by two hexadecimal digits is an error, as is anything
    but an escape while a sequence is open. *)
Fixpoint Decode (pending : string) (need : nat) (s : string)
    : option string :=
  match s with
  | EmptyString =>
      match need with
      | O => Some ""
      | S _ => None
      end
  | String c r =>
      if (c =? "%")%char then
        match r with
        | String h (String l r2) =>
            match hex_value h, hex_value l with
            | Some a, Some b =>
                let B := char_of_code (16 * a + b) in
                match need with
                | O =>
                    if 16 * a + b <? 128 then
                      if uri_reserved B
                      then option_map
                             (fun t => String c (String h (String l t)))
                             (Decode "" 0 r2)
                      else option_map (String B) (Decode "" 0 r2)
                    else
                      match more_octets (16 * a + b) with
                      | Some n => Decode (String B "") n r2
                      | None => None
                      end
                | S m =>
                    let octets := pending ++ String B "" in
                    match m with
                    | O =>
                        if UTF8.valid octets
                        then option_map (append octets) (Decode "" 0 r2)
                        else None
                    | S _ => Decode octets m r2
                    end
                end
            | _, _ => None
            end
        | _ => None
        end
      else
        match need with
        | O => option_map (String c) (Decode "" 0 r)
        | S _ => None
        end
  end.

Definition decodeURI (s : string) : option string := Decode "" 0 s.

(** [try { return decodeURI(str) } catch (_e) { return str }] *)
Definition unescape (str : string) : string :=
  match decodeURI str with
  | Some d => d
  | None => str
  end.

(** [useSearch()], with [location.search] as its argument:
    [unescape(stripQm(location.search))]. *)
Definition useSearch (location_search : string) : string :=
  unescape (stripQm location_search).

End Wouter.

(* ===================================================================== *)
(** * [client/src/pages/home-page.tsx] and [filter-sidebar.tsx] *)
(* ===================================================================== *)

Module HomePage.
Import JS.

(** The [useState] cells of [HomePage]. *)
Record State : Type := mkState {
  searchQuery : string;
  cultures : list string;
  materials : list string;
  dateRange : number * number;
  has3dModel : bool;
  sortOption : string;
  currentPage : number
}.

(** What [resetFilters] installs. *)
Definition defaultState : State :=
  {| searchQuery := "";
     cultures := [];
     materials := [];
     dateRange := (Num (-3000), Num 2000);
     has3dModel := false;
     sortOption := "relevance";
     currentPage := Num 1 |}.

(** [params.get(name)?.split(",").filter(Boolean) || []] *)
Definition facet_of (v : option string) : list string :=
  match v with
  | Some s => filter truthy (split_on "," s)
  | None => []
  end.

(** The initial values of the state cells, read from the address bar:
    [location_search] is the browser's [location.search], which reaches
    the page through [useSearch]. *)
Definition hydrate (location_search : string) : State :=
  let search := Wouter.useSearch location_search in
  let params := URLSearchParams.parse search in
  {| searchQuery := or_default (URLSearchParams.get "query" params) "";
     cultures := facet_of (URLSearchParams.get "cultures" params);
     materials := facet_of (URLSearchParams.get "materials" params);
     dateRange :=
       (parseInt (or_default (URLSearchParams.get "dateStart" params) "-3000"),
        parseInt (or_default (URLSearchParams.get "dateEnd" params) "2000"));
     has3dModel :=
       match URLSearchParams.get "has3dModel" params with
       | Some v => String.eqb v "true"
       | None => false
       end;
     sortOption := or_default (URLSearchParams.get "sort" params) "relevance";
     currentPage :=
       parseInt (or_default (URLSearchParams.get "page" params) "1") |}.

(** [if (cond) queryParams.append(name, value)] *)
Definition append_if (cond : bool) (name value : string)
    (p : URLSearchParams.t) : URLSearchParams.t :=
  if cond then URLSearchParams.append name value p else p.

Definition queryParams (s : State) : URLSearchParams.t :=
  let p := [] in
  let p := append_if (truthy (searchQuery s)) "query" (searchQuery s) p in
  let p := append_if (0 <? Z.of_nat (List.length (cultures s)))
             "cultures" (join "," (cultures s)) p in
  let p := append_if (0 <? Z.of_nat (List.length (materials s)))
             "materials" (join "," (materials s)) p in
  let p := append_if (number_neq (fst (dateRange s)) (Num (-3000)))
             "dateStart" (toString (fst (dateRange s))) p in
  let p := append_if (number_neq (snd (dateRange s)) (Num 2000))
             "dateEnd" (toString (snd (dateRange s))) p in
  let p := append_if (has3dModel s) "has3dModel" "true" p in
  let p := append_if (negb (String.eqb (sortOption s) "relevance"))
             "sort" (sortOption s) p in
  let p := append_if (number_neq (currentPage s) (Num 1))
             "page" (toString (currentPage s)) p in
  p.

Definition buildQueryString (s : State) : string :=
  URLSearchParams.to_string (queryParams s).

(** ** Transitions *)

Definition toggle (v : string) (l : list string) : list string :=
  if includes v l then without v l else (l ++ [v])%list.

Definition toggleCulture (culture : string) (s : State) : State :=
  {| searchQuery := searchQuery s;
     cultures := toggle culture (cultures s);
     materials := materials s;
     dateRange := dateRange s;
     has3dModel := has3dModel s;
     sortOption := sortOption s;
     currentPage := currentPage s |}.

Definition toggleMaterial (material : string) (s : State) : State :=
  {| searchQuery := searchQuery s;
     cultures := cultures s;
     materials := toggle material (materials s);
     dateRange := dateRange s;
     has3dModel := has3dModel s;
     sortOption := sortOption s;
     currentPage := currentPage s |}.

Definition setDateRange (r : number * number) (s : State) : State :=
  {| searchQuery := searchQuery s;
     cultures := cultures s;
     materials := materials s;
     dateRange := r;
     has3dModel := has3dModel s;
     sortOption := sortOption s;
     currentPage := currentPage s |}.

(** The slider only moves the start of the range. *)
Definition handleSliderChange (value : Z) (s : State) : State :=
  setDateRange (Num value, snd (dateRange s)) s.

Definition setHas3dModel (b : bool) (s : State) : State :=
  {| searchQuery := searchQuery s;
     cultures := cultures s;
     materials := materials s;
     dateRange := dateRange s;
     has3dModel := b;
     sortOption := sortOption s;
     currentPage := currentPage s |}.

Definition setSortOption (v : string) (s : State) : State :=
  {| searchQuery := searchQuery s;
     cultures := cultures s;
     materials := materials s;
     dateRange := dateRange s;
     has3dModel := has3dModel s;
     sortOption := v;
     currentPage := currentPage s |}.

Definition handlePageChange (page : Z) (s : State) : State :=
  {| searchQuery := searchQuery s;
     cultures := cultures s;
     materials := materials s;
     dateRange := dateRange s;
     has3dModel := has3dModel s;
     sortOption := sortOption s;
     currentPage := Num page |}.

Definition applyFilters (s : State) : State :=
  {| searchQuery := searchQuery s;
     cultures := cultures s;
     materials := materials s;
     dateRange := dateRange s;
     has3dModel := has3dModel s;
     sortOption := sortOption s;
     currentPage := Num 1 |}.

Definition resetFilters (_ : State) : State := defaultState.

Inductive FilterType : Type :=
| FCulture | FMaterial | FDateRange | FHas3dModel.

Definition removeFilter (type : FilterType) (value : string) (s : State)
    : State :=
  match type with
  | FCulture =>
      {| searchQuery := searchQuery s;
         cultures := without value (cultures s);
         materials := materials s;
         dateRange := dateRange s;
         has3dModel := has3dModel s;
         sortOption := sortOption s;
         currentPage := currentPage s |}
  | FMaterial =>
      {| searchQuery := searchQuery s;
         cultures := cultures s;
         materials := without value (materials s);
         dateRange := dateRange s;
         has3dModel := has3dModel s;
         sortOption := sortOption s;
         currentPage := currentPage s |}
  | FDateRange => setDateRange (Num (-3000), Num 2000) s
  | FHas3dModel => setHas3dModel false s
  end.

(** The values of the four [<option>]s of the sort [<select>]. *)
Definition sort_options : list string :=
  ["relevance"; "date_asc"; "date_desc"; "az"].

(** The states of the page: the one it starts in, hydrated from whatever
    the address bar holds, and those the controls produce from there.
    [ok] says which facet values the checkboxes offer (they come from
    [/api/cultures] and [/api/materials]); the slider stays within its
    [min] and [max], and the pagination control only offers pages from 1
    upwards. *)
Inductive reachable (ok : string -> Prop) : State -> Prop :=
| reach_hydrate location_search : reachable ok (hydrate location_search)
| reach_default : reachable ok defaultState
| reach_toggleCulture s v :
    reachable ok s -> ok v -> reachable ok (toggleCulture v s)
| reach_toggleMaterial s v :
    reachable ok s -> ok v -> reachable ok (toggleMaterial v s)
| reach_slider s v :
    reachable ok s -> -3000 <= v <= 2000 ->
    reachable ok (handleSliderChange v s)
| reach_flag s :
    reachable ok s -> reachable ok (setHas3dModel (negb (has3dModel s)) s)
| reach_sort s v :
    reachable ok s -> In v sort_options -> reachable ok (setSortOption v s)
| reach_page s p :
    reachable ok s -> 1 <= p -> reachable ok (handlePageChange p s)
| reach_apply s :
    reachable ok s -> reachable ok (applyFilters s)
| reach_reset s :
    reachable ok s -> reachable ok (resetFilters s)
| reach_remove s ty v :
    reachable ok s -> reachable ok (removeFilter ty v s).

(** A facet value that survives [join(",")] followed by [split(",")] and
    [filter(Boolean)]: not empty and free of commas. *)
Definition facet_token (v : string) : Prop :=
  v <> "" /\ contains_char "," v = false.

(** States whose facet values survive the comma-joined form and whose sort
    option is not the empty string. *)
Definition well_formed (s : State) : Prop :=
  Forall facet_token (cultures s)
  /\ Forall facet_token (materials s)
  /\ sortOption s <> "".

(** The normal form the specification compares against: out-of-range values
    clamped (a page below 1, or [NaN], becomes 1).  Empty facet lists and
    default values are already what an absent parameter parses to. *)
Definition normalize (s : State) : State :=
  {| searchQuery := searchQuery s;
     cultures := cultures s;
     materials := materials s;
     dateRange := dateRange s;
     has3dModel := has3dModel s;
     sortOption := sortOption s;
     currentPage :=
       match currentPage s with
       | Num p => Num (Z.max 1 p)
       | NaN => Num 1
       end |}.

End HomePage.

(* ===================================================================== *)
(** * [client/src/lib/api.ts] *)
(* ===================================================================== *)

Module Api.
Import JS.

(** A facet parameter: [string[] | string]. *)
Inductive strs : Type :=
| One (s : string)
| Many (l : list string).

(** [Partial<ArtifactSearchParams>]; [None] is [undefined]. *)
Record SearchParams : Type := mkSearchParams {
  query : option string;
  cultures : option strs;
  materials : option strs;
  dateStart : option number;
  dateEnd : option number;
  tags : option strs;
  site : option string;
  has3dModel : option bool;
  page : option number;
  limit : option number;
  sort : option string
}.

Definition empty : SearchParams :=
  mkSearchParams None None None None None None None None None None None.

Definition append_opt (name : string) (v : option string)
    (p : URLSearchParams.t) : URLSearchParams.t :=
  match v with
  | Some s => URLSearchParams.append name s p
  | None => p
  end.

(** [if (x) append(name, Array.isArray(x) ? x.join(",") : x)] *)
Definition facet_value (x : option strs) : option string :=
  match x with
  | Some (Many l) => Some (join "," l)
  | Some (One s) => if truthy s then Some s else None
  | None => None
  end.

Definition truthy_opt (x : option string) : option string :=
  match x with
  | Some s => if truthy s then Some s else None
  | None => None
  end.

Definition bool_toString (b : bool) : string :=
  if b then "true" else "false".

Definition buildSearchQueryString (params : SearchParams) : string :=
  let p := [] in
  let p := append_opt "query" (truthy_opt (query params)) p in
  let p := append_opt "cultures" (facet_value (cultures params)) p in
  let p := append_opt "materials" (facet_value (materials params)) p in
  let p := append_opt "dateStart" (option_map toString (dateStart params)) p in
  let p := append_opt "dateEnd" (option_map toString (dateEnd params)) p in
  let p := append_opt "tags" (facet_value (tags params)) p in
  let p := append_opt "site" (truthy_opt (site params)) p in
  let p := append_opt "has3dModel"
             (option_map bool_toString (has3dModel params)) p in
  let p := append_opt "page" (option_map toString (page params)) p in
  let p := append_opt "limit" (option_map toString (limit params)) p in
  let p := append_opt "sort" (sort params) p in
  URLSearchParams.to_string p.

(** [v ? v.split(",") : undefined] *)
Definition parse_facet (v : option string) : option strs :=
  match v with
  | Some s => if truthy s then Some (Many (split_on "," s)) else None
  | None => None
  end.

Definition parse_number (v : option string) : option number :=
  match v with
  | Some s => if truthy s then Some (parseInt s) else None
  | None => None
  end.

(** [if (params.has(name)) result.name = f(params.get(name))] *)
Definition when_present {A : Type} (params : URLSearchParams.t)
    (name : string) (f : option string -> option A) : option A :=
  if URLSearchParams.has name params
  then f (URLSearchParams.get name params)
  else None.

Definition parseSearchParams (search : string) : SearchParams :=
  let params := URLSearchParams.parse search in
  {| query := when_present params "query" truthy_opt;
     cultures := when_present params "cultures" parse_facet;
     materials := when_present params "materials" parse_facet;
     dateStart := when_present params "dateStart" parse_number;
     dateEnd := when_present params "dateEnd" parse_number;
     tags := when_present params "tags" parse_facet;
     site := when_present params "site" truthy_opt;
     has3dModel :=
       when_present params "has3dModel"
         (option_map (fun v => String.eqb v "true"));
     page := when_present params "page" parse_number;
     limit := when_present params "limit" parse_number;
     sort := when_present params "sort" truthy_opt |}.

(** The members of a parsed facet. *)
Definition members (x : option strs) : list string :=
  match x with
  | Some (Many l) => l
  | Some (One s) => [s]
  | None => []
  end.

End Api.

(* ===================================================================== *)
(** * [client/src/components/pagination.tsx] *)
(* ===================================================================== *)

Module PaginationView.

(** An entry of [pages]: a page number, or [null] for an ellipsis. *)
Definition entry : Type := option Z.

(** [for (let i = a; i <= b; i++) pageNumbers.push(i)] *)
Fixpoint count_up (n : nat) (i : Z) : list entry :=
  match n with
  | O => []
  | S n' => Some i :: count_up n' (i + 1)
  end.

Definition push_range (a b : Z) : list entry :=
  count_up (Z.to_nat (b - a + 1)) a.

Definition generatePages (currentPage totalPages : Z) : list entry :=
  if totalPages <=? 7 then push_range 1 totalPages
  else
    let start := Z.max 2 (currentPage - 1) in
    let end_ := Z.min (totalPages - 1) (currentPage + 1) in
    let end_ := if start =? 2 then Z.min (totalPages - 1) (start + 2)
                else end_ in
    let start := if end_ =? totalPages - 1 then Z.max 2 (end_ - 2)
                 else start in
    ([Some 1]
     ++ (if 2 <? start then [None] else [])
     ++ push_range start end_
     ++ (if end_ <? totalPages - 1 then [None] else [])
     ++ [Some totalPages])%list.

(** What the component renders once the effect has run: [None] for the
    early [return null], otherwise the entries between the Previous and
    Next buttons. *)
Definition Pagination (currentPage totalPages : Z) : option (list entry) :=
  if totalPages <=? 1 then None
  else Some (generatePages currentPage totalPages).

(** The page numbers of a sequence, ellipses dropped. *)
Fixpoint numbers (l : list entry) : list Z :=
  match l with
  | [] => []
  | Some p :: r => p :: numbers r
  | None :: r => numbers r
  end.

(** No two ellipses side by side. *)
Fixpoint single_ellipses (l : list entry) : bool :=
  match l with
  | None :: ((None :: _) as r) => false
  | _ :: r => single_ellipses r
  | [] => true
  end.

End PaginationView.

(* ===================================================================== *)
(** * [shared/schema.ts] *)
(* ===================================================================== *)

Module Schema.
Import JS.

(** A row of the [artifacts] table ([numeric] and [timestamp] columns are
    kept as text). *)
Module Artifact.
Record t : Type := mk {
  id : Z;
  title : string;
  description : string;
  culture : option string;
  period : option string;
  date_start : option Z;
  date_end : option Z;
  materials : option (list string);
  dimensions : option string;
  provenance : option string;
  id_number : string;
  findspot_lat : option string;
  findspot_lng : option string;
  site : option string;
  has_3d_model : option bool;
  model_url : option string;
  model_type : option string;
  created_at : option string
}.
End Artifact.

(** A row of the [artifact_images] table. *)
Module ArtifactImage.
Record t : Type := mk {
  id : Z;
  artifact_id : Z;
  url : string;
  caption : option string;
  is_primary : option bool;
  sort_order : option Z
}.
End ArtifactImage.

(** [artifactESSchema]: a document of the search index. *)
Module ArtifactES.
Record t : Type := mk {
  id : Z;
  title : string;
  description : string;
  culture : option string;
  period : option string;
  date_start : option Z;
  date_end : option Z;
  materials : option (list string);
  id_number : string;
  image_urls : option (list string);
  primary_image_url : option string;
  has_3d_model : option bool;
  model_url : option string;
  model_type : option string;
  tags : option (list string);
  location : option (option string * option string);
  site : option string
}.
End ArtifactES.

(** [z.enum(['relevance', 'date_asc', 'date_desc', 'az'])] *)
Inductive SortMode : Type :=
| relevance | date_asc | date_desc | az.

Definition sort_of_string (s : string) : option SortMode :=
  if String.eqb s "relevance" then Some relevance
  else if String.eqb s "date_asc" then Some date_asc
  else if String.eqb s "date_desc" then Some date_desc
  else if String.eqb s "az" then Some az
  else None.

(** [z.infer<typeof artifactSearchParamsSchema>]: validated parameters. *)
Record ArtifactSearchParams : Type := mkParams {
  query : option string;
  cultures : option Api.strs;
  materials : option Api.strs;
  dateStart : option Z;
  dateEnd : option Z;
  tags : option Api.strs;
  site : option string;
  has3dModel : option bool;
  page : Z;
  limit : Z;
  sort : SortMode
}.

(** A value of [req.query] as the [qs] parser builds it: a string, an array
    (repeated parameter) or a nested object. *)
#[warnings="-register-all"]
Inductive qval : Type :=
| QStr (s : string)
| QArr (l : list qval)
| QObj.

(** [String(v)] *)
Fixpoint qval_toString (v : qval) : string :=
  match v with
  | QStr s => s
  | QArr l => join "," (map qval_toString l)
  | QObj => "[object Object]"
  end.

(** Truthiness of [req.query.name]; [None] is [undefined]. *)
Definition qtruthy (v : option qval) : bool :=
  match v with
  | Some (QStr s) => truthy s
  | Some _ => true
  | None => false
  end.

(** The object handed to [artifactSearchParamsSchema.parse]. *)
Module Raw.
Record t : Type := mk {
  query : option qval;
  cultures : option qval;
  materials : option qval;
  dateStart : option number;
  dateEnd : option number;
  tags : option qval;
  site : option qval;
  has3dModel : bool;
  page : number;
  limit : number;
  sort : qval
}.
End Raw.

(** A [ZodIssue]: its code and the path of the offending field. *)
Record ZodIssue : Type := mkIssue {
  code : string;
  path : list string
}.

Definition checked (A : Type) : Type := (ZodIssue + A)%type.

(** [z.string().optional()] *)
Definition check_string (field : string) (v : option qval)
    : checked (option string) :=
  match v with
  | None => inr None
  | Some (QStr s) => inr (Some s)
  | Some _ => inl (mkIssue "invalid_type" [field])
  end.

Fixpoint all_strings (l : list qval) : option (list string) :=
  match l with
  | [] => Some []
  | QStr s :: r =>
      match all_strings r with
      | Some ss => Some (s :: ss)
      | None => None
      end
  | _ :: _ => None
  end.

(** [z.array(z.string()).or(z.string()).optional()] *)
Definition check_strs (field : string) (v : option qval)
    : checked (option Api.strs) :=
  match v with
  | None => inr None
  | Some (QStr s) => inr (Some (Api.One s))
  | Some (QArr l) =>
      match all_strings l with
      | Some ss => inr (Some (Api.Many ss))
      | None => inl (mkIssue "invalid_union" [field])
      end
  | Some QObj => inl (mkIssue "invalid_union" [field])
  end.

(** [z.number().optional()]: [NaN] is not a number for zod. *)
Definition check_number_opt (field : string) (v : option number)
    : checked (option Z) :=
  match v with
  | None => inr None
  | Some (Num z) => inr (Some z)
  | Some NaN => inl (mkIssue "invalid_type" [field])
  end.

(** [z.number().optional().default(d)] on a value that is always given. *)
Definition check_number (field : string) (v : number) : checked Z :=
  match v with
  | Num z => inr z
  | NaN => inl (mkIssue "invalid_type" [field])
  end.

(** [z.enum([...]).optional().default('relevance')] on a given value. *)
Definition check_sort (v : qval) : checked SortMode :=
  match v with
  | QStr s =>
      match sort_of_string s with
      | Some m => inr m
      | None => inl (mkIssue "invalid_enum_value" ["sort"])
      end
  | _ => inl (mkIssue "invalid_type" ["sort"])
  end.

Definition issue_of {A : Type} (c : checked A) : list ZodIssue :=
  match c with
  | inl i => [i]
  | inr _ => []
  end.

(** [artifactSearchParamsSchema.parse]: the validated parameters, or the
    issues of every failing field, in the order of the schema's keys (the
    [ZodError] the handler catches). *)
Definition parse (raw : Raw.t) : list ZodIssue + ArtifactSearchParams :=
  let c_query := check_string "query" (Raw.query raw) in
  let c_cultures := check_strs "cultures" (Raw.cultures raw) in
  let c_materials := check_strs "materials" (Raw.materials raw) in
  let c_dateStart := check_number_opt "dateStart" (Raw.dateStart raw) in
  let c_dateEnd := check_number_opt "dateEnd" (Raw.dateEnd raw) in
  let c_tags := check_strs "tags" (Raw.tags raw) in
  let c_site := check_string "site" (Raw.site raw) in
  let c_page := check_number "page" (Raw.page raw) in
  let c_limit := check_number "limit" (Raw.limit raw) in
  let c_sort := check_sort (Raw.sort raw) in
  match c_query, c_cultures, c_materials, c_dateStart, c_dateEnd,
        c_tags, c_site, c_page, c_limit, c_sort with
  | inr q, inr c, inr m, inr ds, inr de, inr t, inr s, inr p, inr l, inr so =>
      inr {| query := q; cultures := c; materials := m;
             dateStart := ds; dateEnd := de; tags := t; site := s;
             has3dModel := Some (Raw.has3dModel raw);
             page := p; limit := l; sort := so |}
  | _, _, _, _, _, _, _, _, _, _ =>
      inl (issue_of c_query ++ issue_of c_cultures ++ issue_of c_materials
           ++ issue_of c_dateStart ++ issue_of c_dateEnd ++ issue_of c_tags
           ++ issue_of c_site ++ issue_of c_page ++ issue_of c_limit
           ++ issue_of c_sort)%list
  end.

End Schema.

(* ===================================================================== *)
(** * [server/storage.ts] *)
(* ===================================================================== *)

Module Storage.
Import Schema.

(** The two tables the search reads. *)
Record Database : Type := mkDatabase {
  artifacts : list Artifact.t;
  artifactImages : list ArtifactImage.t
}.

Inductive Direction : Type := asc | desc.

(** The columns the search orders by. *)
Inductive Column : Type := col_id | col_title | col_date_start.

Definition column_name (c : Column) : string :=
  match c with
  | col_id => "id"
  | col_title => "title"
  | col_date_start => "date_start"
  end.

(** Ascending order of an integer column; [NULL] sorts last. *)
Definition opt_leb (a b : option Z) : bool :=
  match a, b with
  | Some x, Some y => x <=? y
  | Some _, None => true
  | None, Some _ => false
  | None, None => true
  end.

Definition column_leb (c : Column) (a b : Artifact.t) : bool :=
  match c with
  | col_id => Artifact.id a <=? Artifact.id b
  | col_title => String.leb (Artifact.title a) (Artifact.title b)
  | col_date_start =>
      opt_leb (Artifact.date_start a) (Artifact.date_start b)
  end.

(** [ORDER BY]: a stable insertion sort; rows with equal keys keep the
    order of the table. *)
Section Sort.
Context {A : Type} (leb : A -> A -> bool).

Fixpoint insert (x : A) (l : list A) : list A :=
  match l with
  | [] => [x]
  | y :: r => if leb x y then x :: l else y :: insert x r
  end.

Fixpoint order_by (l : list A) : list A :=
  match l with
  | [] => []
  | x :: r => insert x (order_by r)
  end.

End Sort.

(** The reverse of an order, for [desc]. *)
Definition flip_leb {A : Type} (leb : A -> A -> bool) (a b : A) : bool :=
  leb b a.

(** The options of [listArtifacts]. *)
Module ListOptions.
Record t : Type := mk {
  limit : Z;
  offset : Z;
  sortBy : Column;
  sortDir : Direction
}.
End ListOptions.

(** The largest [bigint], the type of [LIMIT] and [OFFSET]. *)
Definition int8_max : Z := 9223372036854775807.

(** [listArtifacts]: order, then [LIMIT] and [OFFSET].  The query builder
    writes [LIMIT] only for a limit from 0 upwards, so a negative limit
    bounds nothing, and [OFFSET] only for an offset other than 0.  The
    database refuses a negative [OFFSET] and a [LIMIT] or [OFFSET] above
    [int8_max]; the promise is then rejected ([None]). *)
Definition listArtifacts (db : Database) (options : ListOptions.t)
    : option (list Artifact.t) :=
  let limit := ListOptions.limit options in
  let offset := ListOptions.offset options in
  let sortBy := ListOptions.sortBy options in
  if (offset <? 0) || (int8_max <? offset) || (int8_max <? limit) then None
  else
    let ordered :=
      match ListOptions.sortDir options with
      | asc => order_by (column_leb sortBy) (artifacts db)
      | desc => order_by (flip_leb (column_leb sortBy)) (artifacts db)
      end in
    let rows := skipn (Z.to_nat offset) ordered in
    Some (if limit <? 0 then rows else firstn (Z.to_nat limit) rows).

(** [getArtifactImages]: the images of one artifact by ascending
    [sort_order].  Where it is called here [artifactId] is the id of a
    stored row, or a number [getArtifact] has accepted. *)
Definition getArtifactImages (db : Database) (artifactId : Z)
    : list ArtifactImage.t :=
  order_by (fun a b => opt_leb (ArtifactImage.sort_order a)
                               (ArtifactImage.sort_order b))
           (List.filter
              (fun i => ArtifactImage.artifact_id i =? artifactId)
              (artifactImages db)).

End Storage.

(* ===================================================================== *)
(** * [client/src/pages/artifact-detail-page.tsx] *)
(* ===================================================================== *)

Module DetailPage.
Import Schema.

(** [images.find(img => img.is_primary) || images[0]] *)
Definition primaryImage (images : list ArtifactImage.t)
    : option ArtifactImage.t :=
  match find (fun img => match ArtifactImage.is_primary img with
                         | Some b => b
                         | None => false
                         end) images with
  | Some img => Some img
  | None => hd_error images
  end.

End DetailPage.

(* ===================================================================== *)
(** * [server/routes.ts]: [/api/search] *)
(* ===================================================================== *)

Module Routes.
Import JS Schema Storage.

(** ** The query description sent to the search engine *)

Record RangeBounds : Type := mkBounds {
  gte : option Z;
  lte : option Z
}.

Inductive MustClause : Type :=
| multi_match (query : string) (fields : list string) (fuzziness : string).

Inductive FilterClause : Type :=
| terms (field : string) (values : list string)
| term (field : string) (value : string)
| term_bool (field : string) (value : bool)
  (** [{ range: { date_start: b1, date_end: b2 } }]; [date_end] is only
      present when an end year was given. *)
| range (date_start_b : RangeBounds) (date_end_b : option RangeBounds).

Record BoolQuery : Type := mkBoolQuery {
  must : list MustClause;
  filter : list FilterClause
}.

(** [{ field: { order } }] *)
Record SortClause : Type := mkSort {
  sort_field : string;
  order : Direction
}.

(** What [buildElasticsearchQuery] returns: [{ query: { bool }, sort }]. *)
Module EsBody.
Record t : Type := mk {
  query : BoolQuery;
  sort : option (list SortClause)   (* [None] is [undefined] *)
}.
End EsBody.

Definition push_if {A : Type} (cond : bool) (x : A) (l : list A) : list A :=
  if cond then (l ++ [x])%list else l.

(** [Array.isArray(x) ? x : [x]] under the guard [if (x)]. *)
Definition facet_values (x : option Api.strs) : option (list string) :=
  match x with
  | Some (Api.Many l) => Some l
  | Some (Api.One s) => if truthy s then Some [s] else None
  | None => None
  end.

Definition push_terms (field : string) (x : option Api.strs)
    (l : list FilterClause) : list FilterClause :=
  match facet_values x with
  | Some vs => push_if (0 <? Z.of_nat (List.length vs)) (terms field vs) l
  | None => l
  end.

Definition is_defined {A : Type} (x : option A) : bool :=
  match x with
  | Some _ => true
  | None => false
  end.

Definition opt_truthy (x : option string) : bool :=
  match x with
  | Some s => truthy s
  | None => false
  end.

Definition opt_true (x : option bool) : bool :=
  match x with
  | Some b => b
  | None => false
  end.

Definition text (x : option string) : string :=
  match x with
  | Some s => s
  | None => ""
  end.

Definition search_fields : list string :=
  ["title^3"; "description^2"; "culture"; "period"; "materials"; "site";
   "tags"].

Definition buildElasticsearchQuery (params : ArtifactSearchParams)
    : EsBody.t :=
  (* Full-text search *)
  let must := [] in
  let must := push_if (opt_truthy (query params))
                (multi_match (text (query params)) search_fields "AUTO")
                must in
  (* Filters *)
  let filter := [] in
  let filter := push_terms "culture" (cultures params) filter in
  let filter := push_terms "materials" (materials params) filter in
  let filter := push_terms "tags" (tags params) filter in
  let filter := push_if (opt_truthy (site params))
                  (term "site" (text (site params))) filter in
  let filter := push_if (opt_true (has3dModel params))
                  (term_bool "has_3d_model" true) filter in
  (* Date range filter *)
  let filter :=
    push_if (is_defined (dateStart params) || is_defined (dateEnd params))
      (range (mkBounds (dateStart params) None)
             (match dateEnd params with
              | Some e => Some (mkBounds None (Some e))
              | None => None
              end))
      filter in
  (* Sort *)
  let sort_clauses :=
    match sort params with
    | date_asc => [mkSort "date_start" asc]
    | date_desc => [mkSort "date_start" desc]
    | az => [mkSort "title" asc]
    | relevance =>
        if opt_truthy (query params) then [] else [mkSort "id" desc]
    end in
  {| EsBody.query := {| must := must; filter := filter |};
     EsBody.sort :=
       if 0 <? Z.of_nat (List.length sort_clauses) then Some sort_clauses
       else None |}.

Definition getSortFieldFromSearchParams (sort : SortMode) : Column :=
  match sort with
  | date_asc | date_desc => col_date_start
  | az => col_title
  | relevance => col_id
  end.

Definition getSortDirectionFromSearchParams (sort : SortMode) : Direction :=
  match sort with
  | date_asc | az => asc
  | date_desc | relevance => desc
  end.

(** ** The search engine *)

Record EsRequest : Type := mkEsRequest {
  index : string;
  from : Z;
  size : Z;
  body : EsBody.t
}.

(** [body.hits.hits.map(hit => hit._source)] and [body.hits.total.value]. *)
Record EsResult : Type := mkEsResult {
  hits : list ArtifactES.t;
  total_value : Z
}.

(** The client answers a request or throws ([None]). *)
Definition EsClient : Type := EsRequest -> option EsResult.

(** ** The response *)

(** [Math.ceil(a / b)] on integers. *)
Inductive quotient : Type :=
| Finite (z : Z)
| Infinity (negative : bool)
| NotANumber.

Definition ceil_div (a b : Z) : quotient :=
  if b =? 0 then
    if a =? 0 then NotANumber else Infinity (a <? 0)
  else Finite (- ((- a) / b)).

(** The [pagination] block of a response. *)
Module Pagination.
Record t : Type := mk {
  page : Z;
  limit : Z;
  total : Z;
  totalPages : quotient
}.
End Pagination.

Inductive Row : Type :=
| row_db (a : Artifact.t)
| row_es (d : ArtifactES.t).

Definition row_id (r : Row) : Z :=
  match r with
  | row_db a => Artifact.id a
  | row_es d => ArtifactES.id d
  end.

(** [{ ...art, image_urls, primary_image_url }]; [images] is [None] for a
    row sent as it is. *)
Record Images : Type := mkImages {
  image_urls : list string;
  primary_image_url : option string
}.

Record Item : Type := mkItem {
  row : Row;
  images : option Images
}.

(** The values of the keys of a response body. *)
Inductive Field : Type :=
| f_artifacts (items : list Item)
| f_pagination (p : Pagination.t)
| f_message (s : string)
| f_errors (issues : list ZodIssue).

(** A JSON object: its keys in order, each with its value. *)
Definition Body : Type := list (string * Field).

Inductive Response : Type :=
| json (status : Z) (b : Body)
| next_err.       (* [next(err)]: left to the error middleware *)

(** A call made to one of the two backends. *)
Inductive BackendCall : Type :=
| es_search (req : EsRequest)
| db_listArtifacts (options : ListOptions.t)
| db_getArtifactImages (artifactId : Z).

Record Outcome : Type := mkOutcome {
  calls : list BackendCall;
  response : Response
}.

(** The two revisions of the handler: [server/routes.ts] sends the rows as
    they are, the later one adds the image URLs to each row. *)
Inductive Revision : Type := plain | enriching.

(** [urls[0] || null] *)
Definition first_or_null (urls : list string) : option string :=
  match urls with
  | u :: _ => if truthy u then Some u else None
  | [] => None
  end.

Definition enrich (db : Database) (r : Row) : Item :=
  let imgs := getArtifactImages db (row_id r) in
  let urls := map ArtifactImage.url imgs in
  {| row := r;
     images := Some {| image_urls := urls;
                       primary_image_url := first_or_null urls |} |}.

Definition items_of (rev : Revision) (db : Database) (rows : list Row)
    : list Item :=
  match rev with
  | plain => map (fun r => mkItem r None) rows
  | enriching => map (enrich db) rows
  end.

Definition image_calls (rev : Revision) (rows : list Row)
    : list BackendCall :=
  match rev with
  | plain => []
  | enriching => map (fun r => db_getArtifactImages (row_id r)) rows
  end.

Definition lookup (name : string) (q : list (string * qval)) : option qval :=
  match find (fun kv => String.eqb (fst kv) name) q with
  | Some kv => Some (snd kv)
  | None => None
  end.

(** [req.query.name ? parseInt(req.query.name) : undefined] *)
Definition int_param (v : option qval) : option number :=
  match v with
  | Some x => if qtruthy v then Some (parseInt (qval_toString x)) else None
  | None => None
  end.

Definition with_default {A : Type} (x : option A) (d : A) : A :=
  match x with
  | Some a => a
  | None => d
  end.

(** The object literal the handler validates. *)
Definition raw_params (q : list (string * qval)) : Raw.t :=
  {| Raw.query := lookup "query" q;
     Raw.cultures := lookup "cultures" q;
     Raw.materials := lookup "materials" q;
     Raw.dateStart := int_param (lookup "dateStart" q);
     Raw.dateEnd := int_param (lookup "dateEnd" q);
     Raw.tags := lookup "tags" q;
     Raw.site := lookup "site" q;
     Raw.has3dModel :=
       match lookup "has3dModel" q with
       | Some (QStr s) => String.eqb s "true"
       | _ => false
       end;
     Raw.page := with_default (int_param (lookup "page" q)) (Num 1);
     Raw.limit := with_default (int_param (lookup "limit" q)) (Num 12);
     Raw.sort :=
       match lookup "sort" q with
       | Some v => if qtruthy (Some v) then v else QStr "relevance"
       | None => QStr "relevance"
       end |}.

Definition fallback_options (p : ArtifactSearchParams) : ListOptions.t :=
  {| ListOptions.limit := limit p;
     ListOptions.offset := (page p - 1) * limit p;
     ListOptions.sortBy := getSortFieldFromSearchParams (sort p);
     ListOptions.sortDir := getSortDirectionFromSearchParams (sort p) |}.

Definition engine_request (p : ArtifactSearchParams) : EsRequest :=
  {| index := "artifacts";
     from := (page p - 1) * limit p;
     size := limit p;
     body := buildElasticsearchQuery p |}.

Definition len {A : Type} (l : list A) : Z := Z.of_nat (List.length l).

(** [GET /api/search]: [esClient] is [None] when no engine is configured. *)
Definition search (rev : Revision) (esClient : option EsClient)
    (db : Database) (q : list (string * qval)) : Outcome :=
  match Schema.parse (raw_params q) with
  | inl issues =>
      {| calls := [];
         response :=
           json 400 [("message", f_message "Invalid search parameters");
                     ("errors", f_errors issues)] |}
  | inr searchParams =>
      match esClient with
      | Some client =>
          let req := engine_request searchParams in
          match client req with
          | None => {| calls := [es_search req]; response := next_err |}
          | Some res =>
              let rows := map row_es (hits res) in
              let total := total_value res in
              {| calls := es_search req :: image_calls rev rows;
                 response :=
                   json 200
                     [("artifacts", f_artifacts (items_of rev db rows));
                      ("pagination",
                       f_pagination
                         {| Pagination.page := page searchParams;
                            Pagination.limit := limit searchParams;
                            Pagination.total := total;
                            Pagination.totalPages :=
                              ceil_div total (limit searchParams) |})] |}
          end
      | None =>
          let o := fallback_options searchParams in
          match listArtifacts db o with
          | None => {| calls := [db_listArtifacts o]; response := next_err |}
          | Some base =>
              let rows := map row_db base in
              let artifacts := items_of rev db rows in
              {| calls := db_listArtifacts o :: image_calls rev rows;
                 response :=
                   json 200
                     [("artifacts", f_artifacts artifacts);
                      ("pagination",
                       f_pagination
                         {| Pagination.page := page searchParams;
                            Pagination.limit := limit searchParams;
                            Pagination.total := len artifacts;
                            Pagination.totalPages :=
                              ceil_div (len artifacts)
                                       (limit searchParams) |})] |}
          end
      end
  end.

(** ** Reading a response *)

Definition field (name : string) (b : Body) : option Field :=
  match find (fun kv => String.eqb (fst kv) name) b with
  | Some kv => Some (snd kv)
  | None => None
  end.


Definition response_pagination (r : Response) : option Pagination.t :=
  match r with
  | json _ b =>
      match field "pagination" b with
      | Some (f_pagination p) => Some p
      | _ => None
      end
  | next_err => None
  end.

Definition response_items (r : Response) : option (list Item) :=
  match r with
  | json _ b =>
      match field "artifacts" b with
      | Some (f_artifacts l) => Some l
      | _ => None
      end
  | next_err => None
  end.

(** The number of rows of the store a fallback search matches: the fallback
    applies no filter, so every row of [artifacts] matches. *)
Definition matching_rows (db : Database) : Z := len (artifacts db).


(** The sort keys of the two compiled queries, primary key first. *)
Definition engine_sort_keys (p : ArtifactSearchParams) : list SortClause :=
  with_default (EsBody.sort (buildElasticsearchQuery p)) [].

Definition fallback_sort_keys (p : ArtifactSearchParams) : list SortClause :=
  let o := fallback_options p in
  [mkSort (column_name (ListOptions.sortBy o)) (ListOptions.sortDir o)].

(** The key a tie-break on the identifier would add. *)
Definition id_ascending : SortClause := mkSort "id" asc.

(** The values [sort] is documented to take, as query values. *)
Definition valid_sort (v : qval) : Prop :=
  v = QStr "relevance" \/ v = QStr "date_asc"
  \/ v = QStr "date_desc" \/ v = QStr "az".

End Routes.

(* ===================================================================== *)
(** * Sample data *)
(* ===================================================================== *)

Module Samples.
Import Schema Storage.

Definition artifact (i : Z) (name : string) (start : option Z)
    : Artifact.t :=
  {| Artifact.id := i; Artifact.title := name; Artifact.description := "";
     Artifact.culture := None; Artifact.period := None;
     Artifact.date_start := start; Artifact.date_end := None;
     Artifact.materials := None; Artifact.dimensions := None;
     Artifact.provenance := None;
     Artifact.id_number := JS.int_toString i;
     Artifact.findspot_lat := None; Artifact.findspot_lng := None;
     Artifact.site := None;
     Artifact.has_3d_model := Some false; Artifact.model_url := None;
     Artifact.model_type := None; Artifact.created_at := None |}.

Definition image (i a : Z) (u : string) (primary : bool) (pos : Z)
    : ArtifactImage.t :=
  {| ArtifactImage.id := i; ArtifactImage.artifact_id := a;
     ArtifactImage.url := u; ArtifactImage.caption := None;
     ArtifactImage.is_primary := Some primary;
     ArtifactImage.sort_order := Some pos |}.

(** Three artifacts. *)
Definition three_artifacts : list Artifact.t :=
  [artifact 1 "Amphora" (Some (-500));
   artifact 2 "Bronze axe" (Some (-500));
   artifact 3 "Coin" (Some 120)].

(** One artifact with three images, stored out of order; the second by
    [sort_order] is the primary one. *)
Definition gallery : Database :=
  {| artifacts := [artifact 1 "Amphora" (Some (-500))];
     artifactImages :=
       [image 12 1 "/img/c.jpg" false 2;
        image 10 1 "/img/a.jpg" false 0;
        image 11 1 "/img/b.jpg" true 1] |}.

Definition store : Database :=
  {| artifacts := three_artifacts; artifactImages := [] |}.

(** Validated parameters for [query=axe&cultures=Roman&dateStart=-500&
    dateEnd=200&page=2]. *)
Definition scenario : ArtifactSearchParams :=
  {| query := Some "axe";
     cultures := Some (Api.One "Roman");
     materials := None;
     dateStart := Some (-500);
     dateEnd := Some 200;
     tags := None;
     site := None;
     has3dModel := Some false;
     page := 2;
     limit := 12;
     sort := relevance |}.


(** The same search ordered by date, oldest first. *)
Definition scenario_by_date : ArtifactSearchParams :=
  {| query := Some "axe";
     cultures := Some (Api.One "Roman");
     materials := None;
     dateStart := Some (-500);
     dateEnd := Some 200;
     tags := None;
     site := None;
     has3dModel := Some false;
     page := 2;
     limit := 12;
     sort := date_asc |}.

End Samples.

(* ===================================================================== *)
(** * [client/src/lib/api.ts]: date labels *)
(* ===================================================================== *)

Module ApiDates.
Import JS.

(** [formatDate]; [None] is [null] or [undefined]. *)
Definition formatDate (year : option Z) : string :=
  match year with
  | None => "Unknown"
  | Some y =>
      if y <? 0 then int_toString (Z.abs y) ++ " BCE"
      else if 0 <? y then int_toString y ++ " CE"
      else "0"
  end.

(** [!year]: a missing year and the year 0 are both falsy. *)
Definition falsy_year (year : option Z) : bool :=
  match year with
  | None => true
  | Some y => y =? 0
  end.

(** [period || d] *)
Definition period_or (period : option string) (d : string) : string :=
  or_default period d.

(** [period ? `${label} (${period})` : label] *)
Definition with_period (label : string) (period : option string) : string :=
  match period with
  | Some p => if truthy p then label ++ " (" ++ p ++ ")" else label
  | None => label
  end.

(** [startYear === endYear] once at least one of the two is truthy. *)
Definition same_year (startYear endYear : option Z) : bool :=
  match startYear, endYear with
  | Some a, Some b => a =? b
  | _, _ => false
  end.

Definition formatDateRange (startYear endYear : option Z)
    (period : option string) : string :=
  if falsy_year startYear && falsy_year endYear
  then period_or period "Unknown"
  else
    let formattedStart :=
      if falsy_year startYear then "?" else formatDate startYear in
    let formattedEnd :=
      if falsy_year endYear then "?" else formatDate endYear in
    if same_year startYear endYear then with_period formattedStart period
    else with_period (formattedStart ++ " - " ++ formattedEnd) period.

End ApiDates.

(* ===================================================================== *)
(** * [client/src/components/pagination.tsx]: the buttons *)
(* ===================================================================== *)

Module PaginationButtons.
Import PaginationView.

(** The page the Previous button asks for; [None] when it is disabled. *)
Definition previous (currentPage : Z) : option Z :=
  if currentPage =? 1 then None else Some (currentPage - 1).

(** The page the Next button asks for; [None] when it is disabled. *)
Definition next (currentPage totalPages : Z) : option Z :=
  if currentPage =? totalPages then None else Some (currentPage + 1).

Definition button (target : option Z) : list Z :=
  match target with
  | Some p => [p]
  | None => []
  end.

(** Every argument the rendered control can pass to [onPageChange]. *)
Definition requests (currentPage totalPages : Z) : list Z :=
  match Pagination currentPage totalPages with
  | None => []
  | Some pages =>
      (button (previous currentPage) ++ numbers pages
       ++ button (next currentPage totalPages))%list
  end.

End PaginationButtons.

(* ===================================================================== *)
(** * [client/src/components/image-gallery.tsx] *)
(* ===================================================================== *)

Module ImageGallery.
Import Schema Storage.

Definition flag (b : option bool) : bool :=
  match b with
  | Some x => x
  | None => false
  end.

(** A [sort_order] in a subtraction: [null] counts as 0. *)
Definition order_number (n : option Z) : Z :=
  match n with
  | Some z => z
  | None => 0
  end.

(** [img.is_primary] as a condition. *)
Definition primary (i : ArtifactImage.t) : bool :=
  flag (ArtifactImage.is_primary i).

(** The comparator handed to [sort]. *)
Definition compare (a b : ArtifactImage.t) : Z :=
  if flag (ArtifactImage.is_primary a)
     && negb (flag (ArtifactImage.is_primary b)) then -1
  else if negb (flag (ArtifactImage.is_primary a))
          && flag (ArtifactImage.is_primary b) then 1
  else order_number (ArtifactImage.sort_order a)
       - order_number (ArtifactImage.sort_order b).

(** [[...images].sort(compare)]: the sort is stable. *)
Definition sortedImages (images : list ArtifactImage.t)
    : list ArtifactImage.t :=
  order_by (fun a b => compare a b <=? 0) images.

(** [nextImage] and [prevImage] on the current index, [length] being
    [sortedImages.length]. *)
Definition nextImage (length prevIndex : Z) : Z :=
  if prevIndex =? length - 1 then 0 else prevIndex + 1.

Definition prevImage (length prevIndex : Z) : Z :=
  if prevIndex =? 0 then length - 1 else prevIndex - 1.

End ImageGallery.

(* ===================================================================== *)
(** * [client/src/components/search-bar.tsx] *)
(* ===================================================================== *)

Module SearchBar.
Import JS.

(** [URLSearchParams.prototype.set]: the first pair of that name takes the
    value and the others of that name go; without one the pair is
    appended. *)
Fixpoint remove_all (name : string) (p : URLSearchParams.t)
    : URLSearchParams.t :=
  match p with
  | [] => []
  | (k, v) :: rest =>
      if String.eqb k name then remove_all name rest
      else (k, v) :: remove_all name rest
  end.

Fixpoint set (name value : string) (p : URLSearchParams.t)
    : URLSearchParams.t :=
  match p with
  | [] => [(name, value)]
  | (k, v) :: rest =>
      if String.eqb k name then (name, value) :: remove_all name rest
      else (k, v) :: set name value rest
  end.


End SearchBar.

(* ===================================================================== *)
(** * [server/storage.ts]: single rows, writes and tags *)
(* ===================================================================== *)

Module StorageRows.
Import Schema Storage.

(** A row of the [tags] table. *)
Module Tag.
Record t : Type := mk {
  id : Z;
  name : string
}.
End Tag.

(** A row of the [artifact_tags] table. *)
Module ArtifactTag.
Record t : Type := mk {
  id : Z;
  artifact_id : Z;
  tag_id : Z
}.
End ArtifactTag.

(** The two tag tables. *)
Record TagTables : Type := mkTagTables {
  tags : list Tag.t;
  artifactTags : list ArtifactTag.t
}.

(** The values an [integer] column can be compared with; the database
    refuses a query that compares it with any other number, and the
    promise of the storage method is then rejected: the [None] of the
    three methods below. *)
Definition int4 (z : Z) : bool :=
  (-2147483648 <=? z) && (z <=? 2147483647).

(** [getArtifact]: the first row with that id, [undefined] without one. *)
Definition getArtifact (db : Database) (id : Z)
    : option (option Artifact.t) :=
  if negb (int4 id) then None
  else Some (find (fun a => Artifact.id a =? id) (artifacts db)).

(** [deleteArtifact]: the table without the rows of that id, and whether a
    row was deleted. *)
Definition deleteArtifact (db : Database) (id : Z)
    : option (Database * bool) :=
  if negb (int4 id) then None
  else
    let deleted :=
      List.filter (fun a => Artifact.id a =? id) (artifacts db) in
    Some ({| artifacts :=
               List.filter (fun a => negb (Artifact.id a =? id))
                           (artifacts db);
             artifactImages := artifactImages db |},
          match deleted with
          | _ :: _ => true
          | [] => false
          end).

(** [.set({ is_primary: b })] on one row. *)
Definition set_is_primary (b : bool) (i : ArtifactImage.t)
    : ArtifactImage.t :=
  {| ArtifactImage.id := ArtifactImage.id i;
     ArtifactImage.artifact_id := ArtifactImage.artifact_id i;
     ArtifactImage.url := ArtifactImage.url i;
     ArtifactImage.caption := ArtifactImage.caption i;
     ArtifactImage.is_primary := Some b;
     ArtifactImage.sort_order := ArtifactImage.sort_order i |}.

(** [UPDATE ... SET is_primary = b WHERE cond]. *)
Definition update_primary (cond : ArtifactImage.t -> bool) (b : bool)
    (images : list ArtifactImage.t) : list ArtifactImage.t :=
  map (fun i => if cond i then set_is_primary b i else i) images.

(** [setPrimaryImage]: the new tables and the updated row, [undefined]
    when no image has that id. *)
Definition setPrimaryImage (db : Database) (imageId : Z)
    : option (Database * option ArtifactImage.t) :=
  if negb (int4 imageId) then None
  else
    match find (fun i => ArtifactImage.id i =? imageId)
               (artifactImages db) with
    | None => Some (db, None)
    | Some image =>
        (* Reset primary status on all images for this artifact *)
        let reset :=
          update_primary
            (fun i => ArtifactImage.artifact_id i
                      =? ArtifactImage.artifact_id image)
            false (artifactImages db) in
        (* Set new primary image *)
        let updated :=
          update_primary (fun i => ArtifactImage.id i =? imageId) true
                         reset in
        Some ({| artifacts := artifacts db; artifactImages := updated |},
              find (fun i => ArtifactImage.id i =? imageId) updated)
    end.

(** [getTagsByArtifactId]: the tags joined to the artifact, by name. *)
Definition getTagsByArtifactId (t : TagTables) (artifactId : Z)
    : list Tag.t :=
  order_by (fun a b => String.leb (Tag.name a) (Tag.name b))
    (flat_map
       (fun tag =>
          map (fun _ => tag)
              (List.filter
                 (fun at_ => (ArtifactTag.tag_id at_ =? Tag.id tag)
                             && (ArtifactTag.artifact_id at_ =? artifactId))
                 (artifactTags t)))
       (tags t)).

End StorageRows.

(* ===================================================================== *)
(** * [server/routes.ts]: [GET /api/artifacts/:id] *)
(* ===================================================================== *)

Module ArtifactRoute.
Import JS Schema Storage StorageRows.

Inductive Reply : Type :=
| invalid_id           (* 400, "Invalid artifact ID" *)
| not_found            (* 404, "Artifact not found" *)
| found (artifact : Artifact.t) (images : list ArtifactImage.t)
        (tags : list Tag.t)    (* 200, [{ artifact, images, tags }] *)
| next_err.            (* [next(err)]: left to the error middleware *)

Definition getArtifactById (db : Database) (t : TagTables) (id : string)
    : Reply :=
  match parseInt id with
  | NaN => invalid_id
  | Num id =>
      match getArtifact db id with
      | None => next_err
      | Some None => not_found
      | Some (Some artifact) =>
          found artifact (getArtifactImages db id)
                (getTagsByArtifactId t id)
      end
  end.

End ArtifactRoute.

(* ===================================================================== *)
(** * Predicates used in the statements *)
(* ===================================================================== *)

Module Conditions.
Import JS.

(** The parameter names [HomePage] reads and writes. *)
Definition home_params : list string :=
  ["query"; "cultures"; "materials"; "dateStart"; "dateEnd"; "has3dModel";
   "sort"; "page"].

(** An integer that double precision holds exactly, and a number that
    is one. *)
Definition exact_int (z : Z) : Prop := Z.abs z < 2 ^ 53.

Definition exact (n : number) : Prop :=
  match n with
  | NaN => True
  | Num z => exact_int z
  end.

(** A facet as [parseSearchParams] produces it: absent, or an array of
    non-empty values free of commas, with at least one value, each
    well-formed UTF-8. *)
Definition parsed_facet (x : option Api.strs) : Prop :=
  match x with
  | None => True
  | Some (Api.Many l) =>
      l <> [] /\ Forall HomePage.facet_token l
      /\ Forall (fun v => UTF8.valid v = true) l
  | Some (Api.One _) => False
  end.

(** A text as [parseSearchParams] produces it: absent, or not empty and
    well-formed UTF-8. *)
Definition parsed_text (x : option string) : Prop :=
  match x with
  | None => True
  | Some s => s <> "" /\ UTF8.valid s = true
  end.

Definition exact_opt (x : option number) : Prop :=
  match x with
  | None => True
  | Some n => exact n
  end.

(** Parameters in the form [parseSearchParams] produces, with exact
    numbers. *)
Definition parsed (p : Api.SearchParams) : Prop :=
  parsed_text (Api.query p)
  /\ parsed_facet (Api.cultures p)
  /\ parsed_facet (Api.materials p)
  /\ parsed_facet (Api.tags p)
  /\ parsed_text (Api.site p)
  /\ parsed_text (Api.sort p)
  /\ exact_opt (Api.dateStart p)
  /\ exact_opt (Api.dateEnd p)
  /\ exact_opt (Api.page p)
  /\ exact_opt (Api.limit p).

(** ** Text in the address bar *)

Definition is_hex (c : ascii) : bool :=
  match hex_value c with
  | Some _ => true
  | None => false
  end.

(** [s] starts with what reads as a percent escape: [%] and two
    hexadecimal digits. *)
Definition starts_escape (s : string) : bool :=
  match s with
  | String c (String h (String l _)) =>
      (c =? "%")%char && is_hex h && is_hex l
  | _ => false
  end.

Fixpoint no_escape (s : string) : bool :=
  match s with
  | EmptyString => true
  | String _ r => negb (starts_escape s) && no_escape r
  end.

(** Text that comes back from the address bar: well-formed UTF-8 in which
    nothing reads as a percent escape. *)
Definition plain (s : string) : bool := UTF8.valid s && no_escape s.

(** A parameter list whose names and values are such text. *)
Definition plain_params (p : URLSearchParams.t) : Prop :=
  Forall (fun kv => plain (fst kv) = true /\ plain (snd kv) = true) p.

(** A state whose texts are such text and whose numbers are exact. *)
Definition plain_state (s : HomePage.State) : Prop :=
  plain (HomePage.searchQuery s) = true
  /\ Forall (fun v => plain v = true) (HomePage.cultures s)
  /\ Forall (fun v => plain v = true) (HomePage.materials s)
  /\ plain (HomePage.sortOption s) = true
  /\ exact (fst (HomePage.dateRange s))
  /\ exact (snd (HomePage.dateRange s))
  /\ exact (HomePage.currentPage s).

(** A page the pagination control can show: a number from 1 upwards. *)
Definition page_in_range (s : HomePage.State) : Prop :=
  exists p, HomePage.currentPage s = Num p /\ 1 <= p.

(** What [decodeURI] leaves of the form-urlencoded text of a byte: itself
    for a byte written as it is, [+] for a space, the escape for a
    reserved character, and otherwise the byte again. *)
Definition residue_byte (c : ascii) : string :=
  if URLSearchParams.unreserved c then String c ""
  else if (c =? " ")%char then "+"
  else if Wouter.uri_reserved c then URLSearchParams.encode_byte c
  else String c "".

Fixpoint residue (s : string) : string :=
  match s with
  | EmptyString => ""
  | String c r => residue_byte c ++ residue r
  end.

(** The order of two rows in a listing: by the column of the options,
    upwards or downwards. *)
Definition listed_before (o : Storage.ListOptions.t)
    (a b : Schema.Artifact.t) : Prop :=
  match Storage.ListOptions.sortDir o with
  | Storage.asc =>
      Storage.column_leb (Storage.ListOptions.sortBy o) a b = true
  | Storage.desc =>
      Storage.column_leb (Storage.ListOptions.sortBy o) b a = true
  end.

End Conditions.

(* ===================================================================== *)
(** * Properties *)
(* ===================================================================== *)

(** ** Strings and numbers *)

Section StringFacts.
Import JS.

Lemma split_on_clean (sep : ascii) (s : string) :
  contains_char sep s = false -> split_on sep s = [s].
Proof.
  induction s as [|c s IH]; simpl; [reflexivity|].
  destruct (c =? sep)%char; simpl; [discriminate|].
  intros H. now rewrite (IH H).
Qed.

Lemma split_on_app (sep : ascii) (s rest : string) :
  contains_char sep s = false ->
  split_on sep (s ++ String sep rest) = s :: split_on sep rest.
Proof.
  induction s as [|c s IH]; simpl.
  - now rewrite Ascii.eqb_refl.
  - destruct (c =? sep)%char; simpl; [discriminate|].
    intros H. now rewrite (IH H).
Qed.

(** [split] undoes [join] on pieces free of the separator. *)
Lemma split_on_join (sep : ascii) (l : list string) :
  l <> [] ->
  Forall (fun s => contains_char sep s = false) l ->
  split_on sep (join (String sep "") l) = l.
Proof.
  intros Hne Hall. induction Hall as [|x r Hx Hr IH]; [congruence|].
  destruct r as [|y r].
  - simpl. now apply split_on_clean.
  - change (join (String sep "") (x :: y :: r))
      with (x ++ String sep (join (String sep "") (y :: r))).
    rewrite split_on_app by assumption.
    f_equal. apply IH. discriminate.
Qed.

(** No piece of a split holds the separator. *)
Lemma split_on_pieces (sep : ascii) (s : string) :
  Forall (fun p => contains_char sep p = false) (split_on sep s).
Proof.
  induction s as [|c s IH]; simpl; [now repeat constructor|].
  destruct (c =? sep)%char eqn:E; [now constructor|].
  destruct (split_on sep s) as [|p ps].
  - repeat constructor. simpl. now rewrite E.
  - inversion IH as [|? ? Hp Hps]; subst.
    constructor; [simpl; now rewrite E, Hp | exact Hps].
Qed.

Lemma filter_truthy_id (l : list string) :
  Forall (fun s => s <> "") l -> filter truthy l = l.
Proof.
  induction 1 as [|x r Hx Hr IH]; simpl; [reflexivity|].
  destruct x; [congruence|]. simpl. now rewrite IH.
Qed.

Lemma digit_char_spec (d : Z) :
  0 <= d <= 9 ->
  is_digit (digit_char d) = true /\ digit_value (digit_char d) = d.
Proof.
  intros H.
  assert (E : d = 0 \/ d = 1 \/ d = 2 \/ d = 3 \/ d = 4 \/ d = 5 \/ d = 6
              \/ d = 7 \/ d = 8 \/ d = 9) by lia.
  repeat (destruct E as [->|E]; [now split|]). subst d. now split.
Qed.

Lemma fold_digits_fuel (fuel : nat) :
  forall n acc, 0 <= n < 2 ^ Z.of_nat fuel ->
  exists m, forall k,
    fold_digits (digits_fuel fuel n acc) k = fold_digits acc (k * m + n).
Proof.
  induction fuel as [|f IH]; intros n acc Hn.
  - exists 1. intros k. simpl in *. f_equal. lia.
  - cbn [digits_fuel]. cbv zeta.
    assert (Hmod : 0 <= n mod 10 <= 9)
      by (pose proof (Z.mod_pos_bound n 10); lia).
    destruct (digit_char_spec (n mod 10) Hmod) as [Hd Hv].
    destruct (n <? 10) eqn:E.
    + apply Z.ltb_lt in E. exists 10. intros k. cbn [fold_digits].
      rewrite Hd, Hv. f_equal. rewrite Z.mod_small by lia. lia.
    + apply Z.ltb_ge in E.
      destruct (IH (n / 10) (String (digit_char (n mod 10)) acc))
        as [m Hm].
      { split; [apply Z.div_pos; lia|].
        apply Z.div_lt_upper_bound; [lia|].
        rewrite Nat2Z.inj_succ, Z.pow_succ_r in Hn by lia. lia. }
      exists (10 * m). intros k. rewrite Hm. cbn [fold_digits].
      rewrite Hd, Hv. f_equal.
      pose proof (Z.div_mod n 10). lia.
Qed.

Lemma digits_fuel_head (fuel : nat) :
  forall n acc, 1 <= n < 2 ^ Z.of_nat fuel ->
  exists d rest, 1 <= d <= 9
                 /\ digits_fuel fuel n acc = String (digit_char d) rest.
Proof.
  induction fuel as [|f IH]; intros n acc Hn.
  - simpl in Hn. lia.
  - cbn [digits_fuel]. cbv zeta. destruct (n <? 10) eqn:E.
    + apply Z.ltb_lt in E. exists n, acc. rewrite Z.mod_small by lia.
      split; [lia | reflexivity].
    + apply Z.ltb_ge in E. apply IH. split.
      * apply Z.div_le_lower_bound; lia.
      * apply Z.div_lt_upper_bound; [lia|].
        rewrite Nat2Z.inj_succ, Z.pow_succ_r in Hn by lia. lia.
Qed.

Lemma nat_digits_fuel (n : Z) :
  1 <= n -> 1 <= n < 2 ^ Z.of_nat (S (Z.to_nat (Z.log2 n))).
Proof.
  intros H. split; [exact H|].
  rewrite Nat2Z.inj_succ, Z2Nat.id by apply Z.log2_nonneg.
  apply Z.log2_spec. lia.
Qed.

Lemma parse_unsigned_digits (rest : string) (d : Z) :
  1 <= d <= 9 ->
  parse_unsigned (String (digit_char d) rest)
  = Some (fold_digits (String (digit_char d) rest) 0).
Proof.
  intros H.
  assert (E : d = 1 \/ d = 2 \/ d = 3 \/ d = 4 \/ d = 5 \/ d = 6
              \/ d = 7 \/ d = 8 \/ d = 9) by lia.
  repeat (destruct E as [->|E]; [reflexivity|]). now subst d.
Qed.

Lemma parseInt_positive (n : Z) :
  1 <= n ->
  parseInt (nat_digits n) = Num n
  /\ parseInt (String "-" (nat_digits n)) = Num (- n)
  /\ nat_digits n <> "".
Proof.
  intros H. unfold nat_digits.
  destruct (digits_fuel_head _ n "" (nat_digits_fuel n H))
    as (d & rest & Hd & Hs).
  destruct (fold_digits_fuel (S (Z.to_nat (Z.log2 n))) n "") as [m Hm].
  { pose proof (nat_digits_fuel n H). lia. }
  assert (Hval : fold_digits (String (digit_char d) rest) 0 = n).
  { rewrite <- Hs, Hm. simpl. lia. }
  rewrite Hs.
  assert (Hu := parse_unsigned_digits rest d Hd).
  assert (E : d = 1 \/ d = 2 \/ d = 3 \/ d = 4 \/ d = 5 \/ d = 6
              \/ d = 7 \/ d = 8 \/ d = 9) by lia.
  split; [|split; [|discriminate]].
  - unfold parseInt.
    replace (skip_spaces (String (digit_char d) rest))
      with (String (digit_char d) rest)
      by (repeat (destruct E as [->|E]; [reflexivity|]); now subst d).
    replace (match String (digit_char d) rest with
             | String "-" r => (true, r)
             | String "+" r => (false, r)
             | _ => (false, String (digit_char d) rest)
             end) with (false, String (digit_char d) rest)
      by (repeat (destruct E as [->|E]; [reflexivity|]); now subst d).
    now rewrite Hu, Hval.
  - unfold parseInt.
    change (skip_spaces (String "-" (String (digit_char d) rest)))
      with (String "-" (String (digit_char d) rest)).
    cbv iota. now rewrite Hu, Hval.
Qed.

(** [parseInt] reads back what [toString] prints. *)
Lemma parseInt_toString (n : number) : parseInt (toString n) = n.
Proof.
  destruct n as [|z]; [reflexivity|]. unfold toString, int_toString.
  destruct (z <? 0) eqn:E.
  - apply Z.ltb_lt in E.
    destruct (parseInt_positive (- z)) as (_ & H & _); [lia|].
    rewrite H. f_equal. lia.
  - apply Z.ltb_ge in E. destruct (Z.eq_dec z 0) as [->|Hz]; [reflexivity|].
    now destruct (parseInt_positive z) as (H & _ & _); [lia|].
Qed.

Lemma toString_truthy (n : number) : truthy (toString n) = true.
Proof.
  destruct n as [|z]; [reflexivity|]. unfold toString, int_toString.
  destruct (z <? 0) eqn:E; [reflexivity|].
  apply Z.ltb_ge in E. destruct (Z.eq_dec z 0) as [->|Hz]; [reflexivity|].
  destruct (parseInt_positive z) as (_ & _ & H); [lia|].
  now destruct (nat_digits z).
Qed.

(** [parseInt] skips a no-break space (U+00A0) and an ideographic space
    (U+3000) as it skips a space, and a text of such spaces only is blank. *)
Lemma parseInt_skips_unicode_space :
  let nbsp := String (char_of_code 194) (String (char_of_code 160) "") in
  let ideographic :=
    String (char_of_code 227)
      (String (char_of_code 128) (String (char_of_code 128) "")) in
  parseInt (nbsp ++ "2") = Num 2
  /\ parseInt (" " ++ ideographic ++ nbsp ++ "-7x") = Num (-7)
  /\ blank (nbsp ++ " " ++ ideographic) = true
  /\ blank (nbsp ++ "a") = false.
Proof. repeat split. Qed.

End StringFacts.

(** ** UTF-8 *)

Section UTF8Facts.
Import JS UTF8.

Lemma append_char (x y : string) (c : ascii) :
  (x ++ String c "") ++ y = x ++ String c y.
Proof. induction x as [|d x IH]; simpl; [reflexivity | now rewrite IH]. Qed.

Lemma append_assoc (x y z : string) : (x ++ y) ++ z = x ++ y ++ z.
Proof. induction x as [|d x IH]; simpl; [reflexivity | now rewrite IH]. Qed.

Lemma append_nil (x : string) : x ++ "" = x.
Proof. induction x as [|d x IH]; simpl; [reflexivity | now rewrite IH]. Qed.

(** The decoder leaves well-formed input as it is. *)
Lemma decode_from_valid (s : string) :
  forall expect pending,
    valid_from expect s = true ->
    decode_from pending expect s
    = match expect with
      | [] => s
      | _ :: _ => pending ++ s
      end.
Proof.
  induction s as [|b r IH]; intros expect pending H.
  - destruct expect; [reflexivity | discriminate H].
  - cbn [valid_from] in H. cbn [decode_from]. cbv zeta.
    destruct expect as [|[lo hi] es].
    + destruct (lead b) as [[|e es]|]; [| |discriminate H].
      * now rewrite (IH [] "" H).
      * now rewrite (IH (e :: es) (String b "") H).
    + apply andb_true_iff in H. destruct H as [Hb Hr]. rewrite Hb.
      destruct es as [|e es].
      * now rewrite (IH [] "" Hr).
      * rewrite (IH (e :: es) (pending ++ String b "") Hr).
        apply append_char.
Qed.

Lemma decode_valid (s : string) : valid s = true -> decode s = s.
Proof. intros H. exact (decode_from_valid s [] "" H). Qed.

Lemma valid_from_app (a b : string) :
  forall expect,
    valid_from expect a = true ->
    valid_from expect (a ++ b) = valid b.
Proof.
  induction a as [|c a IH]; intros expect H.
  - destruct expect; [reflexivity | discriminate H].
  - cbn [valid_from append] in *. destruct expect as [|[lo hi] es].
    + destruct (lead c) as [es|]; [now apply IH | discriminate H].
    + apply andb_true_iff in H. destruct H as [Hc Ha]. rewrite Hc.
      now apply IH.
Qed.

Lemma valid_app (a b : string) :
  valid a = true -> valid b = true -> valid (a ++ b) = true.
Proof. intros Ha Hb. unfold valid. now rewrite (valid_from_app a b [] Ha). Qed.

(** Every bound a lead byte sets is a bound on bytes from 128. *)
Lemma lead_bounds (b : ascii) (es : list (Z * Z)) :
  lead b = Some es -> Forall (fun e => 128 <= fst e) es.
Proof.
  unfold lead. cbv zeta.
  destruct (char_code b <=? 127); [intros H; injection H as <-; constructor|].
  destruct ((194 <=? char_code b) && (char_code b <=? 223));
    [intros H; injection H as <-; repeat constructor; simpl; lia|].
  destruct ((224 <=? char_code b) && (char_code b <=? 239)).
  { intros H; injection H as <-.
    destruct (char_code b =? 224); repeat constructor; simpl; lia. }
  destruct ((240 <=? char_code b) && (char_code b <=? 244)); [|discriminate].
  intros H; injection H as <-.
  destruct (char_code b =? 240); repeat constructor; simpl; lia.
Qed.

(** Bytes that are no UTF-8 come out as U+FFFD: a lone continuation byte,
    a lead byte cut short by an ASCII byte, and a lead byte at the end. *)
Lemma decode_replaces_ill_formed :
  decode (String (char_of_code 160) "a") = replacement ++ "a"
  /\ decode (String (char_of_code 226) (String (char_of_code 130) "a"))
     = replacement ++ "a"
  /\ decode (String "a" (String (char_of_code 195) "")) = "a" ++ replacement
  /\ valid replacement = true.
Proof. repeat split. Qed.

End UTF8Facts.

(** ** The query string *)

Section QueryStringFacts.
Import JS URLSearchParams.

(** What the serializer emits for one byte starts with a character that is
    none of [&], [=], [?], and reads back as that byte. *)
Lemma encode_byte_spec (c : ascii) (rest : string) :
  percent_decode (encode_byte c ++ rest) = String c (percent_decode rest)
  /\ contains_char "&" (encode_byte c) = false
  /\ contains_char "=" (encode_byte c) = false
  /\ exists h t, encode_byte c = String h t /\ h <> "?"%char.
Proof.
  destruct c as [[] [] [] [] [] [] [] []];
    (split; [reflexivity|]; split; [reflexivity|]; split; [reflexivity|];
     eexists; eexists; split; [reflexivity | discriminate]).
Qed.

Lemma contains_char_app (c : ascii) (a b : string) :
  contains_char c (a ++ b) = contains_char c a || contains_char c b.
Proof.
  induction a as [|d a IH]; simpl; [reflexivity|].
  now rewrite IH, orb_assoc.
Qed.

Lemma percent_decode_encode (s : string) : percent_decode (encode s) = s.
Proof.
  induction s as [|c s IH]; [reflexivity|]. cbn [encode].
  destruct (encode_byte_spec c (encode s)) as (H & _). now rewrite H, IH.
Qed.

(** Decoding what the serializer wrote gives the text back, read as
    UTF-8. *)
Lemma decode_encode (s : string) : decode (encode s) = UTF8.decode s.
Proof. unfold decode. now rewrite percent_decode_encode. Qed.

Lemma encode_clean (s : string) :
  contains_char "&" (encode s) = false
  /\ contains_char "=" (encode s) = false.
Proof.
  induction s as [|c s [IH1 IH2]]; [now split|]. cbn [encode].
  destruct (encode_byte_spec c "") as (_ & H1 & H2 & _).
  rewrite !contains_char_app, H1, H2, IH1, IH2. now split.
Qed.

Lemma encode_head (s rest : string) :
  exists h r, encode s ++ String "=" rest = String h r /\ h <> "?"%char.
Proof.
  destruct s as [|c s]; [eexists; eexists; split; [reflexivity|discriminate]|].
  cbn [encode].
  destruct (encode_byte_spec c "") as (_ & _ & _ & h & tl & E & Hh).
  rewrite E. simpl. eexists; eexists; split; [reflexivity | exact Hh].
Qed.

Lemma split_pair_app (k v : string) :
  contains_char "=" k = false ->
  split_pair (k ++ String "=" v) = (k, v).
Proof.
  induction k as [|c k IH]; simpl; [reflexivity|].
  destruct (c =? "=")%char; simpl; [discriminate|].
  intros H. now rewrite (IH H).
Qed.

Lemma pair_text_clean (kv : string * string) :
  contains_char "&" (pair_text kv) = false /\ pair_text kv <> "".
Proof.
  unfold pair_text. destruct (encode_clean (fst kv)) as [H1 _].
  destruct (encode_clean (snd kv)) as [H2 _]. split.
  - rewrite !contains_char_app, H1, H2. reflexivity.
  - destruct (encode (fst kv)); discriminate.
Qed.

(** Parsing a list of pair texts [f name = f value], for a way [f] of
    writing names and values that uses neither [&] nor [=] and does not
    start with [?]. *)
Lemma parse_join (f : string -> string) (p : t) :
  (forall s, contains_char "&" (f s) = false
             /\ contains_char "=" (f s) = false) ->
  (forall s rest, exists h r,
      f s ++ String "=" rest = String h r /\ h <> "?"%char) ->
  parse (join "&" (map (fun kv => f (fst kv) ++ "=" ++ f (snd kv)) p))
  = map (fun kv => (decode (f (fst kv)), decode (f (snd kv)))) p.
Proof.
  intros Hclean Hhead.
  set (text := fun kv : string * string => f (fst kv) ++ "=" ++ f (snd kv)).
  assert (Htext : forall kv, contains_char "&" (text kv) = false
                             /\ text kv <> "").
  { intros kv. unfold text. split.
    - rewrite !contains_char_app.
      destruct (Hclean (fst kv)) as [-> _].
      destruct (Hclean (snd kv)) as [-> _]. reflexivity.
    - destruct (f (fst kv)); discriminate. }
  destruct p as [|kv p]; [reflexivity|].
  assert (Hbody : match join "&" (map text (kv :: p)) with
                  | String "?" r => r
                  | _ => join "&" (map text (kv :: p))
                  end = join "&" (map text (kv :: p))).
  { assert (H : exists h r, join "&" (map text (kv :: p)) = String h r
                            /\ h <> "?"%char).
    { cbn [map]. unfold text at 1.
      destruct (map text p) as [|y ys].
      - cbn [join]. apply (Hhead (fst kv) (f (snd kv))).
      - destruct (Hhead (fst kv) (f (snd kv))) as (h & r & E & Hh).
        exists h, (r ++ "&" ++ join "&" (y :: ys)). split; [|exact Hh].
        apply (f_equal (fun t => t ++ "&" ++ join "&" (y :: ys))) in E.
        exact E. }
    destruct H as (h & r & -> & Hh).
    destruct h as [[] [] [] [] [] [] [] []]; try reflexivity. congruence. }
  unfold parse. rewrite Hbody.
  change (String "&" "") with (String "&"%char "").
  rewrite split_on_join.
  - rewrite filter_truthy_id.
    + rewrite map_map. apply map_ext. intros a. unfold text.
      change (f (fst a) ++ "=" ++ f (snd a))
        with (f (fst a) ++ String "=" (f (snd a))).
      rewrite split_pair_app by apply Hclean. reflexivity.
    + apply Forall_forall. intros s Hs. apply in_map_iff in Hs.
      destruct Hs as (x & <- & _). apply Htext.
  - discriminate.
  - apply Forall_forall. intros s Hs. apply in_map_iff in Hs.
    destruct Hs as (x & <- & _). apply Htext.
Qed.

(** Parsing the text of a parameter list gives the list back, its names
    and values read as UTF-8. *)
Lemma parse_to_string_decoded (p : t) :
  parse (to_string p)
  = map (fun kv => (UTF8.decode (fst kv), UTF8.decode (snd kv))) p.
Proof.
  unfold to_string.
  change pair_text with (fun kv => encode (fst kv) ++ "=" ++ encode (snd kv)).
  rewrite (parse_join encode).
  - apply map_ext. intros kv. now rewrite !decode_encode.
  - apply encode_clean.
  - apply encode_head.
Qed.

(** So a list of well-formed names and values comes back as it is. *)
Lemma parse_to_string (p : t) :
  Forall (fun kv => UTF8.valid (fst kv) = true
                    /\ UTF8.valid (snd kv) = true) p ->
  parse (to_string p) = p.
Proof.
  intros H. rewrite parse_to_string_decoded.
  rewrite <- (map_id p) at 2. apply map_ext_in. intros [k v] Hin.
  destruct (proj1 (Forall_forall _ _) H _ Hin) as [Hk Hv]. cbn [fst snd] in *.
  now rewrite !decode_valid.
Qed.

End QueryStringFacts.

(** ** [decodeURI] on the text of a parameter list *)

Section DecodeURIFacts.
Import JS URLSearchParams Wouter Conditions.

(** With no sequence open the pending bytes play no part. *)
Lemma Decode_closed (pending s : string) : Decode pending 0 s = Decode "" 0 s.
Proof. destruct s; reflexivity. Qed.

(** One byte below 128, as the serializer writes it. *)
Lemma Decode_ascii (b : ascii) (pending rest : string) :
  UTF8.lead b = Some [] ->
  Decode pending 0 (encode_byte b ++ rest)
  = option_map (String.append (residue_byte b)) (Decode "" 0 rest).
Proof.
  destruct b as [[] [] [] [] [] [] [] []]; intros H;
    try (cbv in H; discriminate H);
    cbn; destruct (Decode "" 0 rest); reflexivity.
Qed.

(** A lead byte opens a sequence. *)
Lemma Decode_lead (b : ascii) (pending rest : string) (e : Z * Z)
    (es : list (Z * Z)) :
  UTF8.lead b = Some (e :: es) ->
  Decode pending 0 (encode_byte b ++ rest)
  = Decode (String b "") (List.length (e :: es)) rest
  /\ residue_byte b = String b "".
Proof.
  destruct b as [[] [] [] [] [] [] [] []]; intros H;
    try (cbv in H; discriminate H);
    cbv in H; injection H as <- <-; split; reflexivity.
Qed.

(** A byte from 128 while a sequence is open. *)
Lemma Decode_continuation (b : ascii) (pending rest : string) (m : nat) :
  (128 <=? char_code b) = true ->
  Decode pending (S m) (encode_byte b ++ rest)
  = match m with
    | O =>
        if UTF8.valid (pending ++ String b "")
        then option_map (String.append (pending ++ String b "")) (Decode "" 0 rest)
        else None
    | S _ => Decode (pending ++ String b "") m rest
    end
  /\ residue_byte b = String b "".
Proof.
  destruct b as [[] [] [] [] [] [] [] []]; intros H;
    try (cbv in H; discriminate H); split; reflexivity.
Qed.

(** [decodeURI] turns the serializer's text of well-formed UTF-8 into its
    residue. *)
Lemma Decode_encode (s : string) :
  forall expect pending rest,
    UTF8.valid_from expect s = true ->
    Forall (fun e => 128 <= fst e) expect ->
    (forall t, UTF8.valid_from expect t = UTF8.valid (pending ++ t)) ->
    Decode pending (List.length expect) (encode s ++ rest)
    = option_map
        (fun t => match expect with
                  | [] => residue s ++ t
                  | _ :: _ => pending ++ residue s ++ t
                  end)
        (Decode "" 0 rest).
Proof.
  induction s as [|b r IH]; intros expect pending rest Hv Hb Hlink.
  - destruct expect; [|discriminate Hv]. cbn. rewrite Decode_closed.
    now destruct (Decode "" 0 rest).
  - cbn [UTF8.valid_from] in Hv. cbn [encode residue].
    rewrite !append_assoc.
    destruct expect as [|[lo hi] es].
    + destruct (UTF8.lead b) as [[|e es]|] eqn:El; [| |discriminate Hv].
      * cbn [List.length].
        rewrite (Decode_ascii b pending _ El).
        pose proof (IH [] "" rest Hv (Forall_nil _) (fun t => eq_refl)) as E.
        cbn [List.length] in E. rewrite E.
        destruct (Decode "" 0 rest); cbn [option_map]; [|reflexivity].
        f_equal; cbn [String.append];
          rewrite ?append_assoc, ?append_char; reflexivity.
      * change (List.length (@nil (Z * Z))) with 0%nat.
        destruct (Decode_lead b pending (encode r ++ rest) e es El)
          as [-> ->].
        rewrite (IH (e :: es) (String b "") rest Hv (lead_bounds b _ El)).
        -- destruct (Decode "" 0 rest); cbn [option_map]; [|reflexivity].
        f_equal; cbn [String.append];
          rewrite ?append_assoc, ?append_char; reflexivity.
        -- intros t. unfold UTF8.valid. cbn [String.append UTF8.valid_from].
           now rewrite El.
    + apply andb_true_iff in Hv. destruct Hv as [Hin Hr].
      assert (Hhigh : (128 <=? char_code b) = true).
      { unfold UTF8.between in Hin. apply andb_true_iff in Hin.
        destruct Hin as [Hlo _]. apply Z.leb_le in Hlo. apply Z.leb_le.
        inversion Hb as [|? ? Hlo' _]; subst. cbn in Hlo'. lia. }
      cbn [List.length].
      destruct (Decode_continuation b pending (encode r ++ rest)
                  (List.length es) Hhigh) as [-> ->].
      assert (Hlink' : forall t,
                 UTF8.valid_from es t
                 = UTF8.valid ((pending ++ String b "") ++ t)).
      { intros t. rewrite append_char, <- Hlink.
        cbn [UTF8.valid_from]. now rewrite Hin. }
      inversion Hb as [|? ? _ Hb']; subst.
      destruct es as [|e es].
      * cbn [List.length].
        rewrite <- (append_nil (pending ++ String b "")) at 1.
        rewrite <- Hlink'. cbn [UTF8.valid_from].
        pose proof (IH [] "" rest Hr (Forall_nil _) (fun t => eq_refl)) as E.
        cbn [List.length] in E. rewrite E.
        destruct (Decode "" 0 rest); cbn [option_map]; [|reflexivity].
        f_equal; cbn [String.append];
          rewrite ?append_assoc, ?append_char; reflexivity.
      * change (List.length (e :: es)) with (S (List.length es)).
        change (S (List.length es)) with (List.length (e :: es)).
        rewrite (IH (e :: es) (pending ++ String b "") rest Hr Hb' Hlink').
        destruct (Decode "" 0 rest); cbn [option_map]; [|reflexivity].
        f_equal; cbn [String.append];
          rewrite ?append_assoc, ?append_char; reflexivity.
Qed.

(** The residue of one byte: free of [&] and [=], not starting with [?],
    and read back by the parameter parser as that byte, when the byte is
    not [%]. *)
Lemma residue_byte_spec (c : ascii) :
  contains_char "&" (residue_byte c) = false
  /\ contains_char "=" (residue_byte c) = false
  /\ (exists h t, residue_byte c = String h t /\ h <> "?"%char)
  /\ ((c =? "%")%char = false ->
      forall rest,
        percent_decode (residue_byte c ++ rest)
        = String c (percent_decode rest))
  /\ (is_hex c = true -> residue_byte c = String c "")
  /\ (is_hex c = false ->
      exists h t, residue_byte c = String h t /\ is_hex h = false).
Proof.
  destruct c as [[] [] [] [] [] [] [] []];
    (split; [reflexivity|]; split; [reflexivity|];
     split; [eexists; eexists; split; [reflexivity | discriminate]|];
     split; [intros H; try discriminate H; reflexivity|];
     split; [intros H; try discriminate H; reflexivity|];
     intros H; try discriminate H;
     eexists; eexists; split; reflexivity).
Qed.

Lemma residue_clean (s : string) :
  contains_char "&" (residue s) = false
  /\ contains_char "=" (residue s) = false.
Proof.
  induction s as [|c s [IH1 IH2]]; [now split|]. cbn [residue].
  destruct (residue_byte_spec c) as (H1 & H2 & _).
  rewrite !contains_char_app, H1, H2, IH1, IH2. now split.
Qed.

Lemma residue_head (s rest : string) :
  exists h r, residue s ++ String "=" rest = String h r /\ h <> "?"%char.
Proof.
  destruct s as [|c s]; [eexists; eexists; split; [reflexivity|discriminate]|].
  cbn [residue].
  destruct (residue_byte_spec c) as (_ & _ & (h & tl & E & Hh) & _).
  rewrite E. simpl. eexists; eexists; split; [reflexivity | exact Hh].
Qed.

(** A [%] that no two hexadecimal digits follow stands for itself. *)
Lemma percent_decode_percent (s : string) :
  match s with
  | String h (String l _) => is_hex h && is_hex l
  | _ => false
  end = false ->
  percent_decode (String "%" s) = String "%" (percent_decode s).
Proof.
  intros H. cbn [percent_decode].
  change ("%" =? "+")%char with false. change ("%" =? "%")%char with true.
  cbv iota. destruct s as [|h [|l s]]; try reflexivity.
  unfold is_hex in H.
  destruct (hex_value h); [|reflexivity].
  destruct (hex_value l); [discriminate H | reflexivity].
Qed.

(** The residue starts with two hexadecimal digits only where the text
    does. *)
Lemma residue_two_hex (s : string) :
  match residue s with
  | String h (String l _) => is_hex h && is_hex l
  | _ => false
  end
  = match s with
    | String h (String l _) => is_hex h && is_hex l
    | _ => false
    end.
Proof.
  destruct s as [|c1 s]; [reflexivity|]. cbn [residue].
  destruct (residue_byte_spec c1) as (_ & _ & _ & _ & Hhex & Hnot).
  destruct (is_hex c1) eqn:E1.
  - rewrite (Hhex eq_refl). cbn [String.append].
    destruct s as [|c2 s]; [reflexivity|]. cbn [residue].
    destruct (residue_byte_spec c2) as (_ & _ & _ & _ & Hhex2 & Hnot2).
    destruct (is_hex c2) eqn:E2.
    + rewrite (Hhex2 eq_refl). cbn [String.append]. now rewrite E1, E2.
    + destruct (Hnot2 eq_refl) as (h & t & -> & Hh). cbn [String.append].
      now rewrite Hh, andb_false_r.
  - destruct (Hnot eq_refl) as (h & t & -> & Hh). cbn [String.append].
    rewrite Hh.
    transitivity false;
      [destruct (t ++ residue s); reflexivity | destruct s; reflexivity].
Qed.

(** The parameter parser reads the residue of a text in which nothing
    reads as an escape back as the text. *)
Lemma percent_decode_residue (s : string) :
  no_escape s = true -> percent_decode (residue s) = s.
Proof.
  induction s as [|c s IH]; [reflexivity|]. intros H.
  cbn [no_escape] in H. apply andb_true_iff in H. destruct H as [Hc Hs].
  cbn [residue]. destruct (Ascii.eqb_spec c "%") as [->|Hne].
  - change (residue_byte "%") with "%". cbn [String.append].
    rewrite percent_decode_percent; [now rewrite (IH Hs)|].
    rewrite residue_two_hex. apply negb_true_iff in Hc.
    unfold starts_escape in Hc. destruct s as [|h [|l s]]; try reflexivity.
    exact Hc.
  - destruct (residue_byte_spec c) as (_ & _ & _ & Hd & _).
    rewrite Hd by (now apply Ascii.eqb_neq). now rewrite (IH Hs).
Qed.

(** [decodeURI] on the text of a parameter list whose names and values are
    well-formed UTF-8. *)
Lemma decodeURI_to_string (p : URLSearchParams.t) :
  Forall (fun kv => UTF8.valid (fst kv) = true
                    /\ UTF8.valid (snd kv) = true) p ->
  decodeURI (to_string p)
  = Some (join "&"
            (map (fun kv => residue (fst kv) ++ "=" ++ residue (snd kv)) p)).
Proof.
  assert (Htext : forall s rest,
             UTF8.valid s = true ->
             Decode "" 0 (encode s ++ rest)
             = option_map (String.append (residue s)) (Decode "" 0 rest)).
  { intros s rest Hs.
    exact (Decode_encode s [] "" rest Hs (Forall_nil _) (fun t => eq_refl)). }
  assert (Hpair : forall kv rest,
             UTF8.valid (fst kv) = true -> UTF8.valid (snd kv) = true ->
             Decode "" 0 (pair_text kv ++ rest)
             = option_map
                 (String.append (residue (fst kv) ++ "=" ++ residue (snd kv)))
                 (Decode "" 0 rest)).
  { intros kv rest Hk Hv. unfold pair_text.
    rewrite !append_assoc, (Htext _ _ Hk).
    change ("=" ++ encode (snd kv) ++ rest)
      with (String "=" (encode (snd kv) ++ rest)).
    cbn [Decode]. change ("=" =? "%")%char with false. cbv iota.
    rewrite (Htext _ _ Hv).
    destruct (Decode "" 0 rest); cbn [option_map]; [|reflexivity].
    f_equal. now rewrite !append_assoc. }
  unfold decodeURI, to_string. induction 1 as [|kv p [Hk Hv] Hp IH].
  - reflexivity.
  - cbn [map]. destruct p as [|kv' p].
    + cbn [map join].
      rewrite <- (append_nil (pair_text kv)), (Hpair kv "" Hk Hv).
      cbn. now rewrite append_nil.
    + cbn [map join] in *.
      rewrite (Hpair kv _ Hk Hv).
      change ("&" ++ ?x) with (String "&" x).
      cbn [Decode]. change ("&" =? "%")%char with false. cbv iota.
      rewrite IH. cbn. f_equal; now rewrite !append_assoc.
Qed.

(** A parameter list of plain names and values comes back from its text
    through [useSearch], with or without the leading [?]. *)
Lemma parse_useSearch (p : URLSearchParams.t) :
  plain_params p ->
  parse (useSearch (to_string p)) = p
  /\ parse (useSearch ("?" ++ to_string p)) = p.
Proof.
  intros Hp.
  assert (Hvalid : Forall (fun kv => UTF8.valid (fst kv) = true
                                     /\ UTF8.valid (snd kv) = true) p).
  { eapply Forall_impl; [|exact Hp]. intros kv [Hk Hv]. unfold plain in *.
    apply andb_true_iff in Hk, Hv. tauto. }
  assert (Hstrip : stripQm (to_string p) = to_string p).
  { unfold to_string. destruct p as [|kv p]; [reflexivity|].
    assert (H : exists h r,
               join "&" (map pair_text (kv :: p)) = String h r
               /\ h <> "?"%char).
    { cbn [map]. destruct (encode_head (fst kv) (encode (snd kv)))
        as (h & r & E & Hh).
      destruct (map pair_text p) as [|y ys].
      - cbn [join]. eexists; eexists; split; [exact E | exact Hh].
      - exists h, (r ++ "&" ++ join "&" (y :: ys)). split; [|exact Hh].
        apply (f_equal (fun t => t ++ "&" ++ join "&" (y :: ys))) in E.
        exact E. }
    destruct H as (h & r & -> & Hh). unfold stripQm.
    destruct (Ascii.eqb_spec h "?"); [contradiction | reflexivity]. }
  assert (H : parse (unescape (to_string p)) = p).
  { unfold unescape. rewrite (decodeURI_to_string p Hvalid).
    rewrite (parse_join residue).
    - rewrite <- (map_id p) at 2. apply map_ext_in. intros [k v] Hin.
      destruct (proj1 (Forall_forall _ _) Hp _ Hin) as [Hk Hv].
      cbn [fst snd] in *. unfold plain in *.
      apply andb_true_iff in Hk, Hv. destruct Hk as [Hk1 Hk2].
      destruct Hv as [Hv1 Hv2]. unfold decode.
      rewrite !percent_decode_residue by assumption.
      now rewrite !decode_valid.
    - apply residue_clean.
    - apply residue_head. }
  split.
  - unfold useSearch. now rewrite Hstrip.
  - exact H.
Qed.

(** [useSearch] decodes the address once, [URLSearchParams] once more: an
    escaped percent sign followed by two hexadecimal digits is read as an
    escape the second time.  Reserved characters stay escaped, and an
    address [decodeURI] refuses is handed on as it is. *)
Lemma useSearch_decodes_once_more :
  useSearch "?query=%2541" = "query=%41"
  /\ URLSearchParams.parse (useSearch "?query=%2541") = [("query", "A")]
  /\ useSearch "?cultures=a%2Cb%26c" = "cultures=a%2Cb%26c"
  /\ useSearch "?query=100%" = "query=100%"
  /\ useSearch "?query=%C3%A9" = "query=" ++ String (char_of_code 195)
                                             (String (char_of_code 169) "").
Proof. repeat split. Qed.

End DecodeURIFacts.

(** ** The filter state and the address bar *)

Section RoundTrip.
Import JS HomePage Conditions.

Lemma get_append_if (name : string) (cond : bool) (k v : string)
    (p : URLSearchParams.t) :
  URLSearchParams.get name (append_if cond k v p)
  = match URLSearchParams.get name p with
    | Some x => Some x
    | None => if String.eqb k name && cond then Some v else None
    end.
Proof.
  unfold append_if, URLSearchParams.append. destruct cond.
  - induction p as [|[k' v'] p IH]; simpl.
    + now destruct (String.eqb k name).
    + destruct (String.eqb k' name); [reflexivity | exact IH].
  - rewrite andb_false_r. now destruct (URLSearchParams.get name p).
Qed.

(** The value each parameter has in the list [buildQueryString] builds. *)
Lemma queryParams_get (s : State) :
  let p := queryParams s in
  URLSearchParams.get "query" p
    = (if truthy (searchQuery s) then Some (searchQuery s) else None)
  /\ URLSearchParams.get "cultures" p
    = (if 0 <? Z.of_nat (List.length (cultures s))
       then Some (join "," (cultures s)) else None)
  /\ URLSearchParams.get "materials" p
    = (if 0 <? Z.of_nat (List.length (materials s))
       then Some (join "," (materials s)) else None)
  /\ URLSearchParams.get "dateStart" p
    = (if number_neq (fst (dateRange s)) (Num (-3000))
       then Some (toString (fst (dateRange s))) else None)
  /\ URLSearchParams.get "dateEnd" p
    = (if number_neq (snd (dateRange s)) (Num 2000)
       then Some (toString (snd (dateRange s))) else None)
  /\ URLSearchParams.get "has3dModel" p
    = (if has3dModel s then Some "true" else None)
  /\ URLSearchParams.get "sort" p
    = (if negb (String.eqb (sortOption s) "relevance")
       then Some (sortOption s) else None)
  /\ URLSearchParams.get "page" p
    = (if number_neq (currentPage s) (Num 1)
       then Some (toString (currentPage s)) else None).
Proof.
  unfold queryParams. cbv zeta.
  repeat split; rewrite !get_append_if; cbn;
    repeat match goal with
           | |- context [if ?b then _ else _] => destruct b
           end; reflexivity.
Qed.

Lemma facet_round_trip (l : list string) :
  Forall facet_token l ->
  facet_of (if 0 <? Z.of_nat (List.length l)
            then Some (join "," l) else None) = l.
Proof.
  intros H. destruct l as [|x r]; [reflexivity|].
  replace (0 <? Z.of_nat (List.length (x :: r))) with true
    by (symmetry; apply Z.ltb_lt; simpl List.length; lia).
  unfold facet_of. change "," with (String ","%char "").
  rewrite split_on_join.
  - apply filter_truthy_id. eapply Forall_impl; [|exact H].
    intros a [Ha _]. exact Ha.
  - discriminate.
  - eapply Forall_impl; [|exact H]. intros a [_ Ha]. exact Ha.
Qed.

Lemma number_round_trip (n d : number) (text : string) :
  parseInt text = d ->
  (number_neq n d = false -> n = d) ->
  parseInt (or_default (if number_neq n d then Some (toString n) else None)
                       text) = n.
Proof.
  intros Htext Heq. destruct (number_neq n d) eqn:E.
  - unfold or_default. rewrite toString_truthy. apply parseInt_toString.
  - simpl. rewrite Htext. symmetry. now apply Heq.
Qed.

Lemma number_neq_false (n : number) (z : Z) :
  number_neq n (Num z) = false -> n = Num z.
Proof.
  unfold number_neq, number_eqb. destruct n as [|x]; [discriminate|].
  intros H. apply negb_false_iff, Z.eqb_eq in H. now subst.
Qed.

(** *** Plain text *)

Lemma plain_split (s : string) :
  plain s = true <-> UTF8.valid s = true /\ no_escape s = true.
Proof. unfold plain. apply andb_true_iff. Qed.

(** Bytes below 128 other than [%] make plain text. *)
Lemma plain_simple (s : string) :
  (forall c, contains_char c s = true ->
             (char_code c <=? 127) = true /\ (c =? "%")%char = false) ->
  plain s = true.
Proof.
  induction s as [|c s IH]; intros H; [reflexivity|].
  destruct (H c) as [Hc Hp]; [simpl; now rewrite Ascii.eqb_refl|].
  assert (Hs : plain s = true).
  { apply IH. intros d Hd. apply H. simpl. rewrite Hd. apply orb_true_r. }
  apply plain_split in Hs. destruct Hs as [Hv Hn]. apply plain_split. split.
  - unfold UTF8.valid. cbn [UTF8.valid_from]. unfold UTF8.lead. cbv zeta.
    rewrite Hc. exact Hv.
  - cbn [no_escape]. rewrite Hn, andb_true_r. apply negb_true_iff.
    unfold starts_escape. destruct s as [|h [|l s]]; try reflexivity.
    now rewrite Hp.
Qed.

Lemma digits_fuel_chars (fuel : nat) :
  forall n acc c,
    0 <= n ->
    contains_char c (digits_fuel fuel n acc) = true ->
    is_digit c = true \/ contains_char c acc = true.
Proof.
  induction fuel as [|f IH]; intros n acc c Hn H; [now right|].
  cbn [digits_fuel] in H. cbv zeta in H.
  assert (Hmod : 0 <= n mod 10 <= 9)
    by (pose proof (Z.mod_pos_bound n 10); lia).
  destruct (digit_char_spec (n mod 10) Hmod) as [Hd _].
  assert (Hacc : contains_char c (String (digit_char (n mod 10)) acc) = true
                 -> is_digit c = true \/ contains_char c acc = true).
  { simpl. intros E. apply orb_true_iff in E. destruct E as [E|E].
    - apply Ascii.eqb_eq in E. subst. now left.
    - now right. }
  destruct (n <? 10); [now apply Hacc|].
  destruct (IH _ _ _ (Z.div_pos n 10 Hn ltac:(lia)) H) as [E|E];
    [now left | now apply Hacc].
Qed.

Lemma plain_toString (n : number) : plain (toString n) = true.
Proof.
  destruct n as [|z]; [reflexivity|].
  apply plain_simple. intros c Hc.
  assert (H : is_digit c = true \/ c = "-"%char).
  { unfold toString, int_toString, nat_digits in Hc.
    destruct (z <? 0) eqn:E.
    - apply Z.ltb_lt in E. cbn [contains_char] in Hc.
      apply orb_true_iff in Hc.
      destruct Hc as [Hc|Hc]; [right; symmetry; now apply Ascii.eqb_eq|].
      assert (Hz : 0 <= - z) by lia.
      destruct (digits_fuel_chars _ _ _ _ Hz Hc) as [H|H];
        [now left | discriminate H].
    - apply Z.ltb_ge in E.
      destruct (digits_fuel_chars _ _ _ _ E Hc) as [H|H];
        [now left | discriminate H]. }
  destruct H as [H| ->]; [|now split].
  unfold is_digit in H. apply andb_true_iff in H. destruct H as [H1 H2].
  apply Z.leb_le in H1, H2. split; [apply Z.leb_le; lia|].
  apply Ascii.eqb_neq. intros ->. cbv in H1. now apply H1.
Qed.

Lemma no_escape_comma (a b : string) :
  no_escape a = true -> no_escape b = true ->
  no_escape (a ++ String "," b) = true.
Proof.
  intros Ha Hb. induction a as [|c a IH].
  - cbn [String.append no_escape]. rewrite Hb.
    now destruct b as [|h [|l b]].
  - cbn [no_escape] in Ha. apply andb_true_iff in Ha.
    destruct Ha as [Hc Ha]. cbn [String.append no_escape].
    rewrite (IH Ha), andb_true_r. apply negb_true_iff.
    apply negb_true_iff in Hc. unfold starts_escape in *.
    destruct a as [|h [|l a]]; cbn [String.append].
    + destruct b as [|l b]; [reflexivity|].
      change (is_hex ",") with false. now rewrite andb_false_r.
    + change (is_hex ",") with false. now rewrite andb_false_r.
    + exact Hc.
Qed.

Lemma plain_join (l : list string) :
  Forall (fun v => plain v = true) l -> plain (join "," l) = true.
Proof.
  induction 1 as [|x r Hx Hr IH]; [reflexivity|].
  destruct r as [|y r]; [exact Hx|].
  change (join "," (x :: y :: r)) with (x ++ String "," (join "," (y :: r))).
  apply plain_split in Hx, IH. destruct Hx as [Hx1 Hx2].
  destruct IH as [Hr1 Hr2]. apply plain_split. split.
  - apply valid_app; [exact Hx1|]. exact Hr1.
  - now apply no_escape_comma.
Qed.

Lemma plain_append_if (cond : bool) (k v : string) (p : URLSearchParams.t) :
  plain_params p -> plain k = true -> (cond = true -> plain v = true) ->
  plain_params (append_if cond k v p).
Proof.
  intros Hp Hk Hv. unfold append_if, URLSearchParams.append.
  destruct cond; [|exact Hp]. apply Forall_app. split; [exact Hp|].
  constructor; [|constructor]. split; [exact Hk | now apply Hv].
Qed.

Lemma plain_queryParams (s : State) :
  plain_state s -> plain_params (queryParams s).
Proof.
  intros (Hq & Hc & Hm & Hs & _). unfold queryParams. cbv zeta.
  repeat apply plain_append_if; try reflexivity;
    try (intros _; auto using plain_toString, plain_join).
  constructor.
Qed.

(** Hydrating from the query string of a well-formed state of plain text
    restores it. *)
Lemma hydrate_buildQueryString (s : State) :
  well_formed s -> plain_state s ->
  hydrate (buildQueryString s) = s
  /\ hydrate ("?" ++ buildQueryString s) = s.
Proof.
  intros (Hc & Hm & Hs) Hplain.
  destruct (parse_useSearch _ (plain_queryParams s Hplain)) as [E1 E2].
  unfold hydrate, buildQueryString. cbv zeta. rewrite E1, E2.
  destruct (queryParams_get s) as (-> & -> & -> & -> & -> & -> & -> & ->).
  assert (H : forall x : State, x = s -> x = s /\ x = s) by (now split).
  apply H. clear H.
  destruct s as [q cs ms [ds de] flag so pg]. cbn [searchQuery cultures
    materials dateRange has3dModel sortOption currentPage fst snd] in *.
  f_equal.
  - now destruct q.
  - now apply facet_round_trip.
  - now apply facet_round_trip.
  - f_equal; apply number_round_trip; try reflexivity;
      apply number_neq_false.
  - now destruct flag.
  - destruct (String.eqb_spec so "relevance") as [->|Hne]; [reflexivity|].
    simpl. now destruct so.
  - apply number_round_trip; [reflexivity | apply number_neq_false].
Qed.

Lemma toggle_tokens (v : string) (l : list string) :
  facet_token v -> Forall facet_token l -> Forall facet_token (toggle v l).
Proof.
  intros Hv Hl. unfold toggle. destruct (includes v l).
  - unfold without. apply Forall_forall. intros x Hx.
    apply filter_In in Hx. destruct Hx as [Hx _].
    now apply (proj1 (Forall_forall _ _) Hl).
  - apply Forall_app. split; [exact Hl | now constructor].
Qed.

Lemma without_tokens (v : string) (l : list string) :
  Forall facet_token l -> Forall facet_token (without v l).
Proof.
  intros Hl. unfold without. apply Forall_forall. intros x Hx.
  apply filter_In in Hx. destruct Hx as [Hx _].
  now apply (proj1 (Forall_forall _ _) Hl).
Qed.

(** Whatever the address bar holds, the facet values of the hydrated state
    are non-empty and free of commas, and its sort option is not empty. *)
Lemma hydrate_well_formed (location_search : string) :
  well_formed (hydrate location_search).
Proof.
  assert (H : forall v, Forall facet_token (facet_of v)).
  { intros [v|]; simpl; [|constructor]. apply Forall_forall. intros x Hx.
    apply filter_In in Hx. destruct Hx as [Hin Ht]. split.
    - intros ->. discriminate Ht.
    - exact (proj1 (Forall_forall _ _) (split_on_pieces "," v) x Hin). }
  split; [apply H|]. split; [apply H|].
  unfold hydrate; cbn [sortOption]. unfold or_default.
  destruct (URLSearchParams.get "sort" _) as [[|c v]|]; discriminate.
Qed.

(** What the controls preserve: well-formed facets and sort. *)
Lemma reachable_invariant (s : State) :
  reachable facet_token s -> well_formed s.
Proof.
  induction 1 as [ search
                 | | s v Hr (Hc & Hm & Hs) Hv
                   | s v Hr (Hc & Hm & Hs) Hv
                   | s v Hr (Hc & Hm & Hs) Hv
                   | s Hr (Hc & Hm & Hs)
                   | s v Hr (Hc & Hm & Hs) Hv
                   | s p Hr (Hc & Hm & Hs) Hv
                   | s Hr (Hc & Hm & Hs)
                   | s Hr (Hc & Hm & Hs)
                   | s ty v Hr (Hc & Hm & Hs) ].
  - apply hydrate_well_formed.
  - split; [constructor|]. split; [constructor | discriminate].
  - repeat split; cbn; auto using toggle_tokens.
  - repeat split; cbn; auto using toggle_tokens.
  - now repeat split.
  - now repeat split.
  - repeat split; auto. cbn.
    destruct Hv as [<-|[<-|[<-|[<-|[]]]]]; discriminate.
  - now repeat split.
  - now repeat split.
  - split; [constructor|]. split; [constructor | discriminate].
  - destruct ty; repeat split; cbn; auto using without_tokens.
Qed.

(** The normal form is the state itself exactly when the page is a number
    from 1 upwards. *)
Lemma normalize_in_range (s : State) : normalize s = s <-> page_in_range s.
Proof.
  destruct s as [q cs ms dr flag so pg]. unfold normalize, page_in_range.
  cbn. split.
  - intros H. injection H as H. destruct pg as [|p]; [discriminate H|].
    injection H as H. exists p. split; [reflexivity | lia].
  - intros (p & -> & Hp). do 2 f_equal. lia.
Qed.

(** Four states the page can be in that do not come back as the
    specification asks.  A culture whose name holds a comma is a value the
    checkboxes can offer; toggled on, it is split in two on the way back,
    and one whose name is empty is lost.  A culture whose name holds what
    reads as a percent escape comes back decoded, because [useSearch]
    decodes the address once more than [URLSearchParams] alone.  And a page
    hydrated from [page=-3] comes back as -3: nothing is clamped, so the
    result is not the normal form. *)
Lemma comma_in_facet_breaks_round_trip :
  let s := toggleCulture "Greek, Roman" defaultState in
  let e := toggleCulture "" defaultState in
  let x := toggleCulture "%41" defaultState in
  let o := hydrate "?page=-3" in
  (reachable (fun _ => True) s
   /\ buildQueryString s = "cultures=Greek%2C+Roman"
   /\ cultures (hydrate (buildQueryString s)) = ["Greek"; " Roman"]
   /\ cultures (normalize s) = ["Greek, Roman"]
   /\ hydrate (buildQueryString s) <> normalize s)
  /\ (reachable (fun _ => True) e
      /\ buildQueryString e = "cultures="
      /\ cultures (hydrate (buildQueryString e)) = []
      /\ cultures (normalize e) = [""]
      /\ hydrate (buildQueryString e) <> normalize e)
  /\ (reachable facet_token x
      /\ buildQueryString x = "cultures=%2541"
      /\ cultures (hydrate (buildQueryString x)) = ["A"]
      /\ cultures (normalize x) = ["%41"]
      /\ hydrate (buildQueryString x) <> normalize x)
  /\ (reachable facet_token o
      /\ buildQueryString o = "page=-3"
      /\ currentPage (hydrate (buildQueryString o)) = Num (-3)
      /\ currentPage (normalize o) = Num 1
      /\ hydrate (buildQueryString o) <> normalize o).
Proof.
  cbv zeta. split; [|split; [|split]];
    (split; [|split; [|split; [|split]]]);
    try reflexivity;
    try (apply reach_toggleCulture; [apply reach_default | exact I]);
    try (apply reach_toggleCulture;
         [apply reach_default | split; [discriminate | reflexivity]]);
    try apply reach_hydrate;
    intros H;
    try (apply (f_equal cultures) in H; discriminate H);
    apply (f_equal currentPage) in H; discriminate H.
Qed.

(** C1.  For every state of the page, the one hydrated from any address or
    the default one followed by any facet toggles, slider moves, flag, sort
    and page changes, applies, resets and chip removals, when every toggled
    facet value is non-empty and free of commas and the state holds plain
    text (well-formed UTF-8 in which nothing reads as a percent escape) and
    exact numbers: hydrating from the query string that [buildQueryString]
    builds, with or without the leading [?], gives the state itself, with
    the same facet lists, date range, flag, sort option and page.  Nothing
    is clamped: the result is the normal form of the state only when its
    page is a number from 1 upwards. *)
Theorem round_trip_of_reachable_states (s : State) :
  reachable facet_token s ->
  plain_state s ->
  hydrate (buildQueryString s) = s
  /\ hydrate ("?" ++ buildQueryString s) = s
  /\ (hydrate (buildQueryString s) = normalize s <-> page_in_range s).
Proof.
  intros Hr Hp.
  destruct (hydrate_buildQueryString s (reachable_invariant s Hr) Hp)
    as [H1 H2].
  split; [exact H1|]. split; [exact H2|]. rewrite H1.
  rewrite <- normalize_in_range. split; congruence.
Qed.

(** The round trip on a state hydrated from an address and changed by two
    toggles and a page change. *)
Lemma round_trip_of_reachable_states_witness :
  let s := handlePageChange 3
             (toggleMaterial "bronze"
                (toggleCulture "Roman"
                   (hydrate "?query=black+figure&cultures=Greek&page=-3")))
  in
  hydrate (buildQueryString s) = s.
Proof.
  intro s. refine (proj1 (round_trip_of_reachable_states s _ _)).
  - apply reach_page; [|lia].
    apply reach_toggleMaterial; [|split; [discriminate | reflexivity]].
    apply reach_toggleCulture; [|split; [discriminate | reflexivity]].
    apply reach_hydrate.
  - unfold plain_state. cbn.
    repeat split; try reflexivity; repeat constructor.
Defined.

Lemma hydrate_keeps_out_of_range_page :
  currentPage (hydrate "page=-3") = Num (-3)
  /\ buildQueryString (hydrate "page=-3") = "page=-3"
  /\ currentPage (normalize (hydrate "page=-3")) = Num 1.
Proof. repeat split. Qed.

(** C8.  The default state serializes to the empty query string, and the
    empty query string hydrates to the default state; likewise
    [buildSearchQueryString] maps the parameters with nothing set to the
    empty string and [parseSearchParams] maps the empty string to them. *)
Theorem default_state_is_omitted :
  buildQueryString defaultState = ""
  /\ hydrate "" = defaultState
  /\ Api.buildSearchQueryString Api.empty = ""
  /\ Api.parseSearchParams "" = Api.empty.
Proof. repeat split. Qed.

(** The facets [HomePage] hydrates never hold the empty string. *)
Lemma hydrate_facets_nonempty (location_search : string) :
  ~ In "" (cultures (hydrate location_search))
  /\ ~ In "" (materials (hydrate location_search)).
Proof.
  assert (H : forall v, ~ In "" (facet_of v)).
  { intros [v|]; simpl; [|tauto]. intros Hin.
    apply filter_In in Hin. destruct Hin as [_ Hin]. discriminate Hin. }
  split; apply H.
Qed.

(** [parseSearchParams] keeps every piece between commas. *)
Lemma parseSearchParams_facet (v : option string) :
  Api.members (Api.parse_facet v)
  = match v with
    | Some s => if truthy s then split_on "," s else []
    | None => []
    end.
Proof. destruct v as [[|c s]|]; reflexivity. Qed.

(** C9.  [parseSearchParams] on [cultures=a,,b&materials=,&tags=x,]: the
    parsed cultures, materials and tags each hold the empty string, where
    [HomePage] drops it from the cultures and materials of the same query
    string. *)
Theorem parseSearchParams_keeps_empty_tokens :
  let search := "cultures=a,,b&materials=,&tags=x," in
  let r := Api.parseSearchParams search in
  Api.members (Api.cultures r) = ["a"; ""; "b"]
  /\ Api.members (Api.materials r) = [""; ""]
  /\ Api.members (Api.tags r) = ["x"; ""]
  /\ cultures (hydrate search) = ["a"; "b"]
  /\ materials (hydrate search) = [].
Proof. repeat split. Qed.

End RoundTrip.

(** ** The pagination control *)

Section PaginationFacts.
Import PaginationView.

Lemma count_up_in (n : nat) (i p : Z) :
  In (Some p) (count_up n i) <-> i <= p < i + Z.of_nat n.
Proof.
  revert i; induction n as [|n IH]; intro i; simpl count_up.
  - simpl. lia.
  - simpl In. rewrite IH. split.
    + intros [H|H]; [injection H as ->|]; lia.
    + intros H. destruct (Z.eq_dec i p) as [->|]; [now left | right; lia].
Qed.

Lemma count_up_no_ellipsis (n : nat) (i : Z) : ~ In None (count_up n i).
Proof.
  revert i; induction n as [|n IH]; intro i; simpl; [tauto|].
  intros [H|H]; [discriminate | exact (IH _ H)].
Qed.

Lemma push_range_in (a b p : Z) :
  In (Some p) (push_range a b) <-> a <= p <= b.
Proof. unfold push_range. rewrite count_up_in. lia. Qed.

Lemma push_range_three (a : Z) :
  push_range a (a + 2) = [Some a; Some (a + 1); Some (a + 2)].
Proof.
  unfold push_range. replace (a + 2 - a + 1) with 3 by lia.
  simpl. now replace (a + 1 + 1) with (a + 2) by lia.
Qed.

Lemma numbers_in (l : list entry) (p : Z) : In p (numbers l) <-> In (Some p) l.
Proof.
  induction l as [|[q|] l IH]; simpl; [tauto| |].
  - rewrite IH. split; intros [H|H]; auto; left; congruence.
  - rewrite IH. split; [auto|]. intros [H|H]; [discriminate|auto].
Qed.

Lemma numbers_count_up_sorted (n : nat) (i : Z) :
  StronglySorted Z.lt (numbers (count_up n i)).
Proof.
  revert i; induction n as [|n IH]; intro i; simpl; constructor.
  - apply IH.
  - apply Forall_forall. intros x Hx.
    apply numbers_in, count_up_in in Hx. lia.
Qed.

Lemma no_ellipsis_single (l : list entry) :
  ~ In None l -> single_ellipses l = true.
Proof.
  induction l as [|[p|] l IH]; simpl; intros H.
  - reflexivity.
  - apply IH. tauto.
  - exfalso. apply H. now left.
Qed.

Lemma generatePages_many (currentPage totalPages : Z) :
  7 < totalPages ->
  exists start,
    start = Z.max 2 (Z.min (totalPages - 3) (currentPage - 1)) /\
    generatePages currentPage totalPages =
      ([Some 1] ++ (if 2 <? start then [None] else [])
       ++ [Some start; Some (start + 1); Some (start + 2)]
       ++ (if start + 2 <? totalPages - 1 then [None] else [])
       ++ [Some totalPages])%list.
Proof.
  intros Htp. eexists; split; [reflexivity|].
  set (start := Z.max 2 (Z.min (totalPages - 3) (currentPage - 1))).
  unfold generatePages.
  destruct (totalPages <=? 7) eqn:E; [apply Z.leb_le in E; lia|].
  set (s0 := Z.max 2 (currentPage - 1)).
  set (e0 := Z.min (totalPages - 1) (currentPage + 1)).
  set (e1 := if s0 =? 2 then Z.min (totalPages - 1) (s0 + 2) else e0).
  set (s1 := if e1 =? totalPages - 1 then Z.max 2 (e1 - 2) else s0).
  assert (Hs : s1 = start /\ e1 = start + 2).
  { unfold s1, e1, e0, s0, start.
    destruct (Z.max 2 (currentPage - 1) =? 2) eqn:E1;
      [apply Z.eqb_eq in E1 | apply Z.eqb_neq in E1].
    - destruct (Z.min (totalPages - 1) (Z.max 2 (currentPage - 1) + 2)
                =? totalPages - 1) eqn:E2;
        [apply Z.eqb_eq in E2 | apply Z.eqb_neq in E2]; lia.
    - destruct (Z.min (totalPages - 1) (currentPage + 1) =? totalPages - 1)
        eqn:E2; [apply Z.eqb_eq in E2 | apply Z.eqb_neq in E2]; lia. }
  destruct Hs as [-> ->]. now rewrite push_range_three.
Qed.

(** C7.  For a current page within [1, totalPages]: nothing is rendered
    when there is at most one page; otherwise the entries are strictly
    increasing page numbers with no two ellipses side by side, and contain
    page 1, the last page and the current page.  Up to seven pages all are
    listed, without ellipsis.  Beyond seven the entries are page 1, an
    ellipsis exactly when page 2 is skipped, the three consecutive pages
    [start], [start + 1], [start + 2] whose middle one is the current page
    clamped into [3, totalPages - 2], so that the three stay inside
    [2, totalPages - 1], an ellipsis exactly when page [totalPages - 1] is
    skipped, and the last page.  Ten pages with current page 5 give
    [1, ..., 4, 5, 6, ..., 10]; five pages give [1, 2, 3, 4, 5]. *)
Theorem pagination_page_sequence (currentPage totalPages : Z) :
  1 <= currentPage <= totalPages ->
  (totalPages <= 1 -> Pagination currentPage totalPages = None) /\
  (1 < totalPages ->
   exists l,
     Pagination currentPage totalPages = Some l /\
     StronglySorted Z.lt (numbers l) /\
     single_ellipses l = true /\
     In (Some 1) l /\ In (Some totalPages) l /\ In (Some currentPage) l /\
     (totalPages <= 7 ->
      ~ In None l /\ forall p, In (Some p) l <-> 1 <= p <= totalPages) /\
     (7 < totalPages ->
      exists start,
        start + 1 = Z.max 3 (Z.min (totalPages - 2) currentPage) /\
        2 <= start /\ start + 2 <= totalPages - 1 /\
        start <= Z.max 2 (Z.min (totalPages - 1) currentPage) <= start + 2 /\
        l = ([Some 1] ++ (if 2 <? start then [None] else [])
             ++ [Some start; Some (start + 1); Some (start + 2)]
             ++ (if start + 2 <? totalPages - 1 then [None] else [])
             ++ [Some totalPages])%list)) /\
  Pagination 5 10
    = Some [Some 1; None; Some 4; Some 5; Some 6; None; Some 10] /\
  (forall c, Pagination c 5 = Some [Some 1; Some 2; Some 3; Some 4; Some 5]).
Proof.
  intros Hrange. split; [|split; [|split; [reflexivity | intro; reflexivity]]].
  - intros H. unfold Pagination.
    destruct (totalPages <=? 1) eqn:E; [reflexivity | apply Z.leb_gt in E; lia].
  - intros Hmore. unfold Pagination.
    destruct (totalPages <=? 1) eqn:E; [apply Z.leb_le in E; lia | clear E].
    eexists; split; [reflexivity|].
    destruct (Z.le_gt_cases totalPages 7) as [Hfew|Hmany].
    + assert (Hg : generatePages currentPage totalPages
                   = push_range 1 totalPages).
      { unfold generatePages.
        destruct (totalPages <=? 7) eqn:E; [reflexivity|].
        apply Z.leb_gt in E; lia. }
      rewrite Hg.
      assert (Hnone : ~ In None (push_range 1 totalPages))
        by apply count_up_no_ellipsis.
      split; [apply numbers_count_up_sorted|].
      split; [now apply no_ellipsis_single|].
      split; [apply push_range_in; lia|].
      split; [apply push_range_in; lia|].
      split; [apply push_range_in; lia|].
      split; [|intros; lia].
      intros _. split; [exact Hnone|]. intro p. apply push_range_in.
    + destruct (generatePages_many currentPage totalPages Hmany)
        as (start & Hstart & ->).
      assert (Hmid' : start + 1
                      = Z.max 3 (Z.min (totalPages - 2) currentPage)) by lia.
      assert (Hlo : 2 <= start) by lia.
      assert (Hhi : start + 2 <= totalPages - 1) by lia.
      assert (Hin : start <= Z.max 2 (Z.min (totalPages - 1) currentPage)
                    <= start + 2) by lia.
      assert (Hcur : currentPage = 1 \/ currentPage = totalPages
                     \/ currentPage = start \/ currentPage = start + 1
                     \/ currentPage = start + 2) by lia.
      clear Hstart.
      assert (Hlast : forall a b c : list entry,
                 In (Some totalPages)
                    ([Some 1] ++ a ++ b ++ c ++ [Some totalPages])).
      { intros a b c. apply in_or_app; right. apply in_or_app; right.
        apply in_or_app; right. apply in_or_app; right. now left. }
      assert (Hmid : forall (a c : list entry) x,
                 In x [Some start; Some (start + 1); Some (start + 2)] ->
                 In x ([Some 1] ++ a
                       ++ [Some start; Some (start + 1); Some (start + 2)]
                       ++ c ++ [Some totalPages])).
      { intros a c x Hx. apply in_or_app; right. apply in_or_app; right.
        apply in_or_app; now left. }
      split.
      { destruct (2 <? start), (start + 2 <? totalPages - 1); simpl;
          repeat (constructor; try lia). }
      split.
      { destruct (2 <? start), (start + 2 <? totalPages - 1); reflexivity. }
      split; [now left|].
      split; [apply Hlast|].
      split.
      { destruct Hcur as [->|[->|[->|[->| ->]]]].
        - now left.
        - apply Hlast.
        - apply Hmid; simpl; auto.
        - apply Hmid; simpl; auto.
        - apply Hmid; simpl; auto. }
      split; [intros; lia|].
      intros _. exists start. split; [exact Hmid'|].
      split; [exact Hlo|]. split; [exact Hhi|]. split; [exact Hin|].
      reflexivity.
Qed.

(** Ten pages, current page 5. *)
Lemma pagination_page_sequence_witness :
  1 <= 5 <= 10 /\
  exists l, PaginationView.Pagination 5 10 = Some l
            /\ StronglySorted Z.lt (numbers l).
Proof.
  split; [lia|].
  destruct (pagination_page_sequence 5 10 ltac:(lia)) as (_ & H & _).
  destruct (H ltac:(lia)) as (l & Hl & Hs & _).
  exists l. now split.
Defined.

End PaginationFacts.

(** ** Query compilation *)

Section CompilerFacts.
Import Schema Storage Routes.

Lemma in_push_if {A : Type} (cond : bool) (x y : A) (l : list A) :
  In y (push_if cond x l) <-> (cond = true /\ y = x) \/ In y l.
Proof.
  unfold push_if. destruct cond.
  - rewrite in_app_iff. simpl. intuition congruence.
  - intuition congruence.
Qed.

Lemma in_push_terms (f : string) (x : option Api.strs) (c : FilterClause)
    (l : list FilterClause) :
  In c (push_terms f x l) -> (exists vs, c = terms f vs) \/ In c l.
Proof.
  unfold push_terms. destruct (facet_values x) as [vs|]; [|now right].
  rewrite in_push_if. intros [[_ ->]|H]; [left; now exists vs | now right].
Qed.




(** Sorting by date compiles to the single key [date_start asc] in both
    modes; [id asc] is not among the sort keys. *)
Lemma no_id_tiebreak_for_date_sort :
  let p := Samples.scenario_by_date in
  engine_sort_keys p = [mkSort "date_start" asc]
  /\ fallback_sort_keys p = [mkSort "date_start" asc]
  /\ ~ In id_ascending (engine_sort_keys p)
  /\ ~ In id_ascending (fallback_sort_keys p).
Proof.
  cbv zeta. repeat split; try reflexivity;
    intros [H|[]]; discriminate H.
Qed.

(** C5.  In both modes the compiled query orders by at most one key, the
    primary key of the sort mode: [date_start] ascending or descending for
    the two date modes, [title] ascending for [az], [id] descending for
    [relevance] (in engine mode only when there is no query text, the
    relevance score ordering the hits otherwise).  No ascending [id] key is
    added in either mode. *)
Theorem sort_keys_single_primary (p : ArtifactSearchParams) :
  engine_sort_keys p
  = match sort p with
    | date_asc => [mkSort "date_start" asc]
    | date_desc => [mkSort "date_start" desc]
    | az => [mkSort "title" asc]
    | relevance =>
        if opt_truthy (query p) then [] else [mkSort "id" desc]
    end
  /\ fallback_sort_keys p
     = [match sort p with
        | date_asc => mkSort "date_start" asc
        | date_desc => mkSort "date_start" desc
        | az => mkSort "title" asc
        | relevance => mkSort "id" desc
        end]
  /\ ~ In id_ascending (engine_sort_keys p)
  /\ ~ In id_ascending (fallback_sort_keys p).
Proof.
  unfold engine_sort_keys, fallback_sort_keys, buildElasticsearchQuery,
    fallback_options, id_ascending.
  cbn [EsBody.sort ListOptions.sortBy ListOptions.sortDir].
  destruct (sort p); cbn; try destruct (opt_truthy (query p)); cbn;
    repeat split; try reflexivity; intros H;
    repeat (destruct H as [H|H]; try discriminate H); try contradiction.
Qed.

(** The scenario of the specification: text [axe], culture Roman, years
    -500 to 200, page 2 of 12 rows. *)
Lemma scenario_compiles :
  let req := engine_request Samples.scenario in
  from req = 12 /\ size req = 12
  /\ In (terms "culture" ["Roman"]) (filter (EsBody.query (body req)))
  /\ In (range {| gte := Some (-500); lte := None |}
               (Some {| gte := None; lte := Some 200 |}))
        (filter (EsBody.query (body req)))
  /\ must (EsBody.query (body req))
     = [multi_match "axe" search_fields "AUTO"]
  /\ EsBody.sort (body req) = None.
Proof. cbv zeta. repeat split; simpl; auto. Qed.

End CompilerFacts.

(** ** Storage *)

Section StorageFacts.
Import Schema Storage.
Context {A : Type} (leb : A -> A -> bool).
Hypothesis leb_total : forall a b, leb a b = true \/ leb b a = true.

Lemma insert_perm (x : A) (l : list A) : Permutation (x :: l) (insert leb x l).
Proof.
  induction l as [|y r IH]; simpl; [reflexivity|].
  destruct (leb x y); [reflexivity|].
  rewrite perm_swap. now constructor.
Qed.

Lemma order_by_perm (l : list A) : Permutation l (order_by leb l).
Proof.
  induction l as [|x r IH]; simpl; [constructor|].
  rewrite <- insert_perm. now constructor.
Qed.

Lemma insert_sorted (x : A) (l : list A) :
  Sorted (fun a b => leb a b = true) l ->
  Sorted (fun a b => leb a b = true) (insert leb x l).
Proof.
  induction 1 as [|y r Hs IH Hhd]; simpl.
  - repeat constructor.
  - destruct (leb x y) eqn:E.
    + constructor; [now constructor | now constructor].
    + constructor; [exact IH|].
      destruct r as [|z r]; simpl.
      * constructor. destruct (leb_total x y); congruence.
      * destruct (leb x z); constructor.
        -- destruct (leb_total x y); congruence.
        -- now inversion Hhd.
Qed.

Lemma order_by_sorted (l : list A) :
  Sorted (fun a b => leb a b = true) (order_by leb l).
Proof.
  induction l as [|x r IH]; simpl; [constructor | now apply insert_sorted].
Qed.

End StorageFacts.

Section ImageFacts.
Import Schema Storage Routes.

Lemma opt_leb_total (a b : option Z) :
  opt_leb a b = true \/ opt_leb b a = true.
Proof. destruct a, b; simpl; auto; lia. Qed.

(** The images of an artifact come back in ascending [sort_order], and
    they are exactly the rows of that artifact. *)
Lemma getArtifactImages_sorted (db : Database) (artifactId : Z) :
  Sorted (fun a b => opt_leb (ArtifactImage.sort_order a)
                             (ArtifactImage.sort_order b) = true)
         (getArtifactImages db artifactId)
  /\ Permutation
       (List.filter (fun i => ArtifactImage.artifact_id i =? artifactId)
                    (artifactImages db))
       (getArtifactImages db artifactId).
Proof.
  unfold getArtifactImages. split.
  - apply (order_by_sorted
             (fun a b => opt_leb (ArtifactImage.sort_order a)
                                 (ArtifactImage.sort_order b))).
    intros a b. apply opt_leb_total.
  - apply order_by_perm.
Qed.

(** The enrichment lists the URLs in that order and takes the first of
    them as the primary one, whatever [is_primary] says. *)
Lemma enrich_images (db : Database) (r : Row) :
  images (enrich db r)
  = Some {| image_urls :=
              map ArtifactImage.url (getArtifactImages db (row_id r));
            primary_image_url :=
              match getArtifactImages db (row_id r) with
              | i :: _ =>
                  if JS.truthy (ArtifactImage.url i)
                  then Some (ArtifactImage.url i) else None
              | [] => None
              end |}.
Proof.
  unfold enrich. cbn [images]. do 2 f_equal.
  now destruct (getArtifactImages db (row_id r)).
Qed.

(** C2.  An artifact with three images, the second by [sort_order] flagged
    primary: the search lists the three URLs by [sort_order], but reports
    the first of them as [primary_image_url], not the flagged one, which is
    the image the detail page picks from the same rows. *)
Theorem search_primary_image_is_first_by_sort_order :
  let db := Samples.gallery in
  option_map (map images)
    (response_items (response (search enriching None db [])))
  = Some [Some {| image_urls := ["/img/a.jpg"; "/img/b.jpg"; "/img/c.jpg"];
                  primary_image_url := Some "/img/a.jpg" |}]
  /\ map ArtifactImage.is_primary (getArtifactImages db 1)
     = [Some false; Some true; Some false]
  /\ option_map ArtifactImage.url
       (DetailPage.primaryImage (getArtifactImages db 1))
     = Some "/img/b.jpg".
Proof. repeat split. Qed.

End ImageFacts.

(** ** The search handler *)

Section HandlerFacts.
Import Schema Storage Routes.

Lemma items_of_length (rev : Revision) (db : Database) (rows : list Row) :
  List.length (items_of rev db rows) = List.length rows.
Proof. destruct rev; simpl; apply length_map. Qed.

(** In fallback mode the reported total is the length of the page, hence
    never more than a page size that is not negative. *)
Lemma fallback_total_is_page_length (rev : Revision) (db : Database)
    (q : list (string * qval)) (pg : Pagination.t) :
  response_pagination (response (search rev None db q)) = Some pg ->
  exists items,
    response_items (response (search rev None db q)) = Some items
    /\ Pagination.total pg = len items
    /\ (0 <= Pagination.limit pg ->
        Pagination.total pg <= Pagination.limit pg).
Proof.
  unfold search. destruct (Schema.parse (raw_params q)) as [iss|p];
    [discriminate|].
  unfold listArtifacts. cbv zeta.
  destruct ((ListOptions.offset (fallback_options p) <? 0)
            || (int8_max <? ListOptions.offset (fallback_options p))
            || (int8_max <? ListOptions.limit (fallback_options p)));
    [discriminate|].
  cbn. intros H; injection H as <-. cbn.
  eexists; split; [reflexivity|]. split; [reflexivity|].
  intros Hl. destruct (limit p <? 0) eqn:E; [apply Z.ltb_lt in E; lia|].
  unfold len. rewrite items_of_length, length_map, length_firstn. lia.
Qed.

(** So the total is short of the row count as soon as the store holds more
    rows than one page. *)
Lemma fallback_total_short_of_count (rev : Revision) (db : Database)
    (q : list (string * qval)) (pg : Pagination.t) :
  response_pagination (response (search rev None db q)) = Some pg ->
  0 <= Pagination.limit pg < matching_rows db ->
  Pagination.total pg < matching_rows db.
Proof.
  intros Hpg Hmore.
  destruct (fallback_total_is_page_length rev db q pg Hpg)
    as (items & _ & _ & Hle).
  lia.
Qed.

(** C3.  A store of three artifacts searched in fallback mode with a page
    size of 2: the first page reports a total of 2 and the second a total
    of 1, the number of rows on the page, while three rows match. *)
Theorem fallback_total_counts_page_rows (rev : Revision) :
  let db := Samples.store in
  matching_rows db = 3
  /\ response_pagination
       (response (search rev None db [("limit", QStr "2")]))
     = Some {| Pagination.page := 1; Pagination.limit := 2;
               Pagination.total := 2; Pagination.totalPages := Finite 1 |}
  /\ response_pagination
       (response (search rev None db
                    [("limit", QStr "2"); ("page", QStr "2")]))
     = Some {| Pagination.page := 2; Pagination.limit := 2;
               Pagination.total := 1; Pagination.totalPages := Finite 1 |}.
Proof. destruct rev; repeat split. Qed.

End HandlerFacts.

Section FallbackFacts.
Import Schema Storage Routes.




End FallbackFacts.

Section ValidationFacts.
Import Schema Storage Routes.

Lemma check_sort_invalid (v : qval) :
  ~ valid_sort v -> exists i, check_sort v = inl i /\ path i = ["sort"].
Proof.
  intros Hv. destruct v as [s| |]; cbn; try (eexists; split; reflexivity).
  unfold sort_of_string.
  destruct (String.eqb_spec s "relevance") as [->|_];
    [exfalso; apply Hv; unfold valid_sort; auto|].
  destruct (String.eqb_spec s "date_asc") as [->|_];
    [exfalso; apply Hv; unfold valid_sort; auto|].
  destruct (String.eqb_spec s "date_desc") as [->|_];
    [exfalso; apply Hv; unfold valid_sort; auto|].
  destruct (String.eqb_spec s "az") as [->|_];
    [exfalso; apply Hv; unfold valid_sort; auto|].
  eexists; split; reflexivity.
Qed.

Lemma parse_reports_sort (raw : Raw.t) (i : ZodIssue) :
  check_sort (Raw.sort raw) = inl i ->
  exists issues, Schema.parse raw = inl issues /\ In i issues.
Proof.
  intros H. unfold Schema.parse. rewrite H.
  destruct (check_string "query" (Raw.query raw)),
           (check_strs "cultures" (Raw.cultures raw)),
           (check_strs "materials" (Raw.materials raw)),
           (check_number_opt "dateStart" (Raw.dateStart raw)),
           (check_number_opt "dateEnd" (Raw.dateEnd raw)),
           (check_strs "tags" (Raw.tags raw)),
           (check_string "site" (Raw.site raw)),
           (check_number "page" (Raw.page raw)),
           (check_number "limit" (Raw.limit raw));
    (eexists; split; [reflexivity | cbn; tauto]).
Qed.

(** [sort=] (present, empty) is none of the four modes, yet the search runs
    with the default mode and answers 200. *)
Lemma empty_sort_is_accepted :
  let q := [("sort", QStr "")] in
  lookup "sort" q = Some (QStr "")
  /\ ~ valid_sort (QStr "")
  /\ exists b, search plain None Samples.store q
               = {| calls :=
                      [db_listArtifacts
                         {| ListOptions.limit := 12;
                            ListOptions.offset := 0;
                            ListOptions.sortBy := col_id;
                            ListOptions.sortDir := desc |}];
                    response := json 200 b |}.
Proof.
  cbv zeta. split; [reflexivity|]. split.
  - unfold valid_sort. intros [H|[H|[H|H]]]; discriminate H.
  - eexists. reflexivity.
Qed.

(** C10.  A request whose [sort] parameter is present, not the empty
    string, and none of [relevance], [date_asc], [date_desc], [az] is
    answered with status 400, the message and the list of validation issues,
    one of which has the path [sort]; no call is made to the engine or the
    store. *)
Theorem invalid_sort_is_rejected (rev : Revision) (esClient : option EsClient)
    (db : Database) (q : list (string * qval)) (v : qval) :
  lookup "sort" q = Some v ->
  v <> QStr "" ->
  ~ valid_sort v ->
  exists issues,
    search rev esClient db q
    = {| calls := [];
         response :=
           json 400 [("message", f_message "Invalid search parameters");
                     ("errors", f_errors issues)] |}
    /\ exists i, In i issues /\ path i = ["sort"].
Proof.
  intros Hq Hne Hv.
  destruct (check_sort_invalid v Hv) as (i & Hi & Hpath).
  assert (Hraw : Raw.sort (raw_params q) = v).
  { unfold raw_params; cbn [Raw.sort]. rewrite Hq.
    destruct v as [[|c s]| |]; cbn; try reflexivity. congruence. }
  destruct (parse_reports_sort (raw_params q) i) as (issues & Hparse & Hin).
  { now rewrite Hraw. }
  exists issues. split.
  - unfold search. now rewrite Hparse.
  - now exists i.
Qed.

(** [sort=newest] is rejected. *)
Lemma invalid_sort_is_rejected_witness :
  exists issues,
    search plain None Samples.store [("sort", QStr "newest")]
    = {| calls := [];
         response :=
           json 400 [("message", f_message "Invalid search parameters");
                     ("errors", f_errors issues)] |}
    /\ exists i, In i issues /\ path i = ["sort"].
Proof.
  apply (invalid_sort_is_rejected plain None Samples.store
           [("sort", QStr "newest")] (QStr "newest")).
  - reflexivity.
  - discriminate.
  - unfold valid_sort. intros [H|[H|[H|H]]]; discriminate H.
Defined.

End ValidationFacts.

(** ** More on the filter state *)

Section FilterStateFacts.
Import JS HomePage.

Lemma includes_app (v : string) (a b : list string) :
  includes v (a ++ b) = includes v a || includes v b.
Proof. unfold includes. apply existsb_app. Qed.

Lemma includes_without (w v : string) (l : list string) :
  includes w (without v l) = includes w l && negb (String.eqb w v).
Proof.
  unfold includes, without. induction l as [|x r IH]; [reflexivity|].
  cbn [filter existsb].
  destruct (String.eqb_spec x v) as [->|Hxv]; cbn [negb].
  - rewrite IH. destruct (String.eqb_spec w v) as [->|Hwv]; cbn.
    + now rewrite !andb_false_r.
    + now rewrite andb_true_r.
  - cbn [existsb]. rewrite IH.
    destruct (String.eqb_spec w x) as [->|Hwx]; cbn; [|reflexivity].
    destruct (String.eqb_spec x v); [contradiction | reflexivity].
Qed.

(** X1.  A checkbox flips the membership of its own value and of no other. *)
Theorem toggle_flips_membership (v : string) (s : State) :
  includes v (cultures (toggleCulture v s)) = negb (includes v (cultures s))
  /\ includes v (materials (toggleMaterial v s))
     = negb (includes v (materials s))
  /\ (forall w, w <> v ->
      includes w (cultures (toggleCulture v s)) = includes w (cultures s)
      /\ includes w (materials (toggleMaterial v s))
         = includes w (materials s)).
Proof.
  assert (H : forall l,
             includes v (toggle v l) = negb (includes v l)
             /\ forall w, w <> v -> includes w (toggle v l) = includes w l).
  { intros l. unfold toggle. destruct (includes v l) eqn:E.
    - split.
      + rewrite includes_without, String.eqb_refl. now rewrite andb_false_r.
      + intros w Hw. rewrite includes_without.
        destruct (String.eqb_spec w v); [contradiction|].
        now rewrite andb_true_r.
    - split.
      + rewrite includes_app, E. cbn. now rewrite String.eqb_refl.
      + intros w Hw. rewrite includes_app. cbn.
        destruct (String.eqb_spec w v); [contradiction|].
        now rewrite !orb_false_r. }
  cbn [cultures materials toggleCulture toggleMaterial].
  split; [apply H|]. split; [apply H|].
  intros w Hw. split; now apply H.
Qed.

Lemma has_get (name : string) (p : URLSearchParams.t) :
  URLSearchParams.has name p
  = match URLSearchParams.get name p with Some _ => true | None => false end.
Proof. reflexivity. Qed.

(** The names [buildQueryString] writes are the eight of [HomePage]. *)
Lemma queryParams_names (s : State) :
  Forall (fun kv => In (fst kv) Conditions.home_params) (queryParams s).
Proof.
  assert (H : forall cond k v p,
             Forall (fun kv => In (fst kv) Conditions.home_params) p ->
             In k Conditions.home_params ->
             Forall (fun kv => In (fst kv) Conditions.home_params)
                    (append_if cond k v p)).
  { intros cond k v p Hp Hk. unfold append_if, URLSearchParams.append.
    destruct cond; [|exact Hp]. apply Forall_app. split; [exact Hp|].
    constructor; [exact Hk | constructor]. }
  unfold queryParams. cbv zeta.
  repeat apply H; try (unfold Conditions.home_params; simpl; tauto).
  constructor.
Qed.

(** Reading the pairs as UTF-8 changes no name among the eight, so the
    same names are present before and after. *)
Lemma has_decoded (name : string) (p : URLSearchParams.t) :
  Forall (fun kv => In (fst kv) Conditions.home_params) p ->
  URLSearchParams.has name
    (map (fun kv => (UTF8.decode (fst kv), UTF8.decode (snd kv))) p)
  = URLSearchParams.has name p.
Proof.
  unfold URLSearchParams.has.
  induction 1 as [|[k v] p Hk Hp IH]; [reflexivity|].
  cbn [map URLSearchParams.get fst snd].
  assert (Ek : UTF8.decode k = k).
  { cbn [fst] in Hk. unfold Conditions.home_params in Hk.
    repeat (destruct Hk as [<-|Hk]; [reflexivity|]). contradiction. }
  rewrite Ek. destruct (String.eqb k name); [reflexivity | exact IH].
Qed.

Lemma has_name (name : string) (p : URLSearchParams.t) :
  URLSearchParams.has name p = true -> In name (map fst p).
Proof.
  unfold URLSearchParams.has. induction p as [|[k v] p IH]; [discriminate|].
  cbn [URLSearchParams.get map fst].
  destruct (String.eqb_spec k name) as [->|Hne]; [now left|].
  intros H. right. now apply IH.
Qed.

(** X2.  The query string names a parameter exactly when its field departs
    from the default, and names no parameter besides the eight of
    [HomePage]. *)
Theorem query_string_omits_defaults (s : State) :
  let p := URLSearchParams.parse (buildQueryString s) in
  URLSearchParams.has "query" p = truthy (searchQuery s)
  /\ URLSearchParams.has "cultures" p
     = (0 <? Z.of_nat (List.length (cultures s)))
  /\ URLSearchParams.has "materials" p
     = (0 <? Z.of_nat (List.length (materials s)))
  /\ URLSearchParams.has "dateStart" p
     = number_neq (fst (dateRange s)) (Num (-3000))
  /\ URLSearchParams.has "dateEnd" p
     = number_neq (snd (dateRange s)) (Num 2000)
  /\ URLSearchParams.has "has3dModel" p = has3dModel s
  /\ URLSearchParams.has "sort" p
     = negb (String.eqb (sortOption s) "relevance")
  /\ URLSearchParams.has "page" p = number_neq (currentPage s) (Num 1)
  /\ (forall name, URLSearchParams.has name p = true ->
      In name Conditions.home_params).
Proof.
  cbv zeta. unfold buildQueryString. rewrite parse_to_string_decoded.
  rewrite !(has_decoded _ _ (queryParams_names s)).
  rewrite !has_get.
  destruct (queryParams_get s) as (-> & -> & -> & -> & -> & -> & -> & ->).
  repeat (split; [match goal with
                  | |- context [if ?b then _ else _] => now destruct b
                  end|]).
  intros name. rewrite (has_decoded _ _ (queryParams_names s)).
  intros H. apply has_name in H. apply in_map_iff in H.
  destruct H as (kv & <- & Hin).
  exact (proj1 (Forall_forall _ _) (queryParams_names s) kv Hin).
Qed.

End FilterStateFacts.

(** ** Hydration *)

Section HydrationFacts.
Import JS HomePage.

Lemma get_app_other (k name value : string) (p : URLSearchParams.t) :
  name <> k ->
  URLSearchParams.get k (p ++ [(name, value)])%list
  = URLSearchParams.get k p.
Proof.
  intros Hne. induction p as [|[k' v'] p IH]; simpl.
  - destruct (String.eqb_spec name k); [contradiction | reflexivity].
  - now rewrite IH.
Qed.

(** X3.  A parameter [HomePage] does not know, added to a list of
    parameters, leaves the hydrated state as it was, when the names and
    values are plain text: well-formed UTF-8 in which nothing reads as a
    percent escape. *)
Theorem hydrate_ignores_unknown_parameter (p : URLSearchParams.t)
    (name value : string) :
  Conditions.plain_params p ->
  Conditions.plain name = true ->
  Conditions.plain value = true ->
  ~ In name Conditions.home_params ->
  hydrate ("?" ++ URLSearchParams.to_string
                    (URLSearchParams.append name value p))
  = hydrate ("?" ++ URLSearchParams.to_string p).
Proof.
  intros Hp Hn Hv Hname.
  assert (Hp' : Conditions.plain_params (URLSearchParams.append name value p)).
  { apply Forall_app. split; [exact Hp|]. constructor; [|constructor].
    now split. }
  unfold hydrate. cbv zeta.
  rewrite (proj2 (parse_useSearch _ Hp')), (proj2 (parse_useSearch _ Hp)).
  unfold URLSearchParams.append.
  assert (H : forall k, In k Conditions.home_params ->
              URLSearchParams.get k (p ++ [(name, value)])%list
              = URLSearchParams.get k p).
  { intros k Hk. apply get_app_other. intros ->. contradiction. }
  rewrite !H by (unfold Conditions.home_params; simpl; tauto).
  reflexivity.
Qed.

(** A tracking parameter after [cultures=Roman&page=2]. *)
Lemma hydrate_ignores_unknown_parameter_witness :
  let p := [("cultures", "Roman"); ("page", "2")] in
  hydrate ("?" ++ URLSearchParams.to_string
                    (URLSearchParams.append "utm_source" "mail" p))
  = hydrate ("?" ++ URLSearchParams.to_string p).
Proof.
  intro p. apply hydrate_ignores_unknown_parameter.
  - repeat constructor.
  - reflexivity.
  - reflexivity.
  - unfold Conditions.home_params. simpl.
    intros [H|[H|[H|[H|[H|[H|[H|[H|[]]]]]]]]]; discriminate H.
Defined.

(** X4.  Whatever the address bar holds, the facet values [HomePage]
    hydrates are non-empty and free of commas, and the sort option is not
    empty. *)
Theorem hydrated_facets_are_tokens (search : string) :
  Forall facet_token (cultures (hydrate search))
  /\ Forall facet_token (materials (hydrate search))
  /\ sortOption (hydrate search) <> "".
Proof. exact (hydrate_well_formed search). Qed.

End HydrationFacts.

(** ** The search bar *)

Section SearchBarFacts.
Import JS HomePage SearchBar.






End SearchBarFacts.

(** ** [buildSearchQueryString] and [parseSearchParams] *)

Section ApiFacts.
Import JS Api.

Lemma get_append_opt_other (name k : string) (v : option string)
    (p : URLSearchParams.t) :
  String.eqb k name = false ->
  URLSearchParams.get name (append_opt k v p) = URLSearchParams.get name p.
Proof.
  intros Hk. unfold append_opt, URLSearchParams.append.
  destruct v as [v|]; [|reflexivity].
  induction p as [|[k' v'] p IH]; simpl.
  - now rewrite Hk.
  - now rewrite IH.
Qed.

Lemma get_append_opt_same (k : string) (v : option string)
    (p : URLSearchParams.t) :
  URLSearchParams.get k p = None ->
  URLSearchParams.get k (append_opt k v p) = v.
Proof.
  unfold append_opt, URLSearchParams.append.
  destruct v as [v|]; [|auto].
  induction p as [|[k' v'] p IH]; simpl.
  - now rewrite String.eqb_refl.
  - destruct (String.eqb k' k); [discriminate | exact IH].
Qed.

Lemma when_present_get {A : Type} (p : URLSearchParams.t) (name : string)
    (f : option string -> option A) :
  f None = None ->
  when_present p name f = f (URLSearchParams.get name p).
Proof.
  intros Hf. unfold when_present, URLSearchParams.has.
  now destruct (URLSearchParams.get name p).
Qed.

Lemma join_tokens_truthy (l : list string) :
  l <> [] -> Forall HomePage.facet_token l -> truthy (join "," l) = true.
Proof.
  intros Hne Hall. destruct Hall as [|x r [Hx _] _]; [congruence|].
  destruct x as [|c x]; [congruence|]. now destruct r.
Qed.

Lemma facet_parsed_back (x : option strs) :
  Conditions.parsed_facet x -> parse_facet (facet_value x) = x.
Proof.
  destruct x as [[s|l]|]; simpl; [tauto | | reflexivity].
  intros (Hne & Hall & _). rewrite (join_tokens_truthy l Hne Hall).
  change "," with (String ","%char ""). rewrite split_on_join; auto.
  eapply Forall_impl; [|exact Hall]. now intros a [_ Ha].
Qed.

Lemma text_parsed_back (x : option string) :
  Conditions.parsed_text x -> truthy_opt (truthy_opt x) = x.
Proof. destruct x as [[|c s]|]; simpl; try reflexivity. now intros [H _]. Qed.

Lemma sort_parsed_back (x : option string) :
  Conditions.parsed_text x -> truthy_opt x = x.
Proof. destruct x as [[|c s]|]; simpl; try reflexivity. now intros [H _]. Qed.

Lemma valid_join (l : list string) :
  Forall (fun v => UTF8.valid v = true) l -> UTF8.valid (join "," l) = true.
Proof.
  induction 1 as [|x r Hx Hr IH]; [reflexivity|].
  destruct r as [|y r]; [exact Hx|].
  change (join "," (x :: y :: r)) with (x ++ String "," (join "," (y :: r))).
  apply valid_app; [exact Hx | exact IH].
Qed.

Lemma valid_toString (n : number) : UTF8.valid (toString n) = true.
Proof. exact (proj1 (proj1 (plain_split _) (plain_toString n))). Qed.

(** The names and values [buildSearchQueryString] writes for parameters
    in parsed form are well-formed UTF-8. *)
Lemma valid_append_opt (k : string) (v : option string)
    (p : URLSearchParams.t) :
  Forall (fun kv => UTF8.valid (fst kv) = true
                    /\ UTF8.valid (snd kv) = true) p ->
  UTF8.valid k = true ->
  (forall s, v = Some s -> UTF8.valid s = true) ->
  Forall (fun kv => UTF8.valid (fst kv) = true
                    /\ UTF8.valid (snd kv) = true) (append_opt k v p).
Proof.
  intros Hp Hk Hv. unfold append_opt, URLSearchParams.append.
  destruct v as [s|]; [|exact Hp]. apply Forall_app. split; [exact Hp|].
  constructor; [|constructor]. split; [exact Hk | now apply Hv].
Qed.

Lemma valid_text (x : option string) (s : string) :
  Conditions.parsed_text x -> truthy_opt x = Some s -> UTF8.valid s = true.
Proof.
  destruct x as [t|]; [|intros _ H; discriminate H]. intros [_ Ht]. simpl.
  destruct (truthy t); [|discriminate]. now intros H; injection H as <-.
Qed.

Lemma valid_given (x : option string) (s : string) :
  Conditions.parsed_text x -> x = Some s -> UTF8.valid s = true.
Proof. intros H ->. exact (proj2 H). Qed.

Lemma valid_number (x : option number) (s : string) :
  option_map toString x = Some s -> UTF8.valid s = true.
Proof.
  destruct x as [n|]; [|discriminate]. intros H; injection H as <-.
  apply valid_toString.
Qed.

Lemma valid_flag (x : option bool) (s : string) :
  option_map bool_toString x = Some s -> UTF8.valid s = true.
Proof.
  destruct x as [[]|]; [| |discriminate]; intros H; injection H as <-;
    reflexivity.
Qed.

Lemma valid_facet (x : option strs) (s : string) :
  Conditions.parsed_facet x -> facet_value x = Some s -> UTF8.valid s = true.
Proof.
  destruct x as [[t|l]|]; simpl; [tauto | | intros _ H; discriminate H].
  intros (_ & _ & Hv) H. injection H as <-. now apply valid_join.
Qed.

Lemma number_parsed_back (x : option number) :
  parse_number (option_map toString x) = x.
Proof.
  destruct x as [n|]; simpl; [|reflexivity].
  now rewrite toString_truthy, parseInt_toString.
Qed.

(** X7.  Parameters in parsed form, their texts well-formed UTF-8 and
    their numbers exact, come back unchanged from their own query string. *)
Theorem parseSearchParams_buildSearchQueryString (p : SearchParams) :
  Conditions.parsed p ->
  parseSearchParams (buildSearchQueryString p) = p.
Proof.
  intros (Hq & Hc & Hm & Ht & Hs & Hso & _).
  unfold parseSearchParams, buildSearchQueryString. cbv zeta.
  rewrite parse_to_string.
  2:{ repeat apply valid_append_opt; try reflexivity; try constructor;
        intros s H;
        first [ exact (valid_text _ s Hq H) | exact (valid_text _ s Hs H)
              | exact (valid_facet _ s Hc H) | exact (valid_facet _ s Hm H)
              | exact (valid_facet _ s Ht H) | exact (valid_given _ s Hso H)
              | exact (valid_number _ s H) | exact (valid_flag _ s H) ]. }
  rewrite !when_present_get by reflexivity.
  repeat match goal with
         | |- context [URLSearchParams.get ?n (append_opt ?k ?v ?q)] =>
             first
               [ rewrite (get_append_opt_other n k v q) by reflexivity
               | rewrite (get_append_opt_same k v q)
                   by (repeat rewrite get_append_opt_other by reflexivity;
                       reflexivity) ]
         end.
  rewrite (text_parsed_back _ Hq), (facet_parsed_back _ Hc),
    (facet_parsed_back _ Hm), (facet_parsed_back _ Ht),
    (text_parsed_back _ Hs), (sort_parsed_back _ Hso),
    !number_parsed_back.
  destruct p as [q c m ds de t si h pg li so]. cbn. f_equal.
  now destruct h as [[]|].
Qed.

(** Text, two cultures, a start year, a tag, page 2, sorted by title. *)
Lemma parseSearchParams_buildSearchQueryString_witness :
  let p := {| query := Some "axe";
              cultures := Some (Many ["Roman"; "Greek"]);
              materials := None;
              dateStart := Some (Num (-500));
              dateEnd := None;
              tags := Some (Many ["votive"]);
              site := None;
              has3dModel := Some false;
              page := Some (Num 2);
              limit := None;
              sort := Some "az" |} in
  parseSearchParams (buildSearchQueryString p) = p.
Proof.
  intro p. apply parseSearchParams_buildSearchQueryString.
  unfold Conditions.parsed, HomePage.facet_token; cbn.
  repeat split; try discriminate; repeat constructor; try discriminate.
Defined.


End ApiFacts.

(** ** Date labels *)

Section DateFacts.
Import JS ApiDates.

Lemma digits_fuel_acc (fuel : nat) :
  forall n acc, digits_fuel fuel n acc = digits_fuel fuel n "" ++ acc.
Proof.
  induction fuel as [|f IH]; intros n acc; [reflexivity|].
  cbn [digits_fuel]. cbv zeta. destruct (n <? 10); [reflexivity|].
  rewrite (IH _ (String _ acc)), (IH _ (String _ "")).
  now rewrite append_char.
Qed.

(** A printed number followed by a space still reads as that number. *)
Lemma parseInt_label (n : Z) (rest : string) :
  1 <= n -> parseInt (nat_digits n ++ String " " rest) = Num n.
Proof.
  intros H. unfold nat_digits. rewrite <- digits_fuel_acc.
  destruct (digits_fuel_head _ n (String " " rest) (nat_digits_fuel n H))
    as (d & tl & Hd & Hs).
  destruct (fold_digits_fuel (S (Z.to_nat (Z.log2 n))) n (String " " rest))
    as [m Hm].
  { pose proof (nat_digits_fuel n H). lia. }
  assert (Hval : fold_digits (String (digit_char d) tl) 0 = n).
  { rewrite <- Hs, Hm. reflexivity. }
  rewrite Hs. assert (Hu := parse_unsigned_digits tl d Hd).
  assert (E : d = 1 \/ d = 2 \/ d = 3 \/ d = 4 \/ d = 5 \/ d = 6
              \/ d = 7 \/ d = 8 \/ d = 9) by lia.
  unfold parseInt.
  replace (skip_spaces (String (digit_char d) tl))
    with (String (digit_char d) tl)
    by (repeat (destruct E as [->|E]; [reflexivity|]); now subst d).
  replace (match String (digit_char d) tl with
           | String "-" r => (true, r)
           | String "+" r => (false, r)
           | _ => (false, String (digit_char d) tl)
           end) with (false, String (digit_char d) tl)
    by (repeat (destruct E as [->|E]; [reflexivity|]); now subst d).
  now rewrite Hu, Hval.
Qed.

Lemma append_cancel (a x y : string) : a ++ x = a ++ y -> x = y.
Proof.
  induction a as [|c a IH]; simpl; [auto|].
  intros H. injection H as H. auto.
Qed.

Lemma label_inj (n m : Z) (x y : string) :
  1 <= n -> 1 <= m ->
  nat_digits n ++ String " " x = nat_digits m ++ String " " y ->
  n = m /\ x = y.
Proof.
  intros Hn Hm H.
  assert (E : Num n = Num m).
  { rewrite <- (parseInt_label n x Hn), <- (parseInt_label m y Hm).
    now rewrite H. }
  injection E as ->. split; [reflexivity|].
  apply append_cancel in H. now injection H.
Qed.

Lemma nat_digits_head (n : Z) :
  1 <= n ->
  exists d tl, 1 <= d <= 9 /\ nat_digits n = String (digit_char d) tl.
Proof.
  intros H. exact (digits_fuel_head _ n "" (nat_digits_fuel n H)).
Qed.

Lemma label_head (n : Z) (suffix : string) :
  1 <= n ->
  nat_digits n ++ suffix <> "Unknown" /\ nat_digits n ++ suffix <> "0".
Proof.
  intros H. destruct (nat_digits_head n H) as (d & tl & Hd & ->).
  assert (E : d = 1 \/ d = 2 \/ d = 3 \/ d = 4 \/ d = 5 \/ d = 6
              \/ d = 7 \/ d = 8 \/ d = 9) by lia.
  repeat (destruct E as [->|E]; [split; discriminate|]).
  subst d. split; discriminate.
Qed.

Lemma int_toString_nat (n : Z) : 0 <= n -> int_toString n = nat_digits n.
Proof.
  intros H. unfold int_toString.
  destruct (n <? 0) eqn:E; [apply Z.ltb_lt in E; lia | reflexivity].
Qed.

(** The shape of a label: a year before 0, after 0, the year 0, or no
    year. *)
Lemma formatDate_cases (year : option Z) :
  match year with
  | None => formatDate year = "Unknown"
  | Some y =>
      (y < 0 /\ formatDate year = nat_digits (- y) ++ " BCE")
      \/ (0 < y /\ formatDate year = nat_digits y ++ " CE")
      \/ (y = 0 /\ formatDate year = "0")
  end.
Proof.
  destruct year as [y|]; [|reflexivity]. unfold formatDate.
  destruct (y <? 0) eqn:E1.
  - apply Z.ltb_lt in E1. left. split; [exact E1|].
    rewrite int_toString_nat by lia. now rewrite Z.abs_neq by lia.
  - apply Z.ltb_ge in E1. destruct (0 <? y) eqn:E2.
    + apply Z.ltb_lt in E2. right; left. split; [exact E2|].
      now rewrite int_toString_nat by lia.
    + apply Z.ltb_ge in E2. right; right. split; [lia | reflexivity].
Qed.

(** X8.  Two different years never get the same label, and no year is
    labelled like a missing one. *)
Theorem formatDate_injective (a b : option Z) :
  formatDate a = formatDate b <-> a = b.
Proof.
  split; [|now intros ->].
  pose proof (formatDate_cases a) as Ha.
  pose proof (formatDate_cases b) as Hb.
  assert (Hhead : forall n suffix text,
             1 <= n -> text = "Unknown" \/ text = "0" ->
             nat_digits n ++ suffix <> text).
  { intros n suffix text Hn [->| ->]; now apply label_head. }
  destruct a as [x|], b as [y|]; intros H.
  - destruct Ha as [[Hx Ea]|[[Hx Ea]|[Hx Ea]]],
             Hb as [[Hy Eb]|[[Hy Eb]|[Hy Eb]]];
      rewrite Ea, Eb in H.
    + apply label_inj in H; try lia. f_equal. lia.
    + apply label_inj in H; try lia. destruct H as [_ H]. discriminate H.
    + exfalso. revert H. apply Hhead; [lia | now right].
    + apply label_inj in H; try lia. destruct H as [_ H]. discriminate H.
    + apply label_inj in H; try lia. f_equal. lia.
    + exfalso. revert H. apply Hhead; [lia | now right].
    + exfalso. symmetry in H. revert H. apply Hhead; [lia | now right].
    + exfalso. symmetry in H. revert H. apply Hhead; [lia | now right].
    + f_equal. lia.
  - exfalso. rewrite Hb in H.
    destruct Ha as [[Hx Ea]|[[Hx Ea]|[Hx Ea]]]; rewrite Ea in H.
    + revert H. apply Hhead; [lia | now left].
    + revert H. apply Hhead; [lia | now left].
    + discriminate H.
  - exfalso. rewrite Ha in H. symmetry in H.
    destruct Hb as [[Hy Eb]|[[Hy Eb]|[Hy Eb]]]; rewrite Eb in H.
    + revert H. apply Hhead; [lia | now left].
    + revert H. apply Hhead; [lia | now left].
    + discriminate H.
  - reflexivity.
Qed.

Lemma formatDate_nonempty (year : option Z) : formatDate year <> "".
Proof.
  pose proof (formatDate_cases year) as H. destruct year as [y|].
  - destruct H as [[_ ->]|[[_ ->]|[_ ->]]]; try discriminate;
      intros E; destruct (nat_digits _); discriminate E.
  - rewrite H. discriminate.
Qed.

Lemma with_period_nonempty (label : string) (period : option string) :
  label <> "" -> with_period label period <> "".
Proof.
  intros H. unfold with_period. destruct period as [p|]; [|exact H].
  destruct (truthy p); [|exact H]. destruct label; [congruence|discriminate].
Qed.

(** X9.  A range label is never empty, and the year 0 is shown like a
    missing year: as [?], or as the period when the other year is missing
    too. *)
Theorem formatDateRange_year_zero (startYear endYear : option Z)
    (period : option string) :
  formatDateRange startYear endYear period <> ""
  /\ formatDateRange (Some 0) endYear period
     = formatDateRange None endYear period
  /\ formatDateRange startYear (Some 0) period
     = formatDateRange startYear None period.
Proof.
  split; [|split].
  - unfold formatDateRange.
    destruct (falsy_year startYear && falsy_year endYear).
    + unfold period_or, or_default. destruct period as [[|c p]|]; discriminate.
    + cbv zeta. destruct (same_year startYear endYear);
        apply with_period_nonempty.
      * destruct (falsy_year startYear);
          [discriminate | apply formatDate_nonempty].
      * destruct (falsy_year startYear); [discriminate|].
        intros E. destruct (formatDate startYear) eqn:F; [|discriminate E].
        now apply (formatDate_nonempty startYear).
  - unfold formatDateRange.
    change (falsy_year (Some 0)) with true.
    change (falsy_year None) with true. cbn [andb].
    destruct (falsy_year endYear) eqn:F; [reflexivity|]. cbv zeta.
    destruct endYear as [e|]; [|discriminate F]. unfold same_year.
    unfold falsy_year in F.
    replace (0 =? e) with false by (rewrite Z.eqb_sym; now rewrite F).
    reflexivity.
  - unfold formatDateRange.
    change (falsy_year (Some 0)) with true.
    change (falsy_year None) with true. rewrite !andb_true_r.
    destruct (falsy_year startYear) eqn:F; [reflexivity|]. cbv zeta.
    destruct startYear as [s|]; [|discriminate F]. unfold same_year.
    unfold falsy_year in F. now rewrite F.
Qed.

End DateFacts.

(** ** More on the pagination control *)

Section PaginationButtonFacts.
Import PaginationView PaginationButtons.

Lemma count_up_length (n : nat) (i : Z) : List.length (count_up n i) = n.
Proof. revert i; induction n as [|n IH]; intro i; simpl; auto. Qed.

(** X10.  The control never shows more than seven entries, whatever the
    current page. *)
Theorem generatePages_at_most_seven (currentPage totalPages : Z) :
  (List.length (generatePages currentPage totalPages) <= 7)%nat.
Proof.
  destruct (Z.le_gt_cases totalPages 7) as [Hfew|Hmany].
  - unfold generatePages.
    destruct (totalPages <=? 7) eqn:E; [|apply Z.leb_gt in E; lia].
    unfold push_range. rewrite count_up_length. lia.
  - destruct (generatePages_many currentPage totalPages Hmany)
      as (start & _ & ->).
    destruct (2 <? start), (start + 2 <? totalPages - 1); simpl; lia.
Qed.

(** X11.  Every page the control can ask for lies between 1 and the last
    page. *)
Theorem requested_pages_in_range (currentPage totalPages p : Z) :
  1 <= currentPage <= totalPages ->
  In p (requests currentPage totalPages) ->
  1 <= p <= totalPages.
Proof.
  intros Hrange. unfold requests, Pagination.
  destruct (totalPages <=? 1); [contradiction|].
  rewrite !in_app_iff. unfold previous, next, button.
  intros [H|[H|H]].
  - destruct (currentPage =? 1) eqn:E; [contradiction|].
    apply Z.eqb_neq in E. destruct H as [<-|[]]. lia.
  - apply numbers_in in H.
    destruct (Z.le_gt_cases totalPages 7) as [H7|H7].
    + unfold generatePages in H.
      destruct (totalPages <=? 7) eqn:E; [|apply Z.leb_gt in E; lia].
      now apply push_range_in in H.
    + destruct (generatePages_many currentPage totalPages H7)
        as (start & Hstart & Hg).
      rewrite Hg in H. rewrite !in_app_iff in H.
      destruct H as [H|[H|[H|[H|H]]]].
      * destruct H as [H|[]]. injection H as <-. lia.
      * destruct (2 <? start); [destruct H as [H|[]]|destruct H];
          discriminate H.
      * simpl in H.
        destruct H as [H|[H|[H|[]]]]; injection H as <-; lia.
      * destruct (start + 2 <? totalPages - 1);
          [destruct H as [H|[]]|destruct H]; discriminate H.
      * destruct H as [H|[]]. injection H as <-. lia.
  - destruct (currentPage =? totalPages) eqn:E; [contradiction|].
    apply Z.eqb_neq in E. destruct H as [<-|[]]. lia.
Qed.

(** On the last of ten pages, the Previous button asks for page 9. *)
Lemma requested_pages_in_range_witness :
  In 9 (requests 10 10) /\ 1 <= 9 <= 10.
Proof.
  assert (H : In 9 (requests 10 10)) by (simpl; tauto).
  split; [exact H|].
  apply (requested_pages_in_range 10 10 9); [lia | exact H].
Defined.

End PaginationButtonFacts.

(** ** The image gallery *)

Section GalleryFacts.
Import Schema Storage ImageGallery.

(** X12.  With at least one image, the two arrows keep the index inside the
    list and undo each other. *)
Theorem gallery_arrows_cycle (length i : Z) :
  0 < length -> 0 <= i < length ->
  0 <= nextImage length i < length
  /\ 0 <= prevImage length i < length
  /\ prevImage length (nextImage length i) = i
  /\ nextImage length (prevImage length i) = i.
Proof.
  intros Hlen Hi. unfold nextImage, prevImage.
  destruct (i =? length - 1) eqn:E1;
    [apply Z.eqb_eq in E1 | apply Z.eqb_neq in E1];
    destruct (i =? 0) eqn:E2;
    [apply Z.eqb_eq in E2 | apply Z.eqb_neq in E2 |
     apply Z.eqb_eq in E2 | apply Z.eqb_neq in E2];
    repeat match goal with
           | |- context [?a =? ?b] =>
               destruct (Z.eqb_spec a b)
           end; lia.
Qed.

(** The last of three images: next wraps to the first, previous comes
    back. *)
Lemma gallery_arrows_cycle_witness :
  prevImage 3 (nextImage 3 2) = 2 /\ nextImage 3 2 = 0.
Proof.
  destruct (gallery_arrows_cycle 3 2 ltac:(lia) ltac:(lia))
    as (_ & _ & H & _).
  split; [exact H | reflexivity].
Defined.

Lemma compare_primary_first (a b : ArtifactImage.t) :
  primary b = true -> (compare a b <=? 0) = true -> primary a = true.
Proof.
  unfold compare, primary. intros Hb.
  rewrite Hb. destruct (flag (ArtifactImage.is_primary a)); cbn; auto.
Qed.

Lemma compare_keeps_primary (a b : ArtifactImage.t) :
  primary a = true -> (compare a b <=? 0) = false -> primary b = true.
Proof.
  unfold compare, primary. intros Ha. rewrite Ha.
  destruct (flag (ArtifactImage.is_primary b)); cbn; auto.
Qed.

(** X13.  The gallery shows the same images, and a primary one first
    whenever there is one. *)
Theorem gallery_shows_primary_first (images : list ArtifactImage.t) :
  Permutation images (sortedImages images)
  /\ ((exists i, In i images /\ primary i = true) ->
      exists first rest,
        sortedImages images = first :: rest /\ primary first = true).
Proof.
  split; [apply order_by_perm|].
  unfold sortedImages. set (leb := fun a b => compare a b <=? 0).
  induction images as [|x r IH]; intros (i & Hin & Hi); [contradiction|].
  cbn [order_by].
  destruct (order_by leb r) as [|y r'] eqn:Er.
  - exists x, []. split; [reflexivity|].
    destruct Hin as [<-|Hin]; [exact Hi|].
    exfalso. pose proof (order_by_perm leb r) as Hp. rewrite Er in Hp.
    apply Permutation_sym, Permutation_nil in Hp. subst r. contradiction.
  - cbn [insert]. destruct (leb x y) eqn:Exy.
    + exists x, (y :: r'). split; [reflexivity|].
      destruct Hin as [<-|Hin]; [exact Hi|].
      destruct IH as (f & rest & Hf & Hprim); [now exists i|].
      injection Hf as <- <-.
      exact (compare_primary_first x y Hprim Exy).
    + exists y, (insert leb x r'). split; [reflexivity|].
      destruct Hin as [<-|Hin].
      * exact (compare_keeps_primary x y Hi Exy).
      * destruct IH as (f & rest & Hf & Hprim); [now exists i|].
        now injection Hf as <- <-.
Qed.

End GalleryFacts.

(** ** Listings of the store *)

Section StoreFacts.
Import Schema Storage StorageRows.

Lemma column_leb_total (c : Column) (a b : Artifact.t) :
  column_leb c a b = true \/ column_leb c b a = true.
Proof.
  destruct c; simpl.
  - destruct (Z.leb_spec (Artifact.id a) (Artifact.id b)); [now left|].
    right. apply Z.leb_le. lia.
  - apply String.leb_total.
  - apply opt_leb_total.
Qed.

Lemma sorted_skipn {A : Type} (R : A -> A -> Prop) (n : nat) (l : list A) :
  Sorted R l -> Sorted R (skipn n l).
Proof.
  revert l; induction n as [|n IH]; intros l H; [exact H|].
  destruct l as [|x l]; [constructor|]. simpl. apply IH. now inversion H.
Qed.

Lemma sorted_firstn {A : Type} (R : A -> A -> Prop) (n : nat) (l : list A) :
  Sorted R l -> Sorted R (firstn n l).
Proof.
  revert l; induction n as [|n IH]; intros l H; [constructor|].
  destruct l as [|x l]; [constructor|]. simpl.
  inversion H as [|? ? Hs Hhd]; subst. constructor; [now apply IH|].
  destruct l as [|y l]; [destruct n; constructor|].
  destruct n; [constructor|]. simpl. constructor. now inversion Hhd.
Qed.

Lemma in_window {A : Type} (n m : nat) (l : list A) (a : A) :
  In a (firstn n (skipn m l)) -> In a l.
Proof.
  intros H. rewrite <- (firstn_skipn m l). apply in_or_app. right.
  rewrite <- (firstn_skipn n (skipn m l)). apply in_or_app. now left.
Qed.

(** X14.  A listing is in the order asked for and holds only rows of the
    table; it holds at most [limit] of them when the limit is not
    negative, and with a negative limit every row from the offset on. *)
Theorem listArtifacts_sorted_page (db : Database) (o : ListOptions.t)
    (rows : list Artifact.t) :
  listArtifacts db o = Some rows ->
  Sorted (Conditions.listed_before o) rows
  /\ (forall a, In a rows -> In a (artifacts db))
  /\ (0 <= ListOptions.limit o ->
      Z.of_nat (List.length rows) <= ListOptions.limit o)
  /\ (ListOptions.limit o < 0 ->
      Z.of_nat (List.length rows)
      = Z.max 0 (Z.of_nat (List.length (artifacts db))
                 - ListOptions.offset o)).
Proof.
  unfold listArtifacts. cbv zeta.
  destruct ((ListOptions.offset o <? 0)
            || (int8_max <? ListOptions.offset o)
            || (int8_max <? ListOptions.limit o))
    eqn:E; [discriminate|].
  apply orb_false_iff in E. destruct E as [E _].
  apply orb_false_iff in E. destruct E as [Eo _]. apply Z.ltb_ge in Eo.
  intros H; injection H as <-.
  set (ordered := match ListOptions.sortDir o with
                  | asc => order_by (column_leb (ListOptions.sortBy o))
                                    (artifacts db)
                  | desc => order_by (flip_leb (column_leb
                                                  (ListOptions.sortBy o)))
                                     (artifacts db)
                  end).
  assert (Hs : Sorted (Conditions.listed_before o) ordered).
  { unfold ordered, Conditions.listed_before.
    destruct (ListOptions.sortDir o).
    - apply order_by_sorted. intros a b. apply column_leb_total.
    - apply (order_by_sorted (flip_leb (column_leb (ListOptions.sortBy o)))).
      intros a b. unfold flip_leb. apply column_leb_total. }
  assert (Hp : Permutation (artifacts db) ordered).
  { unfold ordered. destruct (ListOptions.sortDir o); apply order_by_perm. }
  assert (Hskip : forall a,
             In a (skipn (Z.to_nat (ListOptions.offset o)) ordered) ->
             In a (artifacts db)).
  { intros a Ha. apply (Permutation_in _ (Permutation_sym Hp)).
    rewrite <- (firstn_skipn (Z.to_nat (ListOptions.offset o)) ordered).
    apply in_or_app. now right. }
  destruct (ListOptions.limit o <? 0) eqn:El;
    [apply Z.ltb_lt in El | apply Z.ltb_ge in El].
  - split; [now apply sorted_skipn|]. split; [exact Hskip|].
    split; [lia|]. intros _.
    rewrite length_skipn, <- (Permutation_length Hp). lia.
  - split; [now apply sorted_firstn, sorted_skipn|]. split.
    + intros a Ha. apply in_window in Ha.
      now apply (Permutation_in _ (Permutation_sym Hp)).
    + split; [|lia]. intros _. rewrite length_firstn. lia.
Qed.

(** The first two rows by title. *)
Lemma listArtifacts_sorted_page_witness :
  exists rows,
    listArtifacts Samples.store
      {| ListOptions.limit := 2; ListOptions.offset := 0;
         ListOptions.sortBy := col_title; ListOptions.sortDir := asc |}
    = Some rows
    /\ Z.of_nat (List.length rows) <= 2.
Proof.
  eexists. split; [reflexivity|].
  refine (proj1 (proj2 (proj2 (listArtifacts_sorted_page Samples.store
                         {| ListOptions.limit := 2; ListOptions.offset := 0;
                            ListOptions.sortBy := col_title;
                            ListOptions.sortDir := asc |} _ eq_refl))) _).
  cbn. lia.
Defined.

End StoreFacts.

(** ** Writes to the store *)

Section WriteFacts.
Import Schema Storage StorageRows.

Lemma find_map_same {A : Type} (p : A -> bool) (f : A -> A) (l : list A) :
  (forall x, p (f x) = p x) ->
  find p (map f l) = option_map f (find p l).
Proof.
  intros H. induction l as [|x l IH]; [reflexivity|]. simpl.
  rewrite H. destruct (p x); [reflexivity | exact IH].
Qed.

Lemma find_id_spec (images : list ArtifactImage.t) (imageId : Z)
    (image : ArtifactImage.t) :
  find (fun i => ArtifactImage.id i =? imageId) images = Some image ->
  In image images /\ ArtifactImage.id image = imageId.
Proof.
  intros H. apply find_some in H. destruct H as [Hin Hid].
  split; [exact Hin | now apply Z.eqb_eq].
Qed.

(** What the two updates of [setPrimaryImage] make of one row. *)
Lemma setPrimaryImage_row (imageId artifactId : Z) (i : ArtifactImage.t) :
  let j :=
    (fun i => if ArtifactImage.id i =? imageId
              then set_is_primary true i else i)
      ((fun i => if ArtifactImage.artifact_id i =? artifactId
                 then set_is_primary false i else i) i) in
  ArtifactImage.id j = ArtifactImage.id i
  /\ ArtifactImage.artifact_id j = ArtifactImage.artifact_id i
  /\ ArtifactImage.sort_order j = ArtifactImage.sort_order i
  /\ ArtifactImage.url j = ArtifactImage.url i
  /\ ArtifactImage.is_primary j
     = if ArtifactImage.id i =? imageId then Some true
       else if ArtifactImage.artifact_id i =? artifactId then Some false
       else ArtifactImage.is_primary i.
Proof.
  cbv beta zeta.
  destruct (ArtifactImage.artifact_id i =? artifactId);
    cbn [set_is_primary ArtifactImage.id];
    destruct (ArtifactImage.id i =? imageId); cbn; repeat split; reflexivity.
Qed.

(** X15.  Marking an image primary: the promise is rejected exactly for
    an id the [id] column cannot hold; an id no image has changes nothing;
    otherwise the row returned has that id and is primary, among the
    images of its artifact exactly those of that id are primary
    afterwards, and the detail page then picks an image of that id. *)
Theorem setPrimaryImage_makes_it_primary (db : Database) (imageId : Z) :
  match setPrimaryImage db imageId with
  | None => int4 imageId = false
  | Some (db', None) =>
      int4 imageId = true
      /\ db' = db
      /\ forall i, In i (artifactImages db) -> ArtifactImage.id i <> imageId
  | Some (db', Some updated) =>
      int4 imageId = true
      /\ ArtifactImage.id updated = imageId
      /\ ArtifactImage.is_primary updated = Some true
      /\ artifacts db' = artifacts db
      /\ (forall j, In j (artifactImages db') ->
          ArtifactImage.artifact_id j = ArtifactImage.artifact_id updated ->
          ArtifactImage.is_primary j
          = Some (ArtifactImage.id j =? imageId))
      /\ option_map ArtifactImage.id
           (DetailPage.primaryImage
              (getArtifactImages db' (ArtifactImage.artifact_id updated)))
         = Some imageId
  end.
Proof.
  unfold setPrimaryImage.
  destruct (int4 imageId) eqn:Hint4; cbn [negb]; [|reflexivity].
  destruct (find (fun i => ArtifactImage.id i =? imageId) (artifactImages db))
    as [image|] eqn:Hfind.
  - destruct (find_id_spec _ _ _ Hfind) as [Hin Hid].
    set (a := ArtifactImage.artifact_id image).
    set (f1 := fun i => if ArtifactImage.artifact_id i =? a
                        then set_is_primary false i else i).
    set (f2 := fun i => if ArtifactImage.id i =? imageId
                        then set_is_primary true i else i).
    assert (Hupd : update_primary (fun i => ArtifactImage.id i =? imageId)
                     true
                     (update_primary
                        (fun i => ArtifactImage.artifact_id i =? a)
                        false (artifactImages db))
                   = map (fun i => f2 (f1 i)) (artifactImages db)).
    { unfold update_primary. now rewrite map_map. }
    rewrite Hupd.
    assert (Hrow := setPrimaryImage_row imageId a). cbv zeta in Hrow.
    fold f1 f2 in Hrow.
    rewrite (find_map_same (fun i => ArtifactImage.id i =? imageId)
               (fun i => f2 (f1 i)))
      by (intros x; now rewrite (proj1 (Hrow x))).
    rewrite Hfind. cbn [option_map artifactImages artifacts].
    destruct (Hrow image) as (Hi1 & Hi2 & _ & _ & Hi5).
    rewrite Hid, Z.eqb_refl in Hi5.
    split; [reflexivity|].
    split; [now rewrite Hi1|]. split; [exact Hi5|]. split; [reflexivity|].
    rewrite Hi2. fold a.
    assert (Hall : forall j,
               In j (map (fun i => f2 (f1 i)) (artifactImages db)) ->
               ArtifactImage.artifact_id j = a ->
               ArtifactImage.is_primary j
               = Some (ArtifactImage.id j =? imageId)).
    { intros j Hj Ha. apply in_map_iff in Hj. destruct Hj as (i & <- & Hi).
      destruct (Hrow i) as (E1 & E2 & _ & _ & E5).
      rewrite E5, E1. rewrite E2 in Ha.
      destruct (ArtifactImage.id i =? imageId); [reflexivity|].
      now rewrite Ha, Z.eqb_refl. }
    split; [exact Hall|].
    set (db' := {| artifacts := artifacts db;
                   artifactImages :=
                     map (fun i => f2 (f1 i)) (artifactImages db) |}).
    destruct (getArtifactImages_sorted db' a) as [_ Hperm].
    assert (Hlist : forall j, In j (getArtifactImages db' a) ->
              In j (artifactImages db') /\ ArtifactImage.artifact_id j = a).
    { intros j Hj. apply (Permutation_in _ (Permutation_sym Hperm)) in Hj.
      apply filter_In in Hj. destruct Hj as [Hj1 Hj2].
      split; [exact Hj1 | now apply Z.eqb_eq]. }
    assert (Hthere : In (f2 (f1 image)) (getArtifactImages db' a)).
    { apply (Permutation_in _ Hperm). apply filter_In. split.
      - cbn. apply in_map_iff. now exists image.
      - rewrite Hi2. apply Z.eqb_refl. }
    unfold DetailPage.primaryImage.
    destruct (find (fun img => match ArtifactImage.is_primary img with
                               | Some b => b
                               | None => false
                               end) (getArtifactImages db' a))
      as [x|] eqn:Hx.
    + apply find_some in Hx. destruct Hx as [Hxin Hxp].
      destruct (Hlist x Hxin) as [Hx1 Hx2].
      rewrite (Hall x Hx1 Hx2) in Hxp. cbn. f_equal.
      now apply Z.eqb_eq.
    + exfalso. apply (find_none _ _ Hx) in Hthere.
      now rewrite Hi5 in Hthere.
  - split; [reflexivity|]. split; [reflexivity|]. intros i Hi Hid.
    apply (find_none _ _ Hfind) in Hi. apply Z.eqb_neq in Hi. contradiction.
Qed.


(** X16.  Deleting an artifact: the promise is rejected exactly for an id
    the [id] column cannot hold; otherwise the answer says whether a row
    had that id; afterwards no row has it, the other rows are all there,
    and the image rows are untouched, those of the deleted artifact
    included. *)
Theorem deleteArtifact_removes_the_row (db : Database) (id : Z) :
  match deleteArtifact db id with
  | None => int4 id = false
  | Some (db', deleted) =>
      int4 id = true
      /\ (deleted = true <->
          exists a, In a (artifacts db) /\ Artifact.id a = id)
      /\ getArtifact db' id = Some None
      /\ (forall other, other <> id ->
          getArtifact db' other = getArtifact db other)
      /\ artifactImages db' = artifactImages db
      /\ getArtifactImages db' id = getArtifactImages db id
  end.
Proof.
  unfold deleteArtifact. cbv zeta.
  destruct (int4 id) eqn:Hint4; cbn [negb]; [|reflexivity].
  split; [reflexivity|].
  split; [|split; [|split; [|split; reflexivity]]].
  - destruct (List.filter (fun a => Artifact.id a =? id) (artifacts db))
      as [|x r] eqn:E.
    + split; [discriminate|]. intros (a & Ha & Hid). exfalso.
      assert (Hin : In a (List.filter (fun a => Artifact.id a =? id)
                            (artifacts db))).
      { apply filter_In. split; [exact Ha | now apply Z.eqb_eq]. }
      now rewrite E in Hin.
    + split; [|reflexivity]. intros _. exists x.
      assert (Hin : In x (List.filter (fun a => Artifact.id a =? id)
                            (artifacts db))) by (rewrite E; now left).
      apply filter_In in Hin. destruct Hin as [H1 H2].
      split; [exact H1 | now apply Z.eqb_eq].
  - unfold getArtifact. rewrite Hint4. cbn [negb artifacts]. f_equal.
    destruct (find _ _) as [a|] eqn:F; [|reflexivity].
    apply find_some in F. destruct F as [Hin Hid].
    apply filter_In in Hin. destruct Hin as [_ Hne].
    now rewrite Hid in Hne.
  - intros other Hother. unfold getArtifact. cbn [artifacts].
    destruct (negb (int4 other)); [reflexivity|]. f_equal.
    induction (artifacts db) as [|a l IH]; [reflexivity|]. cbn.
    destruct (Z.eqb_spec (Artifact.id a) id) as [E|E]; cbn.
    + rewrite IH. destruct (Z.eqb_spec (Artifact.id a) other); [lia|].
      reflexivity.
    + now rewrite IH.
Qed.

End WriteFacts.

(** ** [GET /api/artifacts/:id] *)

Section ArtifactRouteFacts.
Import JS Schema Storage StorageRows ArtifactRoute.

(** X17.  The four outcomes of the route: 400 exactly for an id that does
    not start with a number, the error handler exactly for a number the
    [id] column cannot hold, 404 exactly for a number of the column that
    no row has, and otherwise the row of that id with images that all
    belong to it. *)
Theorem getArtifactById_answers (db : Database) (t : TagTables)
    (id : string) :
  (getArtifactById db t id = invalid_id <-> parseInt id = NaN)
  /\ (getArtifactById db t id = next_err <->
      exists n, parseInt id = Num n /\ int4 n = false)
  /\ (getArtifactById db t id = not_found <->
      exists n, parseInt id = Num n /\ int4 n = true
                /\ forall a, In a (artifacts db) -> Artifact.id a <> n)
  /\ (forall artifact images tags,
      getArtifactById db t id = found artifact images tags ->
      parseInt id = Num (Artifact.id artifact)
      /\ int4 (Artifact.id artifact) = true
      /\ In artifact (artifacts db)
      /\ images = getArtifactImages db (Artifact.id artifact)
      /\ (forall i, In i images ->
          ArtifactImage.artifact_id i = Artifact.id artifact)
      /\ tags = getTagsByArtifactId t (Artifact.id artifact)).
Proof.
  unfold getArtifactById. destruct (parseInt id) as [|n].
  - split; [tauto|].
    split; [split; [discriminate | intros (m & H & _); discriminate H]|].
    split; [split; [discriminate | intros (m & H & _); discriminate H]|].
    intros artifact images tags H. discriminate H.
  - unfold getArtifact. destruct (int4 n) eqn:Hint4; cbn [negb].
    + destruct (find (fun a => Artifact.id a =? n) (artifacts db))
        as [a|] eqn:F.
      * apply find_some in F. destruct F as [Hin Hid].
        apply Z.eqb_eq in Hid.
        split; [split; discriminate|].
        split.
        { split; [discriminate|]. intros (m & Hm & Hf).
          injection Hm as <-. congruence. }
        split.
        { split; [discriminate|]. intros (m & Hm & _ & Hnone).
          injection Hm as <-. exfalso. exact (Hnone a Hin Hid). }
        intros artifact images tags H. injection H as <- <- <-.
        rewrite Hid. split; [reflexivity|]. split; [exact Hint4|].
        split; [exact Hin|].
        split; [reflexivity|]. split; [|reflexivity].
        intros i Hi.
        destruct (getArtifactImages_sorted db n) as [_ Hperm].
        apply (Permutation_in _ (Permutation_sym Hperm)) in Hi.
        apply filter_In in Hi. now apply Z.eqb_eq.
      * split; [split; discriminate|].
        split.
        { split; [discriminate|]. intros (m & Hm & Hf).
          injection Hm as <-. congruence. }
        split.
        { split; [|reflexivity]. intros _. exists n.
          split; [reflexivity|]. split; [exact Hint4|].
          intros a Ha Hid. apply (find_none _ _ F) in Ha.
          apply Z.eqb_neq in Ha. contradiction. }
        intros artifact images tags H. discriminate H.
    + split; [split; discriminate|].
      split.
      { split; [|reflexivity]. intros _. exists n. now split. }
      split.
      { split; [discriminate|]. intros (m & Hm & Ht & _).
        injection Hm as <-. congruence. }
      intros artifact images tags H. discriminate H.
Qed.

End ArtifactRouteFacts.

(** ** More on the search handler *)

Section SearchFacts.
Import JS Schema Storage Routes.

(** What a successful validation says of each field. *)
Lemma parse_ok (raw : Raw.t) (p : ArtifactSearchParams) :
  Schema.parse raw = inr p ->
  check_string "query" (Raw.query raw) = inr (query p)
  /\ check_strs "cultures" (Raw.cultures raw) = inr (cultures p)
  /\ check_strs "materials" (Raw.materials raw) = inr (materials p)
  /\ check_number_opt "dateStart" (Raw.dateStart raw) = inr (dateStart p)
  /\ check_number_opt "dateEnd" (Raw.dateEnd raw) = inr (dateEnd p)
  /\ check_strs "tags" (Raw.tags raw) = inr (tags p)
  /\ check_string "site" (Raw.site raw) = inr (site p)
  /\ has3dModel p = Some (Raw.has3dModel raw)
  /\ check_number "page" (Raw.page raw) = inr (page p)
  /\ check_number "limit" (Raw.limit raw) = inr (limit p)
  /\ check_sort (Raw.sort raw) = inr (sort p).
Proof.
  unfold Schema.parse.
  destruct (check_string "query" (Raw.query raw)),
           (check_strs "cultures" (Raw.cultures raw)),
           (check_strs "materials" (Raw.materials raw)),
           (check_number_opt "dateStart" (Raw.dateStart raw)),
           (check_number_opt "dateEnd" (Raw.dateEnd raw)),
           (check_strs "tags" (Raw.tags raw)),
           (check_string "site" (Raw.site raw)),
           (check_number "page" (Raw.page raw)),
           (check_number "limit" (Raw.limit raw)),
           (check_sort (Raw.sort raw));
    try discriminate.
  intros H. injection H as <-. cbn. repeat split.
Qed.

(** A failing validation reports the issue of every failing field. *)
Lemma parse_issues (raw : Raw.t) (i : ZodIssue) :
  In i (issue_of (check_number_opt "dateStart" (Raw.dateStart raw))
        ++ issue_of (check_number_opt "dateEnd" (Raw.dateEnd raw))
        ++ issue_of (check_number "page" (Raw.page raw))
        ++ issue_of (check_number "limit" (Raw.limit raw)))%list ->
  exists issues, Schema.parse raw = inl issues /\ In i issues.
Proof.
  unfold Schema.parse.
  destruct (check_string "query" (Raw.query raw)),
           (check_strs "cultures" (Raw.cultures raw)),
           (check_strs "materials" (Raw.materials raw)),
           (check_number_opt "dateStart" (Raw.dateStart raw)),
           (check_number_opt "dateEnd" (Raw.dateEnd raw)),
           (check_strs "tags" (Raw.tags raw)),
           (check_string "site" (Raw.site raw)),
           (check_number "page" (Raw.page raw)),
           (check_number "limit" (Raw.limit raw)),
           (check_sort (Raw.sort raw));
    cbn; intros H; try contradiction;
    (eexists; split; [reflexivity | cbn; tauto]).
Qed.

Lemma int_param_nan (v : qval) :
  qtruthy (Some v) = true -> parseInt (qval_toString v) = NaN ->
  int_param (Some v) = Some NaN.
Proof. intros Ht Hn. unfold int_param. now rewrite Ht, Hn. Qed.

(** X18.  A [page], [limit], [dateStart] or [dateEnd] parameter that is
    given, not empty, and does not start with a number is answered with
    status 400 and an [invalid_type] issue whose path is the parameter's
    name; no call is made to the engine or the store. *)
Theorem non_numeric_parameter_is_rejected (rev : Revision)
    (esClient : option EsClient) (db : Database) (q : list (string * qval))
    (name : string) (v : qval) :
  In name ["page"; "limit"; "dateStart"; "dateEnd"] ->
  lookup name q = Some v ->
  qtruthy (Some v) = true ->
  parseInt (qval_toString v) = NaN ->
  exists issues,
    search rev esClient db q
    = {| calls := [];
         response :=
           json 400 [("message", f_message "Invalid search parameters");
                     ("errors", f_errors issues)] |}
    /\ In {| code := "invalid_type"; path := [name] |} issues.
Proof.
  intros Hname Hq Ht Hn.
  assert (Hp := int_param_nan v Ht Hn).
  destruct (parse_issues (raw_params q)
              {| code := "invalid_type"; path := [name] |})
    as (issues & Hparse & Hin).
  { unfold raw_params.
    cbn [Raw.dateStart Raw.dateEnd Raw.page Raw.limit].
    destruct Hname as [<-|[<-|[<-|[<-|[]]]]]; rewrite Hq, Hp; cbn;
      repeat rewrite in_app_iff; cbn; tauto. }
  exists issues. split; [|exact Hin].
  unfold search. now rewrite Hparse.
Qed.

(** [page=two] is rejected. *)
Lemma non_numeric_parameter_is_rejected_witness :
  exists issues,
    search plain None Samples.store [("page", QStr "two")]
    = {| calls := [];
         response :=
           json 400 [("message", f_message "Invalid search parameters");
                     ("errors", f_errors issues)] |}
    /\ In {| code := "invalid_type"; path := ["page"] |} issues.
Proof.
  apply (non_numeric_parameter_is_rejected plain None Samples.store
           [("page", QStr "two")] "page" (QStr "two")).
  - simpl. tauto.
  - reflexivity.
  - reflexivity.
  - reflexivity.
Defined.




Lemma truthy_nonempty (s : string) : truthy s = true <-> s <> "".
Proof. destruct s; simpl; split; congruence. Qed.

Lemma in_push_terms_values (f : string) (x : option Api.strs)
    (c : FilterClause) (l : list FilterClause) :
  In c (push_terms f x l) ->
  (exists vs, c = terms f vs /\ vs <> []) \/ In c l.
Proof.
  unfold push_terms. destruct (facet_values x) as [vs|]; [|now right].
  rewrite in_push_if. intros [[Hlen ->]|H]; [left | now right].
  exists vs. split; [reflexivity|].
  destruct vs; [discriminate | discriminate].
Qed.

(** X20.  The clauses of a compiled engine query: a [terms] clause is on
    [culture], [materials] or [tags] and never has an empty list of values;
    a [term] clause is on [site] with the non-empty site asked for; the
    3D-model clause only ever asks for [true]; and there is at most one text
    clause, with the non-empty text asked for. *)
Theorem compiled_clauses_are_well_formed (p : ArtifactSearchParams) :
  let compiled := EsBody.query (buildElasticsearchQuery p) in
  (forall f vs, In (terms f vs) (filter compiled) ->
     vs <> [] /\ In f ["culture"; "materials"; "tags"])
  /\ (forall f v, In (term f v) (filter compiled) ->
     f = "site" /\ v <> "" /\ site p = Some v)
  /\ (forall f b, In (term_bool f b) (filter compiled) ->
     f = "has_3d_model" /\ b = true /\ has3dModel p = Some true)
  /\ (forall c, In c (must compiled) ->
     exists t, c = multi_match t search_fields "AUTO"
               /\ t <> "" /\ query p = Some t)
  /\ (List.length (must compiled) <= 1)%nat.
Proof.
  cbv zeta. unfold buildElasticsearchQuery. cbn [EsBody.query filter must].
  split; [|split; [|split; [|split]]].
  - intros f vs H.
    apply in_push_if in H. destruct H as [[_ H]|H]; [discriminate|].
    apply in_push_if in H. destruct H as [[_ H]|H]; [discriminate|].
    apply in_push_if in H. destruct H as [[_ H]|H]; [discriminate|].
    apply in_push_terms_values in H.
    destruct H as [(vs' & H & Hne)|H];
      [injection H as -> ->; split; [exact Hne | simpl; tauto]|].
    apply in_push_terms_values in H.
    destruct H as [(vs' & H & Hne)|H];
      [injection H as -> ->; split; [exact Hne | simpl; tauto]|].
    apply in_push_terms_values in H.
    destruct H as [(vs' & H & Hne)|H];
      [injection H as -> ->; split; [exact Hne | simpl; tauto]|].
    contradiction.
  - intros f v H.
    apply in_push_if in H. destruct H as [[_ H]|H]; [discriminate|].
    apply in_push_if in H. destruct H as [[_ H]|H]; [discriminate|].
    apply in_push_if in H. destruct H as [[Ht H]|H].
    + injection H as -> ->. split; [reflexivity|].
      destruct (site p) as [s|]; [|discriminate]. cbn in *.
      split; [now apply truthy_nonempty | reflexivity].
    + exfalso.
      apply in_push_terms in H. destruct H as [[vs H]|H]; [discriminate|].
      apply in_push_terms in H. destruct H as [[vs H]|H]; [discriminate|].
      apply in_push_terms in H. destruct H as [[vs H]|H]; [discriminate|].
      exact H.
  - intros f b H.
    apply in_push_if in H. destruct H as [[_ H]|H]; [discriminate|].
    apply in_push_if in H. destruct H as [[Ht H]|H].
    + injection H as -> ->. split; [reflexivity|]. split; [reflexivity|].
      destruct (has3dModel p) as [[|]|]; try discriminate. reflexivity.
    + exfalso.
      apply in_push_if in H. destruct H as [[_ H]|H]; [discriminate|].
      apply in_push_terms in H. destruct H as [[vs H]|H]; [discriminate|].
      apply in_push_terms in H. destruct H as [[vs H]|H]; [discriminate|].
      apply in_push_terms in H. destruct H as [[vs H]|H]; [discriminate|].
      exact H.
  - intros c H. apply in_push_if in H. destruct H as [[Ht ->]|[]].
    destruct (query p) as [t|]; [|discriminate]. cbn in *.
    exists t. split; [reflexivity|]. split; [now apply truthy_nonempty|].
    reflexivity.
  - unfold push_if. destruct (opt_truthy (query p)); simpl; lia.
Qed.

(** X21.  The 3D-model filter is part of the engine query exactly when the
    request has [has3dModel=true], the literal string: any other value,
    [false] included, compiles like a request without the parameter. *)
Theorem has3dModel_filter_only_for_true (q : list (string * qval))
    (p : ArtifactSearchParams) :
  Schema.parse (raw_params q) = inr p ->
  (In (term_bool "has_3d_model" true)
      (filter (EsBody.query (buildElasticsearchQuery p)))
   <-> lookup "has3dModel" q = Some (QStr "true"))
  /\ (forall f b, In (term_bool f b)
                     (filter (EsBody.query (buildElasticsearchQuery p))) ->
      b = true).
Proof.
  intros Hp.
  destruct (parse_ok _ _ Hp) as (_ & _ & _ & _ & _ & _ & _ & H3 & _).
  unfold raw_params in H3. cbn [Raw.has3dModel] in H3.
  assert (Hflag : opt_true (has3dModel p) = true
                  <-> lookup "has3dModel" q = Some (QStr "true")).
  { rewrite H3. cbn.
    destruct (lookup "has3dModel" q) as [[s| |]|]; try (split; discriminate).
    destruct (String.eqb_spec s "true") as [Heq|Hne].
    - rewrite Heq. now split.
    - split; [discriminate|]. intros H. injection H as H. contradiction. }
  split.
  - rewrite <- Hflag.
    unfold buildElasticsearchQuery. cbn [EsBody.query filter]. split.
    + intros H.
      apply in_push_if in H. destruct H as [[_ H]|H]; [discriminate|].
      apply in_push_if in H. destruct H as [[Ht _]|H]; [exact Ht|].
      exfalso.
      apply in_push_if in H. destruct H as [[_ H]|H]; [discriminate|].
      apply in_push_terms in H. destruct H as [[vs H]|H]; [discriminate|].
      apply in_push_terms in H. destruct H as [[vs H]|H]; [discriminate|].
      apply in_push_terms in H. destruct H as [[vs H]|H]; [discriminate|].
      exact H.
    + intros Ht. apply in_push_if. right. apply in_push_if. left.
      split; [exact Ht | reflexivity].
  - intros f b H. unfold buildElasticsearchQuery in H.
    cbn [EsBody.query filter] in H.
    apply in_push_if in H. destruct H as [[_ H]|H]; [discriminate|].
    apply in_push_if in H. destruct H as [[_ H]|H]; [now injection H|].
    exfalso.
    apply in_push_if in H. destruct H as [[_ H]|H]; [discriminate|].
    apply in_push_terms in H. destruct H as [[vs H]|H]; [discriminate|].
    apply in_push_terms in H. destruct H as [[vs H]|H]; [discriminate|].
    apply in_push_terms in H. destruct H as [[vs H]|H]; [discriminate|].
    exact H.
Qed.

(** [has3dModel=false] adds no clause. *)
Lemma has3dModel_filter_only_for_true_witness :
  let q := [("has3dModel", QStr "false")] in
  let p := mkParams None None None None None None None
                    (Some false) 1 12 relevance in
  In (term_bool "has_3d_model" true)
     (filter (EsBody.query (buildElasticsearchQuery p)))
  <-> lookup "has3dModel" q = Some (QStr "true").
Proof.
  intros q p.
  exact (proj1 (has3dModel_filter_only_for_true q p eq_refl)).
Defined.


(** X23.  A page size of 0 passes validation, and the page count sent is
    then not a number of pages: [NaN] without an engine, [NaN] or an
    infinity with one. *)
Theorem zero_limit_has_no_page_count (rev : Revision)
    (esClient : option EsClient) (db : Database) (q : list (string * qval))
    (p : ArtifactSearchParams) (pg : Pagination.t) :
  Schema.parse (raw_params q) = inr p ->
  limit p = 0 ->
  response_pagination (response (search rev esClient db q)) = Some pg ->
  (forall n, Pagination.totalPages pg <> Finite n)
  /\ (esClient = None ->
      Pagination.total pg = 0 /\ Pagination.totalPages pg = NotANumber).
Proof.
  intros Hp Hl. unfold search. rewrite Hp.
  destruct esClient as [client|].
  - destruct (client (engine_request p)) as [res|]; [|discriminate].
    cbn. intros H. injection H as <-. cbn. rewrite Hl. split; [|discriminate].
    intros n. unfold ceil_div. cbn.
    destruct (total_value res =? 0); discriminate.
  - unfold listArtifacts, fallback_options.
    cbn [ListOptions.limit ListOptions.offset ListOptions.sortBy
         ListOptions.sortDir].
    rewrite Hl. replace ((page p - 1) * 0) with 0 by lia.
    cbn [Z.ltb Z.compare orb Z.to_nat firstn].
    cbn. intros H. injection H as <-. cbn.
    assert (Hlen : len (items_of rev db []) = 0) by (now destruct rev).
    rewrite Hlen. cbn. split; [discriminate|]. intros _. now split.
Qed.


(** [limit=0] without an engine. *)
Lemma zero_limit_has_no_page_count_witness :
  let out := search plain None Samples.store [("limit", QStr "0")] in
  let pg := {| Pagination.page := 1; Pagination.limit := 0;
               Pagination.total := 0;
               Pagination.totalPages := NotANumber |} in
  response_pagination (response out) = Some pg
  /\ Pagination.totalPages pg = NotANumber.
Proof.
  intros out pg. split; [reflexivity|].
  exact (proj2 (proj2 (zero_limit_has_no_page_count plain None Samples.store
                         [("limit", QStr "0")]
                         (mkParams None None None None None None None
                                   (Some false) 1 0 relevance)
                         pg eq_refl eq_refl eq_refl) eq_refl)).
Defined.

(** X24.  Without an engine and with a positive page size: a page below 1
    passes validation but the store refuses the negative offset and the
    error is passed on; a page past the last row, with a page size and an
    offset that are exact as numbers (so below what the store accepts),
    is answered with no items, a total of 0 and 0 pages. *)
Theorem fallback_page_out_of_bounds (rev : Revision) (db : Database)
    (q : list (string * qval)) (p : ArtifactSearchParams) :
  Schema.parse (raw_params q) = inr p ->
  0 < limit p ->
  (page p < 1 -> response (search rev None db q) = next_err)
  /\ (1 <= page p ->
      Conditions.exact_int (limit p) ->
      Conditions.exact_int ((page p - 1) * limit p) ->
      len (artifacts db) <= (page p - 1) * limit p ->
      response (search rev None db q)
      = json 200
          [("artifacts", f_artifacts []);
           ("pagination",
            f_pagination {| Pagination.page := page p;
                            Pagination.limit := limit p;
                            Pagination.total := 0;
                            Pagination.totalPages := Finite 0 |})]).
Proof.
  intros Hp Hl. unfold search. rewrite Hp.
  unfold listArtifacts, fallback_options. cbv zeta.
  cbn [ListOptions.limit ListOptions.offset ListOptions.sortBy
       ListOptions.sortDir].
  split.
  - intros Hpage.
    replace (((page p - 1) * limit p <? 0)
             || (int8_max <? (page p - 1) * limit p)
             || (int8_max <? limit p)) with true
      by (symmetry; apply orb_true_iff; left; apply orb_true_iff; left;
          apply Z.ltb_lt; nia).
    reflexivity.
  - intros Hpage Hel Heo Hpast.
    unfold Conditions.exact_int in Hel, Heo.
    change (2 ^ 53) with 9007199254740992 in Hel, Heo.
    replace (((page p - 1) * limit p <? 0)
             || (int8_max <? (page p - 1) * limit p)
             || (int8_max <? limit p)) with false
      by (symmetry; unfold int8_max; repeat (apply orb_false_iff; split);
          apply Z.ltb_ge; nia).
    replace (limit p <? 0) with false by (symmetry; apply Z.ltb_ge; lia).
    rewrite skipn_all2.
    + rewrite firstn_nil. cbn [map response].
      assert (Hitems : items_of rev db [] = []) by (now destruct rev).
      rewrite Hitems. cbn [len List.length Z.of_nat].
      unfold ceil_div. destruct (Z.eqb_spec (limit p) 0) as [E|_]; [lia|].
      reflexivity.
    + assert (Hlen : forall leb,
                 List.length (order_by leb (artifacts db))
                 = List.length (artifacts db)).
      { intros leb. symmetry. apply Permutation_length, order_by_perm. }
      unfold len in Hpast.
      destruct (getSortDirectionFromSearchParams (sort p));
        rewrite Hlen; lia.
Qed.

(** Page 0, and page 2 of twelve, of a store of three rows. *)
Lemma fallback_page_out_of_bounds_witness :
  response (search plain None Samples.store [("page", QStr "0")]) = next_err
  /\ response (search plain None Samples.store [("page", QStr "2")])
     = json 200
         [("artifacts", f_artifacts []);
          ("pagination",
           f_pagination {| Pagination.page := 2; Pagination.limit := 12;
                           Pagination.total := 0;
                           Pagination.totalPages := Finite 0 |})].
Proof.
  split.
  - refine (proj1 (fallback_page_out_of_bounds plain Samples.store
                     [("page", QStr "0")]
                     (mkParams None None None None None None None
                               (Some false) 0 12 relevance)
                     eq_refl _) _); reflexivity.
  - refine (proj2 (fallback_page_out_of_bounds plain Samples.store
                     [("page", QStr "2")]
                     (mkParams None None None None None None None
                               (Some false) 2 12 relevance)
                     eq_refl _) _ _ _ _);
      solve [ reflexivity | vm_compute; congruence
            | unfold Conditions.exact_int; cbn; lia ].
Defined.

End SearchFacts.
